(** * SPARK particle engine: zones, emitters, obstacles and time stepping

    A shallow embedding of the simulation core of the SPARK particle engine
    (Box and Point zones, Emitter, Obstacle, the random generator of SPKMain
    and the stepping policy of System), together with the properties the
    design document states about it.

    The C++ code computes on [float].  The embedding is written once, over an
    interface [FloatOps] of the arithmetic the code uses, and is instantiated
    twice:
    - [Binary32]: IEEE-754 single precision, bit for bit (SpecFloat of the
      standard library at precision 24, round to nearest even), which is
      what the compiled code computes and which evaluates inside Rocq;
    - [Exact]: the real numbers, the idealisation in which the design
      document reasons ("exactly 0.5 x constantStep", "unit vector").

    General properties are proved over every instance where no law of the
    arithmetic, or only laws both instances have, is needed, and over
    [Exact] otherwise; concrete runs are evaluated over [Binary32].  A
    property stated over [Exact] says so: rounding moves the values the
    compiled code computes by an ulp, and where that decides a test the
    other way a run over [Binary32] shows it. *)

From Stdlib Require Import ZArith List String Bool Lia.
From Stdlib Require Import Reals Lra Psatz.
From Stdlib Require Import SpecFloat.
Import ListNotations.

Set Implicit Arguments.

(* ================================================================== *)
(** ** The arithmetic of [float] *)
(* ================================================================== *)

Declare Scope float_scope.
Delimit Scope float_scope with flt.

(** The operations on [float] that the embedded code uses, and the two
    places of [SPKMain::generateRandom] that compute in [double]. *)
Class FloatOps : Type := {
  float : Type;
  (** an integer constant or an [int] converted to [float] *)
  ofZ : Z -> float;
  fadd : float -> float -> float;
  fsub : float -> float -> float;
  fmul : float -> float -> float;
  fdiv : float -> float -> float;
  fopp : float -> float;
  fabs : float -> float;           (* std::abs *)
  fsqrt : float -> float;          (* std::sqrt *)
  feqb : float -> float -> bool;   (* == *)
  fltb : float -> float -> bool;   (* <  *)
  fleb : float -> float -> bool;   (* <= *)
  (** the literal [0.001f] of Obstacle::modify *)
  bias : float;
  (** [std::numeric_limits<float>::max()] *)
  MAX_FLOAT : float;
  (** [(randomSeed - 1) / 2147483646.0], computed in [double] and converted
      to [float] where it multiplies a vector; the argument is the unsigned
      value of [randomSeed - 1] *)
  seedRatio : Z -> float;
  (** [static_cast<int>(min + ((randomSeed - 1) / 2147483646.0) * (max - min))]
      for [int] arguments, computed in [double] *)
  scaleToRangeInt : Z -> Z -> Z -> Z
}.

Infix "+" := fadd : float_scope.
Infix "-" := fsub : float_scope.
Infix "*" := fmul : float_scope.
Infix "/" := fdiv : float_scope.
Notation "- x" := (fopp x) : float_scope.
Infix "==" := feqb (at level 70, no associativity) : float_scope.
Notation "x != y" := (negb (feqb x y)) (at level 70, no associativity) : float_scope.
Infix "<" := fltb : float_scope.
Infix "<=" := fleb : float_scope.
Notation "x > y" := (fltb y x) (only parsing) : float_scope.
Notation "x >= y" := (fleb y x) (only parsing) : float_scope.

(* ------------------------------------------------------------------ *)
(** *** IEEE-754 single precision *)

Module Binary32.

Definition prec : Z := 24.
Definition emax : Z := 128.

(** [double], for the one expression of the generator computed in it. *)
Definition dprec : Z := 53.
Definition demax : Z := 1024.

Definition of_Z (z : Z) : spec_float := binary_normalize prec emax z 0 false.

(** A [double] rounded to [float]. *)
Definition of_double (d : spec_float) : spec_float :=
  match d with
  | S754_finite s m e => binary_round prec emax s m e
  | _ => d
  end.

(** A [double] truncated toward zero ([static_cast<int>]); the values that
    do not fit an [int] are not produced by the generator. *)
Definition trunc_double (d : spec_float) : Z :=
  match d with
  | S754_finite s m e =>
      let a := match e with
               | Z0 => Zpos m
               | Zpos p => Z.shiftl (Zpos m) (Zpos p)
               | Zneg p => Z.shiftr (Zpos m) (Zpos p)
               end in
      if s then Z.opp a else a
  | _ => 0
  end.

Definition double_of_Z (z : Z) : spec_float := binary_normalize dprec demax z 0 false.

(** [(randomSeed - 1) / 2147483646.0], [k] being [randomSeed - 1] *)
Definition dratio (k : Z) : spec_float :=
  SFdiv dprec demax (double_of_Z k) (double_of_Z 2147483646).

#[export] Instance ops : FloatOps := {|
  float := spec_float;
  ofZ := of_Z;
  fadd := SFadd prec emax;
  fsub := SFsub prec emax;
  fmul := SFmul prec emax;
  fdiv := SFdiv prec emax;
  fopp := SFopp;
  fabs := SFabs;
  fsqrt := SFsqrt prec emax;
  feqb := SFeqb;
  fltb := SFltb;
  fleb := SFleb;
  bias := S754_finite false 8589935 (-33);
  MAX_FLOAT := S754_finite false 16777215 104;
  seedRatio k := of_double (dratio k);
  scaleToRangeInt k lo hi :=
    trunc_double (SFadd dprec demax (double_of_Z lo)
                    (SFmul dprec demax (dratio k) (double_of_Z (hi - lo))))
|}.

End Binary32.

(* ------------------------------------------------------------------ *)
(** *** Exact arithmetic

    The operations of [float] read on the real numbers: no rounding, no
    overflow, no NaN, one zero.  What is proved over it describes the
    compiled code up to the rounding of each operation. *)

Module Exact.

Definition Reqb (a b : R) : bool := if Req_dec_T a b then true else false.
Definition Rltb (a b : R) : bool := if Rlt_dec a b then true else false.
Definition Rleb (a b : R) : bool := if Rle_dec a b then true else false.

(** [static_cast<int>] of a real value: the fractional part is dropped, the
    value is rounded toward zero. *)
Definition truncate (a : R) : Z :=
  if Rlt_dec a 0 then (- Int_part (- a))%Z else Int_part a.

#[export] Instance ops : FloatOps := {|
  float := R;
  ofZ := IZR;
  fadd := Rplus;
  fsub := Rminus;
  fmul := Rmult;
  fdiv := Rdiv;
  fopp := Ropp;
  fabs := Rabs;
  fsqrt := sqrt;
  feqb := Reqb;
  fltb := Rltb;
  fleb := Rleb;
  bias := (1 / 1000)%R;
  MAX_FLOAT := IZR (16777215 * 2 ^ 104);
  seedRatio k := (IZR k / 2147483646)%R;
  scaleToRangeInt k lo hi :=
    truncate (IZR lo + IZR k / 2147483646 * IZR (hi - lo))%R
|}.

End Exact.

(* ================================================================== *)
(** ** Vector3D *)
(* ================================================================== *)

Section Vectors.

Context {F : FloatOps}.
Local Open Scope float_scope.

(** Modelled from the spec: the class Vector3D (Core/SPK_Vector3D.h) is not
    among the sources; the design document speaks of positions, velocities,
    dot and cross products, norms and unit vectors, and the operations
    below have their usual component-wise meaning, each [float] operation
    written in the order a C++ expression evaluates it. *)
Record Vector3D : Type := mkVector3D { x : float; y : float; z : float }.

(** [Vector3D()] *)
Definition vzero : Vector3D := mkVector3D (ofZ 0) (ofZ 0) (ofZ 0).

(** [v[i]]; an index above 2 is outside the object in C++ and reads [z]
    here. *)
Definition vget (v : Vector3D) (i : nat) : float :=
  match i with
  | O => x v
  | S O => y v
  | _ => z v
  end.

(** [v[i] = a]; an index above 2 writes nothing here. *)
Definition vset (v : Vector3D) (i : nat) (a : float) : Vector3D :=
  match i with
  | O => mkVector3D a (y v) (z v)
  | S O => mkVector3D (x v) a (z v)
  | S (S O) => mkVector3D (x v) (y v) a
  | _ => v
  end.

Definition vadd (u v : Vector3D) : Vector3D :=
  mkVector3D (x u + x v) (y u + y v) (z u + z v).

Definition vsub (u v : Vector3D) : Vector3D :=
  mkVector3D (x u - x v) (y u - y v) (z u - z v).

(** [v - f], a scalar taken off every component *)
Definition vsubf (v : Vector3D) (f : float) : Vector3D :=
  mkVector3D (x v - f) (y v - f) (z v - f).

(** [v * f] and [f * v] *)
Definition vscale (v : Vector3D) (f : float) : Vector3D :=
  mkVector3D (x v * f) (y v * f) (z v * f).

Definition fscale (f : float) (v : Vector3D) : Vector3D :=
  mkVector3D (f * x v) (f * y v) (f * z v).

(** [-v], and [v.revert()] which does it in place *)
Definition vopp (v : Vector3D) : Vector3D :=
  mkVector3D (- x v) (- y v) (- z v).

Definition revert (v : Vector3D) : Vector3D := vopp v.

(** [v.abs()] *)
Definition vabs (v : Vector3D) : Vector3D :=
  mkVector3D (fabs (x v)) (fabs (y v)) (fabs (z v)).

(** [std::max] on floats: [a < b ? b : a] *)
Definition fmax (a b : float) : float := if a < b then b else a.

(** [u.setMax(v)]: every component of [u] raised to that of [v] *)
Definition setMax (u v : Vector3D) : Vector3D :=
  mkVector3D (fmax (x u) (x v)) (fmax (y u) (y v)) (fmax (z u) (z v)).

Definition dotProduct (u v : Vector3D) : float :=
  x u * x v + y u * y v + z u * z v.

Definition crossProduct (u v : Vector3D) : Vector3D :=
  mkVector3D (y u * z v - z u * y v)
             (z u * x v - x u * z v)
             (x u * y v - y u * x v).

Definition getSqrNorm (v : Vector3D) : float :=
  x v * x v + y v * y v + z v * z v.

Definition getNorm (v : Vector3D) : float := fsqrt (getSqrNorm v).

(** [u == v] *)
Definition veqb (u v : Vector3D) : bool :=
  (x u == x v) && (y u == y v) && (z u == z v).

(** [v.isNull()] *)
Definition isNull (v : Vector3D) : bool :=
  (x v == ofZ 0) && (y v == ofZ 0) && (z v == ofZ 0).

(** [v.normalize()]: divides [v] by its norm when the norm is not zero and
    tells whether it did. *)
Definition normalize (v : Vector3D) : bool * Vector3D :=
  let norm := getNorm v in
  if norm != ofZ 0
  then (true, mkVector3D (x v / norm) (y v / norm) (z v / norm))
  else (false, v).

(** The fixed-size arrays [axis[3]] and [tAxis[3]]. *)
Record Array3 : Type := mkArray3 { at0 : Vector3D; at1 : Vector3D; at2 : Vector3D }.

Definition aget (a : Array3) (i : nat) : Vector3D :=
  match i with
  | O => at0 a
  | S O => at1 a
  | _ => at2 a
  end.

End Vectors.

Arguments Vector3D : clear implicits.
Arguments Array3 : clear implicits.

(* ================================================================== *)
(** ** The process-wide state: random generator and logger *)
(* ================================================================== *)

(** What the code reaches through [SPKMain::getInstance()] and through the
    logging macros: the seed of the generator and the messages logged so
    far, most recent first. *)
Inductive LogEntry : Type :=
| LogWarning (msg : string)
| LogInfo (msg : string).

Record Runtime : Type := mkRuntime {
  randomSeed : Z;          (* unsigned int *)
  logged : list LogEntry
}.

(** Computations that read and update that state, or abort the program on
    a failed assertion ([None]). *)
Definition M (A : Type) : Type := Runtime -> option (A * Runtime).

Definition ret {A} (a : A) : M A := fun rt => Some (a, rt).

Definition bind {A B} (m : M A) (k : A -> M B) : M B :=
  fun rt =>
    match m rt with
    | Some (a, rt') => k a rt'
    | None => None
    end.

Declare Scope spk_scope.
Delimit Scope spk_scope with spk.
Notation "x <- m ;; k" := (bind m (fun x => k))
  (at level 61, m at next level, right associativity) : spk_scope.
Notation "m ;;; k" := (bind m (fun _ => k))
  (at level 61, right associativity) : spk_scope.

(** [SPK_LOG_WARNING(msg)] and [SPK_LOG_INFO(msg)]: logging is advisory, it
    records the message and changes nothing else. *)
Definition SPK_LOG_WARNING (msg : string) : M unit :=
  fun rt => Some (tt, mkRuntime (randomSeed rt) (LogWarning msg :: logged rt)).

Definition SPK_LOG_INFO (msg : string) : M unit :=
  fun rt => Some (tt, mkRuntime (randomSeed rt) (LogInfo msg :: logged rt)).

(** Modelled from the spec: the macro SPK_ASSERT (Core/SPK_Logger.h) is not
    among the sources.  The design document makes a violated contract a
    fatal assertion that aborts and is never silently repaired: the
    computation stops there. *)
Definition SPK_ASSERT (cond : bool) (msg : string) : M unit :=
  fun rt => if cond then Some (tt, rt) else None.

(** The first half of [SPKMain::generateRandom]: the new seed.  [long] is
    taken wide enough for the sums (they stay below [2^32]); the result is
    stored in an [unsigned int]. *)
Definition nextSeed (randomSeed : Z) : Z :=
  (let tmp0 := 16807 * Z.land randomSeed 0xFFFF in
   let tmp1 := 16807 * Z.shiftr randomSeed 16 in
   let tmp2 := Z.shiftr tmp0 16 + tmp1 in
   let tmp0 := Z.lor (Z.land tmp0 0xFFFF) (Z.shiftl (Z.land tmp2 0x7FFF) 16)
               + Z.shiftr tmp2 15 in
   let tmp0 := if negb (Z.land tmp0 0x80000000 =? 0)
               then Z.land (tmp0 + 1) 0x7FFFFFFF
               else tmp0 in
   tmp0 mod 2 ^ 32)%Z.

(** [randomSeed - 1] in [unsigned int]. *)
Definition seedMinusOne (randomSeed : Z) : Z := ((randomSeed - 1) mod 2 ^ 32)%Z.

Section Random.

Context {F : FloatOps}.
Local Open Scope float_scope.
Local Open Scope spk_scope.

(** [SPK_RANDOM(min,max)] on [int]. *)
Definition generateRandomInt (min max : Z) : M Z :=
  fun rt =>
    let seed := nextSeed (randomSeed rt) in
    Some (scaleToRangeInt (seedMinusOne seed) min max,
          mkRuntime seed (logged rt)).

(** [SPK_RANDOM(min,max)] on [Vector3D], the template read at that type:
    one draw, [min + r * (max - min)] with [r] the ratio in [0,1]. *)
Definition generateRandomVector (min max : Vector3D F) : M (Vector3D F) :=
  fun rt =>
    let seed := nextSeed (randomSeed rt) in
    Some (vadd min (fscale (seedRatio (seedMinusOne seed)) (vsub max min)),
          mkRuntime seed (logged rt)).

End Random.

(* ================================================================== *)
(** ** Zones *)
(* ================================================================== *)

(* ------------------------------------------------------------------ *)
(** *** Box *)

Module Box.
Section Box.

Context {F : FloatOps}.
Local Open Scope float_scope.
Local Open Scope spk_scope.

(** The members of a Box.  [tPosition] is what
    [Zone::getTransformedPosition()] returns and [transformDir] is
    [Transformable::transformDir] under the transform the zone currently
    has; both belong to base classes that are not among the sources, so
    they are carried as they stand. *)
Record Box : Type := mkBox {
  tPosition : Vector3D F;
  transformDir : Vector3D F -> Vector3D F;
  dimension : Vector3D F;
  axis : Array3 F;
  tAxis : Array3 F
}.

Definition withDimension (b : Box) (d : Vector3D F) : Box :=
  mkBox (tPosition b) (transformDir b) d (axis b) (tAxis b).

Definition withAxes (b : Box) (a t : Array3 F) : Box :=
  mkBox (tPosition b) (transformDir b) (dimension b) a t.

(** [Box::setDimension] *)
Definition setDimension (b : Box) (dimension : Vector3D F) : M Box :=
  if (x dimension < ofZ 0) || (y dimension < ofZ 0) || (z dimension < ofZ 0)
  then SPK_LOG_WARNING EmptyString ;;; ret (withDimension b (vabs dimension))
  else ret (withDimension b dimension).

(** [Box::setAxis] *)
Definition setAxis (b : Box) (front up : Vector3D F) : M Box :=
  axes <- (if veqb front up || isNull front || isNull up
           then SPK_LOG_WARNING EmptyString ;;;
                ret (mkVector3D (ofZ 0) (ofZ 1) (ofZ 0),
                     mkVector3D (ofZ 0) (ofZ 0) (ofZ 1))
           else
             let axis2 := snd (normalize front) in
             let axis1 := snd (normalize up) in
             ret (axis1, axis2)) ;;
  let axis2 := snd axes in
  let axis1 := fst axes in
  let axis0 := crossProduct axis2 axis1 in
  let axis1 := crossProduct axis0 axis2 in
  (* for (i = 0; i < 3; ++i) { transformDir(tAxis[i],axis[i]); axis[i].normalize(); } *)
  let tAxis0 := transformDir b axis0 in
  let axis0 := snd (normalize axis0) in
  let tAxis1 := transformDir b axis1 in
  let axis1 := snd (normalize axis1) in
  let tAxis2 := transformDir b axis2 in
  let axis2 := snd (normalize axis2) in
  ret (withAxes b (mkArray3 axis0 axis1 axis2) (mkArray3 tAxis0 tAxis1 tAxis2)).

(** The constructor [Box::Box(position,dimension,front,up)].  The base
    constructor [Zone(position)] is not among the sources: a zone that has
    just been built carries no transform, so its transformed position is
    [position] and [transformDir] leaves directions as they are.  The
    arrays hold zero vectors until [setAxis] fills them. *)
Definition newBox (position dimension front up : Vector3D F) : M Box :=
  let b := mkBox position (fun dir => dir) vzero
                 (mkArray3 vzero vzero vzero) (mkArray3 vzero vzero vzero) in
  b <- setDimension b dimension ;;
  setAxis b front up.

(** [Box::generateRandomDim] *)
Definition generateRandomDim (b : Box) (full : bool) (radius : float)
  : M (Vector3D F) :=
  if full then
    let relDimension := setMax vzero (vsubf (dimension b) radius) in
    generateRandomVector (vopp relDimension) relDimension
  else
    randomDim <- generateRandomVector (vopp (dimension b)) (dimension b) ;;
    n <- generateRandomInt 0 6 ;;
    let axis := Z.to_nat (Z.shiftr n 1) in
    let dir := (Z.shiftl (Z.land n 1) 1 - 1)%Z in
    ret (vset randomDim axis (ofZ dir * vget (dimension b) axis)).

(** [Box::generatePosition] *)
Definition generatePosition (b : Box) (full : bool) (radius : float)
  : M (Vector3D F) :=
  randomDim <- generateRandomDim b full radius ;;
  let v := tPosition b in
  let v := vadd v (fscale (vget randomDim 0) (aget (tAxis b) 0)) in
  let v := vadd v (fscale (vget randomDim 1) (aget (tAxis b) 1)) in
  let v := vadd v (fscale (vget randomDim 2) (aget (tAxis b) 2)) in
  ret v.

(** [Box::contains]: the loop returns [false] at the first axis whose
    slab the point is outside of. *)
Definition outsideSlab (b : Box) (d : Vector3D F) (radius : float) (i : nat)
  : bool :=
  fabs (dotProduct (aget (tAxis b) i) d) - radius > vget (dimension b) i.

Definition contains (b : Box) (v : Vector3D F) (radius : float) : bool :=
  let d := vsub v (tPosition b) in
  if outsideSlab b d radius 0 then false
  else if outsideSlab b d radius 1 then false
  else if outsideSlab b d radius 2 then false
  else true.

(** [Box::computeNormal] *)
Definition computeRatio (b : Box) (d : Vector3D F) (ratio : Vector3D F)
           (i : nat) : Vector3D F :=
  if vget (dimension b) i > ofZ 0
  then vset ratio i (dotProduct (aget (tAxis b) i) d / vget (dimension b) i)
  else ratio.

Definition computeNormal (b : Box) (v : Vector3D F) : Vector3D F :=
  let d := vsub v (tPosition b) in
  let ratio := mkVector3D MAX_FLOAT MAX_FLOAT MAX_FLOAT in
  let ratio := computeRatio b d ratio 0 in
  let ratio := computeRatio b d ratio 1 in
  let ratio := computeRatio b d ratio 2 in
  let absRatio := vabs ratio in
  let axisIndex := 0%nat in
  let axisIndex := if y absRatio > x absRatio then 1%nat else axisIndex in
  let axisIndex := if z absRatio > vget absRatio axisIndex then 2%nat else axisIndex in
  if vget ratio axisIndex > ofZ 0
  then vopp (aget (tAxis b) axisIndex)
  else aget (tAxis b) axisIndex.

(** [Box::innerUpdateTransform], after [Zone::innerUpdateTransform] has
    refreshed the base part (given here as the new transformed position and
    the new [transformDir]). *)
Definition innerUpdateTransform (b : Box) (tPosition' : Vector3D F)
           (transformDir' : Vector3D F -> Vector3D F) : Box :=
  let a := axis b in
  mkBox tPosition' transformDir' (dimension b)
        (mkArray3 (snd (normalize (at0 a))) (snd (normalize (at1 a)))
                  (snd (normalize (at2 a))))
        (mkArray3 (transformDir' (at0 a)) (transformDir' (at1 a))
                  (transformDir' (at2 a))).

(** [Box::intersectSlab]: [minRatio] and [normal] are passed by reference;
    the result carries their values after the call.  The test
    [d0 > 0.0f != d1 > 0.0f] compares the two booleans. *)
Definition intersectSlab (dist0 dist1 slab : float) (axis : Vector3D F)
           (minRatio : float) (normal : Vector3D F)
  : bool * (float * Vector3D F) :=
  let d0 := slab - dist0 in
  let d1 := slab - dist1 in
  if xorb (d0 > ofZ 0) (d1 > ofZ 0) then
    let ratio := d0 / (d0 - d1) in
    if ratio < minRatio
    then (true, (ratio, axis))
    else (false, (minRatio, normal))
  else (false, (minRatio, normal)).

(** The body of the loop of [Box::intersects] for the axis [i]; the state
    is [(intersect, (minRatio, normal))]. *)
Definition intersectAxis (b : Box) (d0 d1 : Vector3D F) (radius : float)
           (i : nat) (st : bool * (float * Vector3D F))
  : bool * (float * Vector3D F) :=
  let intersect := fst st in
  let minRatio := fst (snd st) in
  let normal := snd (snd st) in
  let dist0 := dotProduct (aget (tAxis b) i) d0 in
  let dist1 := dotProduct (aget (tAxis b) i) d1 in
  let dists := if dist1 - dist0 > ofZ 0
               then (dist0 + radius, dist1 + radius)
               else (dist0 - radius, dist1 - radius) in
  let dist0 := fst dists in
  let dist1 := snd dists in
  let r := intersectSlab dist0 dist1 (vget (dimension b) i)
                         (vopp (aget (tAxis b) i)) minRatio normal in
  let intersect := intersect || fst r in
  let r := intersectSlab dist0 dist1 (- vget (dimension b) i)
                         (aget (tAxis b) i) (fst (snd r)) (snd (snd r)) in
  let intersect := intersect || fst r in
  (intersect, snd r).

(** [Box::intersects]: the result is the boolean returned and the value of
    [normal] after the call. *)
Definition intersects (b : Box) (v0 v1 : Vector3D F) (radius : float)
           (normal : Vector3D F) : M (bool * Vector3D F) :=
  SPK_LOG_INFO
    "The intersection is not working correctly with the Box Zone at the moment" ;;;
  let d0 := vsub v0 (tPosition b) in
  let d1 := vsub v1 (tPosition b) in
  let st := (false, (MAX_FLOAT, normal)) in
  let st := intersectAxis b d0 d1 radius 0 st in
  let st := intersectAxis b d0 d1 radius 1 st in
  let st := intersectAxis b d0 d1 radius 2 st in
  ret (fst st, snd (snd st)).

End Box.

Arguments Box : clear implicits.

End Box.

(* ------------------------------------------------------------------ *)
(** *** The base class Zone and the Point zone *)

Section ZoneBase.

Context {F : FloatOps}.
Local Open Scope float_scope.
Local Open Scope spk_scope.

(** Modelled from the spec: Zone::normalizeOrRandomize (Core/SPK_Zone.h) is
    not among the sources.  The design document: "degenerate cases
    (zero-length normal) fall back to a randomized unit vector rather than
    failing".  The draw of that vector from the generator is the parameter
    [randomUnitVector]; a vector that can be normalized is normalized. *)
Variable randomUnitVector : M (Vector3D F).

Definition normalizeOrRandomize (v : Vector3D F) : M (Vector3D F) :=
  let (normalized, n) := normalize v in
  if normalized then ret n else randomUnitVector.

End ZoneBase.

Module Point.
Section Point.

Context {F : FloatOps}.
Local Open Scope float_scope.
Local Open Scope spk_scope.

Variable randomUnitVector : M (Vector3D F).

(** A Point has no member of its own; [tPosition] is
    [Zone::getTransformedPosition()]. *)
Record Point : Type := mkPoint { tPosition : Vector3D F }.

(** [Point::generatePosition]: [v = getTransformedPosition()] *)
Definition generatePosition (p : Point) (full : bool) (radius : float)
  : Vector3D F :=
  tPosition p.

(** [Point::contains] *)
Definition contains (p : Point) (v : Vector3D F) (radius : float) : bool :=
  false.

(** [Point::intersects] *)
Definition intersects (p : Point) (v0 v1 : Vector3D F) (radius : float)
  : bool :=
  false.

(** [Point::computeNormal] *)
Definition computeNormal (p : Point) (v : Vector3D F) : M (Vector3D F) :=
  let normal := vsub v (tPosition p) in
  normalizeOrRandomize randomUnitVector normal.

End Point.

Arguments Point : clear implicits.

End Point.

(* ------------------------------------------------------------------ *)
(** *** Zones behind their common interface *)

Module Zone.
Section Zone.

Context {F : FloatOps}.
Local Open Scope spk_scope.

Variable randomUnitVector : M (Vector3D F).

(** The two zones of the sources; the virtual calls dispatch on the
    variant. *)
Inductive Zone : Type :=
| OfPoint (p : Point.Point F)
| OfBox (b : Box.Box F).

Definition generatePosition (zone : Zone) (full : bool) (radius : float)
  : M (Vector3D F) :=
  match zone with
  | OfPoint p => ret (Point.generatePosition p full radius)
  | OfBox b => Box.generatePosition b full radius
  end.

Definition contains (zone : Zone) (v : Vector3D F) (radius : float) : bool :=
  match zone with
  | OfPoint p => Point.contains p v radius
  | OfBox b => Box.contains b v radius
  end.

Definition computeNormal (zone : Zone) (v : Vector3D F) : M (Vector3D F) :=
  match zone with
  | OfPoint p => Point.computeNormal randomUnitVector p v
  | OfBox b => ret (Box.computeNormal b v)
  end.

End Zone.

Arguments Zone : clear implicits.

End Zone.

(* ================================================================== *)
(** ** Emitter *)
(* ================================================================== *)

Module Emitter.
Section Emitter.

Context {F : FloatOps}.
Local Open Scope float_scope.
Local Open Scope spk_scope.

Record Emitter : Type := mkEmitter {
  active : bool;
  zone : Zone.Zone F;
  full : bool;
  tank : Z;               (* int *)
  flow : float;
  forceMin : float;
  forceMax : float;
  fraction : float
}.

Definition withTank (e : Emitter) (tank' : Z) : Emitter :=
  mkEmitter (active e) (zone e) (full e) tank' (flow e)
            (forceMin e) (forceMax e) (fraction e).

Definition withFlow (e : Emitter) (flow' : float) : Emitter :=
  mkEmitter (active e) (zone e) (full e) (tank e) flow'
            (forceMin e) (forceMax e) (fraction e).

Definition withForce (e : Emitter) (forceMin' forceMax' : float) : Emitter :=
  mkEmitter (active e) (zone e) (full e) (tank e) (flow e)
            forceMin' forceMax' (fraction e).

(** [Emitter::setTank]: in the assertion [flow] is the member and [tank]
    the argument. *)
Definition setTank (e : Emitter) (tank : Z) : M Emitter :=
  SPK_ASSERT ((flow e >= ofZ 0) || (tank >=? 0)%Z)
    "Emitter::setTank(int) : the flow and tank of an emitter cannot be both negative" ;;;
  ret (withTank e tank).

(** [Emitter::setFlow]: in the assertion [flow] is the argument and [tank]
    the member. *)
Definition setFlow (e : Emitter) (flow : float) : M Emitter :=
  SPK_ASSERT ((flow >= ofZ 0) || (tank e >=? 0)%Z)
    "Emitter::setFlow(float) : the flow and tank of an emitter cannot be both negative" ;;;
  ret (withFlow e flow).

(** [Emitter::setForce]: the test reads the members [forceMin] and
    [forceMax], the arguments are named [min] and [max]. *)
Definition setForce (e : Emitter) (min max : float) : M Emitter :=
  if forceMin e <= forceMax e
  then ret (withForce e min max)
  else
    SPK_LOG_WARNING
      "Emitter::setForce(float,float) - min is higher than max - Values are swapped" ;;;
    ret (withForce e max min).

(** The constructor [Emitter::Emitter(zone,full,tank,flow,forceMin,forceMax)].
    Its initialiser list sets [active], [zone], [flow] and [fraction]; the
    members [full], [tank], [forceMin] and [forceMax] hold whatever the
    storage held, given here as [raw], until a setter writes them (no
    setter writes [full]).  A null [zone] is replaced by the default zone
    by the caller of this function. *)
Definition newEmitter (raw : Emitter) (zone : Zone.Zone F) (full : bool)
           (tank : Z) (flow forceMin forceMax : float) : M Emitter :=
  let e := mkEmitter true zone (Emitter.full raw) (Emitter.tank raw) (ofZ 1)
                     (Emitter.forceMin raw) (Emitter.forceMax raw) (ofZ 0) in
  e <- setTank e tank ;;
  e <- setFlow e flow ;;
  setForce e forceMin forceMax.

End Emitter.

Arguments Emitter : clear implicits.

End Emitter.

(* ================================================================== *)
(** ** Obstacle *)
(* ================================================================== *)

Module Obstacle.
Section Obstacle.

Context {F : FloatOps}.
Local Open Scope float_scope.
Local Open Scope spk_scope.

(** What Obstacle::modify touches of a particle (Core/SPK_Particle.h is
    not among the sources). *)
Record Particle : Type := mkParticle {
  position : Vector3D F;
  oldPosition : Vector3D F;
  velocity : Vector3D F
}.

Record Obstacle : Type := mkObstacle {
  zone : Zone.Zone F;
  bouncingRatio : float;
  friction : float
}.

Variable randomUnitVector : M (Vector3D F).

(** [ZonedModifier::checkZone], the configured zone test of the modifier
    on one particle; ZonedModifier is not among the sources and the test
    is a parameter.  It is a computation on the process state like the
    tests of the zones it calls ([Box::intersects] logs a notice at every
    call). *)
Variable checkZone : Obstacle -> Particle -> M bool.

(** The velocity after the body of the [if]: [normal] is the normal
    returned by the zone. *)
Definition bounce (o : Obstacle) (velocity normal : Vector3D F) : Vector3D F :=
  let dist := dotProduct velocity normal in
  let normal := vscale normal (dist - bias) in
  let velocity := vsub velocity normal in        (* tangent component *)
  let velocity := vscale velocity (friction o) in
  let normal := vscale normal (bouncingRatio o) in  (* normal component *)
  let normal := if dist > ofZ 0 then revert normal else normal in
  vsub velocity normal.

(** The body of the loop of [Obstacle::modify], on one particle. *)
Definition modifyParticle (o : Obstacle) (p : Particle) : M Particle :=
  triggered <- checkZone o p ;;
  if triggered then
    let position := oldPosition p in
    normal <- Zone.computeNormal randomUnitVector (zone o) position ;;
    ret (mkParticle position (oldPosition p) (bounce o (velocity p) normal))
  else ret p.

(** [Obstacle::modify]: the GroupIterator visits the particles of the
    group in order; the group is the list of its particles. *)
Fixpoint modify (o : Obstacle) (group : list Particle) (deltaTime : float)
  : M (list Particle) :=
  match group with
  | [] => ret []
  | p :: rest =>
      p' <- modifyParticle o p ;;
      rest' <- modify o rest deltaTime ;;
      ret (p' :: rest')
  end.

End Obstacle.

Arguments Particle : clear implicits.
Arguments Obstacle : clear implicits.

End Obstacle.

(* ================================================================== *)
(** ** System: the stepping policy *)
(* ================================================================== *)

Module System.
Section System.

Context {F : FloatOps}.
Local Open Scope float_scope.

Inductive StepMode : Type :=
| STEP_MODE_REAL
| STEP_MODE_CONSTANT
| STEP_MODE_ADAPTIVE.

(** The static members of System: one stepping policy for the process. *)
Record Policy : Type := mkPolicy {
  stepMode : StepMode;
  constantStep : float;
  minStep : float;
  maxStep : float;
  clampStepEnabled : bool;
  clampStep : float
}.

(** [System::setClampStep] *)
Definition setClampStep (c : Policy) (enableClampStep : bool) (clamp : float)
  : Policy :=
  mkPolicy (stepMode c) (constantStep c) (minStep c) (maxStep c)
           enableClampStep clamp.

(** [System::useConstantStep] *)
Definition useConstantStep (c : Policy) (constantStep : float) : Policy :=
  mkPolicy STEP_MODE_CONSTANT constantStep (minStep c) (maxStep c)
           (clampStepEnabled c) (clampStep c).

(** [System::useAdaptiveStep] *)
Definition useAdaptiveStep (c : Policy) (minStep maxStep : float) : Policy :=
  mkPolicy STEP_MODE_ADAPTIVE (constantStep c) minStep maxStep
           (clampStepEnabled c) (clampStep c).

(** [System::useRealStep] *)
Definition useRealStep (c : Policy) : Policy :=
  mkPolicy STEP_MODE_REAL (constantStep c) (minStep c) (maxStep c)
           (clampStepEnabled c) (clampStep c).

(** Of a System, the accumulator [deltaStep] and, in place of its groups,
    the sub-steps by which they have been advanced so far, oldest
    first. *)
Record System : Type := mkSystem {
  deltaStep : float;
  advanced : list float
}.

(** [System::System]: [deltaStep(0.0f)], nothing simulated yet. *)
Definition newSystem : System := mkSystem (ofZ 0) [].

(** Modelled from the spec: System::innerUpdate (SPK_System.cpp) is not
    among the sources.  It "drives every owned Group once per sub-step";
    here it records the sub-step. *)
Definition innerUpdate (s : System) (deltaTime : float) : System :=
  mkSystem (deltaStep s) (advanced s ++ [deltaTime]).

(** Modelled from the spec: the loop of the CONSTANT mode, "zero or more
    fixed-size sub-steps of size constantStep, applied repeatedly until the
    accumulated delta is exhausted (leftover fractional time is
    carried)".  [fuel] bounds the number of iterations; [None] when it runs
    out. *)
Fixpoint subSteps (fuel : nat) (s : System) (deltaTime updateStep : float)
  : option System :=
  match fuel with
  | O => None
  | S fuel' =>
      if deltaTime >= updateStep
      then subSteps fuel' (innerUpdate s updateStep) (deltaTime - updateStep)
                    updateStep
      else Some (mkSystem deltaTime (advanced s))
  end.

(** Modelled from the spec: System::updateParticles (SPK_System.cpp) is not
    among the sources.  Section 4.5 of the design document: the clamp caps
    the incoming delta before the step-mode logic; REAL advances by the
    delta; CONSTANT adds the delta to the accumulator and runs the loop
    with [constantStep]; ADAPTIVE behaves like REAL when the delta lies in
    [[minStep, maxStep]] and like CONSTANT with [maxStep] or [minStep] as
    the step when the delta is above or below. *)
Definition updateParticles (fuel : nat) (c : Policy) (s : System)
           (deltaTime : float) : option System :=
  let deltaTime :=
    if clampStepEnabled c && (deltaTime > clampStep c)
    then clampStep c else deltaTime in
  match stepMode c with
  | STEP_MODE_REAL => Some (innerUpdate s deltaTime)
  | STEP_MODE_CONSTANT =>
      subSteps fuel s (deltaTime + deltaStep s) (constantStep c)
  | STEP_MODE_ADAPTIVE =>
      if deltaTime > maxStep c
      then subSteps fuel s (deltaTime + deltaStep s) (maxStep c)
      else if deltaTime < minStep c
      then subSteps fuel s (deltaTime + deltaStep s) (minStep c)
      else Some (innerUpdate s deltaTime)
  end.

End System.

Arguments Policy : clear implicits.
Arguments System : clear implicits.

End System.

(* ================================================================== *)
(** ** Notions used by the properties *)
(* ================================================================== *)

(** The three vectors of an array are unit vectors, orthogonal two by two
    (in exact arithmetic). *)
Definition orthonormal (a : Array3 Exact.ops) : Prop :=
  (dotProduct (at0 a) (at0 a) = 1
   /\ dotProduct (at1 a) (at1 a) = 1
   /\ dotProduct (at2 a) (at2 a) = 1
   /\ dotProduct (at0 a) (at1 a) = 0
   /\ dotProduct (at0 a) (at2 a) = 0
   /\ dotProduct (at1 a) (at2 a) = 0)%R.

(** [nextSeed] without bit operations: the sum of the low 31 bits and of the
    bits above of [16807 * seed], as the generator assembles it. *)
Definition foldedProduct (seed : Z) : Z :=
  (let tmp0 := 16807 * (seed mod 65536) in
   let tmp2 := tmp0 / 65536 + 16807 * (seed / 65536) in
   tmp0 mod 65536 + tmp2 mod 32768 * 65536 + tmp2 / 32768)%Z.

(** The seeds the generator runs on: [1 .. 2^31 - 2]. *)
Definition validSeed (seed : Z) : Prop := (1 <= seed <= 2147483646)%Z.

(** A box as the design document takes it: dimensions that are not
    negative and orthonormal transformed axes. *)
Definition validBox (b : Box.Box Exact.ops) : Prop :=
  (0 <= x (Box.dimension b) /\ 0 <= y (Box.dimension b)
   /\ 0 <= z (Box.dimension b))%R
  /\ orthonormal (Box.tAxis b).

(** The three vectors of an array have length 1 (in exact arithmetic). *)
Definition unitAxes (a : Array3 Exact.ops) : Prop :=
  (getNorm (at0 a) = 1 /\ getNorm (at1 a) = 1 /\ getNorm (at2 a) = 1)%R.

(** What the design document says of the fallback of
    [Zone::normalizeOrRandomize]: it yields a unit vector (in exact
    arithmetic), whatever the state of the generator. *)
Definition yieldsUnitVector (randomUnitVector : M (Vector3D Exact.ops)) : Prop :=
  forall rt : Runtime,
    exists (u : Vector3D Exact.ops) (rt' : Runtime),
      randomUnitVector rt = Some (u, rt') /\ getNorm u = 1%R.

(** The part of a zone [computeNormal] relies on: nothing for a Point, the
    lengths of the transformed axes for a Box. *)
Definition zoneAxesUnit (zone : Zone.Zone Exact.ops) : Prop :=
  match zone with
  | Zone.OfPoint _ => True
  | Zone.OfBox b => unitAxes (Box.tAxis b)
  end.


(** Laws of the comparisons.

    What the properties below need of [<] and [<=]: a value that is [>= 0]
    is not [< 0].  It holds of the reals and of IEEE-754 floats alike (a NaN
    is neither). *)
Class FloatOrder (F : FloatOps) : Prop := {
  nonneg_not_neg : forall a : float,
    fleb (ofZ 0) a = true -> fltb a (ofZ 0) = false
}.

(** The quantity [Box::contains] compares on axis [i]. *)
Definition slabDistance (b : Box.Box Exact.ops) (v : Vector3D Exact.ops)
           (i : nat) : R :=
  Rabs (dotProduct (aget (Box.tAxis b) i) (vsub v (Box.tPosition b))).

(* ================================================================== *)
(** ** Concrete inputs *)
(* ================================================================== *)

(** Inputs in single precision, for the runs evaluated below. *)
Module Single.

(** A vector with integer coordinates. *)
Definition vec (a b c : Z) : Vector3D Binary32.ops :=
  @mkVector3D Binary32.ops (Binary32.of_Z a) (Binary32.of_Z b) (Binary32.of_Z c).

(** The process at start: seed 1, nothing logged. *)
Definition start : Runtime := mkRuntime 1 [].

(** A stand-in for the random fallback of [normalizeOrRandomize]. *)
Definition fallback : M (Vector3D Binary32.ops) := ret (vec 1 0 0).

(** A zone test that triggers on every particle, and one that triggers on
    the particles that have left their old position along x. *)
Definition always (o : Obstacle.Obstacle Binary32.ops)
           (p : Obstacle.Particle Binary32.ops) : M bool := ret true.

Definition moved (o : Obstacle.Obstacle Binary32.ops)
           (p : Obstacle.Particle Binary32.ops) : M bool :=
  ret (negb (SFeqb (x (Obstacle.position p)) (x (Obstacle.oldPosition p)))).

(** A zone test that asks a Box zone whether the segment from the old
    position to the position crosses it. *)
Definition crossing (o : Obstacle.Obstacle Binary32.ops)
           (p : Obstacle.Particle Binary32.ops) : M bool :=
  match Obstacle.zone o with
  | Zone.OfBox b =>
      bind (Box.intersects b (Obstacle.oldPosition p) (Obstacle.position p)
                           (Binary32.of_Z 0) (vec 0 0 0))
           (fun r => ret (fst r))
  | Zone.OfPoint _ => ret false
  end.

(** An obstacle with both coefficients 1 on a Point zone at the origin. *)
Definition elastic : Obstacle.Obstacle Binary32.ops :=
  @Obstacle.mkObstacle Binary32.ops (Zone.OfPoint (Point.mkPoint (vec 0 0 0)))
                      (Binary32.of_Z 1) (Binary32.of_Z 1).

(** Two particles whose old position is [(0,0,1)], where the normal of that
    zone is [(0,0,1)]: one moving along the normal, one against it. *)
Definition leaving : Obstacle.Particle Binary32.ops :=
  Obstacle.mkParticle (vec 0 0 0) (vec 0 0 1) (vec 3 0 2).

Definition arriving : Obstacle.Particle Binary32.ops :=
  Obstacle.mkParticle (vec 0 0 0) (vec 0 0 1) (vec 3 0 (-2)).

(** What [Obstacle::modify] makes of them: the first keeps its velocity,
    the second leaves with [2.002f] on the normal. *)
Definition left : Obstacle.Particle Binary32.ops :=
  Obstacle.mkParticle (vec 0 0 1) (vec 0 0 1) (vec 3 0 2).

Definition arrived : Obstacle.Particle Binary32.ops :=
  Obstacle.mkParticle (vec 0 0 1) (vec 0 0 1)
    (@mkVector3D Binary32.ops (Binary32.of_Z 3) (Binary32.of_Z 0)
                 (S754_finite false 8396996 (-22))).

(** A particle that has moved along x and one that has not. *)
Definition shifted : Obstacle.Particle Binary32.ops :=
  Obstacle.mkParticle (vec 1 0 1) (vec 0 0 1) (vec 3 0 (-2)).

Definition still : Obstacle.Particle Binary32.ops :=
  Obstacle.mkParticle (vec 0 5 1) (vec 0 0 1) (vec 3 0 (-2)).

(** An emitter with a positive flow and an infinite tank ([-1]), and one
    with a negative flow and a tank of 10. *)
Definition emitter (flow : Z) (tank : Z) : Emitter.Emitter Binary32.ops :=
  @Emitter.mkEmitter Binary32.ops true (Zone.OfPoint (Point.mkPoint (vec 0 0 0))) true
                    tank (Binary32.of_Z flow)
                    (Binary32.of_Z 0) (Binary32.of_Z 0) (Binary32.of_Z 0).

(** The box that [setAxis] leaves for [front = (1,0,0)], [up = (2,0,0)]. *)
Definition degenerate : Box.Box Binary32.ops :=
  @Box.mkBox Binary32.ops (vec 0 0 0) (fun dir => dir) (vec 1 1 1)
             (mkArray3 (vec 0 0 0) (vec 0 0 0) (vec 1 0 0))
             (mkArray3 (vec 0 0 0) (vec 0 0 0) (vec 1 0 0)).

(** The axes stored for equal or null [front] and [up]: the canonical
    ones, the first pointing to negative x (and a negative zero from the
    second cross product). *)
Definition canonicalAxes : Array3 Binary32.ops :=
  mkArray3 (vec (-1) 0 0)
           (@mkVector3D Binary32.ops (Binary32.of_Z 0) (Binary32.of_Z 1)
                        (S754_zero true))
           (vec 0 0 1).

Definition canonical : Box.Box Binary32.ops :=
  @Box.mkBox Binary32.ops (vec 0 0 0) (fun dir => dir) (vec 1 1 1)
             canonicalAxes canonicalAxes.

(** [0.75f], the box of half-sizes [0.75] at [(12582912, 0, 0)] on the
    canonical axes, and the point [generatePosition] draws in it at seed
    110000. *)
Definition threeQuarters : spec_float := S754_finite false 12582912 (-24).

Definition far : Box.Box Binary32.ops :=
  @Box.mkBox Binary32.ops (vec 12582912 0 0) (fun dir => dir)
             (@mkVector3D Binary32.ops threeQuarters threeQuarters threeQuarters)
             canonicalAxes canonicalAxes.

Definition sampled : Vector3D Binary32.ops :=
  @mkVector3D Binary32.ops (Binary32.of_Z 12582911)
              (S754_finite false 9082362 (-24))
              (S754_finite false 9082362 (-24)).

(** An obstacle with both coefficients 1 on the box [canonical], a particle
    that has entered the box through its top face and one that stays above
    it. *)
Definition wall : Obstacle.Obstacle Binary32.ops :=
  @Obstacle.mkObstacle Binary32.ops (Zone.OfBox canonical)
                      (Binary32.of_Z 1) (Binary32.of_Z 1).

Definition entering : Obstacle.Particle Binary32.ops :=
  Obstacle.mkParticle (vec 0 0 0) (vec 0 0 2) (vec 1 0 (-3)).

Definition hovering : Obstacle.Particle Binary32.ops :=
  Obstacle.mkParticle (vec 0 0 3) (vec 0 0 2) (vec 0 0 1).

(** [0.6f], and the box that [setAxis] leaves for [front = (0,0,1)],
    [up = (0,3,4)]: [tAxis[0]] and [tAxis[1]] have length [0.6f]. *)
Definition sixTenths : spec_float := S754_finite false 10066330 (-24).

Definition slanted : Box.Box Binary32.ops :=
  @Box.mkBox Binary32.ops (vec 0 0 0) (fun dir => dir) (vec 1 1 1)
             canonicalAxes
             (mkArray3
                (@mkVector3D Binary32.ops (SFopp sixTenths) (Binary32.of_Z 0)
                             (Binary32.of_Z 0))
                (@mkVector3D Binary32.ops (Binary32.of_Z 0) sixTenths
                             (S754_zero true))
                (vec 0 0 1)).

End Single.

(** Inputs in exact arithmetic. *)
Module Real.

Definition vec (a b c : Z) : Vector3D Exact.ops :=
  @mkVector3D Exact.ops (IZR a) (IZR b) (IZR c).

Definition start : Runtime := mkRuntime 1 [].

Definition fallback : M (Vector3D Exact.ops) := ret (vec 1 0 0).

Definition always (o : Obstacle.Obstacle Exact.ops)
           (p : Obstacle.Particle Exact.ops) : M bool := ret true.

(** The box of half-sizes [(1,2,3)] at the origin, on the canonical axes. *)
Definition box : Box.Box Exact.ops :=
  @Box.mkBox Exact.ops (vec 0 0 0) (fun dir => dir) (vec 1 2 3)
            (mkArray3 (vec 1 0 0) (vec 0 1 0) (vec 0 0 1))
            (mkArray3 (vec 1 0 0) (vec 0 1 0) (vec 0 0 1)).

(** An obstacle with both coefficients 1 on that box. *)
Definition elastic : Obstacle.Obstacle Exact.ops :=
  @Obstacle.mkObstacle Exact.ops (Zone.OfBox box) 1%R 1%R.

(** A particle that has passed the top face of the box, falling. *)
Definition falling : Obstacle.Particle Exact.ops :=
  Obstacle.mkParticle (vec 0 0 2) (vec 0 0 4) (vec 1 0 (-3)).

(** An emitter whose stored force range is reversed: [(5, 2)]. *)
Definition reversed : Emitter.Emitter Exact.ops :=
  @Emitter.mkEmitter Exact.ops true (Zone.OfBox box) true (-1) 1%R
                     5%R 2%R 0%R.

(** CONSTANT mode with a step of 1, no clamp. *)
Definition constantOne : System.Policy Exact.ops :=
  @System.mkPolicy Exact.ops System.STEP_MODE_CONSTANT 1%R 0%R 0%R false 1%R.

End Real.

(* ================================================================== *)
(** ** Further notions *)
(* ================================================================== *)

(** Further laws of the arithmetic, true of the reals and of IEEE-754
    floats: an absolute value is not [< 0], and [0 <= 1]. *)
Class FloatLaws (F : FloatOps) : Prop := {
  abs_not_negative : forall a : float, fltb (fabs a) (ofZ 0) = false;
  zero_le_one : fleb (ofZ 0) (ofZ 1) = true
}.

(** A value that tests equal to zero. *)
Definition isZero {F : FloatOps} (a : float) : Prop := feqb a (ofZ 0) = true.

(** A single-precision float that is a zero or a finite number. *)
Definition SFfinite (a : spec_float) : Prop :=
  match a with
  | S754_zero _ | S754_finite _ _ _ => True
  | _ => False
  end.

(** Laws of zero, true of the reals and of IEEE-754 floats, where a zero
    has a sign and [finite] leaves out the infinities and NaN: a difference
    that is zero or a product that is finite has finite operands, and sums,
    differences, products with a finite value and square roots of zeros
    are zeros. *)
Class FloatZero (F : FloatOps) (finite : float -> Prop) : Prop := {
  zero_is_finite : forall a : float, isZero a -> finite a;
  difference_operands_finite : forall p q : float,
    isZero (fsub p q) -> finite p /\ finite q;
  product_operands_finite : forall a b : float,
    finite (fmul a b) -> finite a /\ finite b;
  zero_times : forall a b : float, isZero a -> finite b -> isZero (fmul a b);
  zero_minus_zero : forall a b : float,
    isZero a -> isZero b -> isZero (fsub a b);
  zero_plus_zero : forall a b : float,
    isZero a -> isZero b -> isZero (fadd a b);
  sqrt_of_zero : forall a : float, isZero a -> isZero (fsqrt a)
}.

(** No component of a vector tests [< 0]. *)
Definition noNegativeComponent {F : FloatOps} (v : Vector3D F) : Prop :=
  fltb (x v) (ofZ 0) = false
  /\ fltb (y v) (ofZ 0) = false
  /\ fltb (z v) (ofZ 0) = false.

(** Some component of a vector tests [< 0]: the test of
    [Box::setDimension]. *)
Definition hasNegativeComponent {F : FloatOps} (v : Vector3D F) : bool :=
  fltb (x v) (ofZ 0) || fltb (y v) (ofZ 0) || fltb (z v) (ofZ 0).

(** The coordinate of a point on the transformed axis [i] of a box, in exact
    arithmetic. *)
Definition coordinate (b : Box.Box Exact.ops) (v : Vector3D Exact.ops)
           (i : nat) : R :=
  dotProduct (aget (Box.tAxis b) i) (vsub v (Box.tPosition b)).

(** The ratio [Box::computeNormal] computes on axis [i] when the dimension
    is positive, and the axis it selects from the three ratios: the first
    of the largest in absolute value. *)
Definition axisRatio (b : Box.Box Exact.ops) (v : Vector3D Exact.ops)
           (i : nat) : R :=
  (coordinate b v i / vget (Box.dimension b) i)%R.

Definition selectedAxis (q0 q1 q2 : R) : nat :=
  let k := if Exact.Rltb (Rabs q0) (Rabs q1) then 1%nat else 0%nat in
  let qk := match k with O => q0 | _ => q1 end in
  if Exact.Rltb (Rabs qk) (Rabs q2) then 2%nat else k.

(** A transform of directions that keeps dot products, as a rotation
    does (in exact arithmetic). *)
Definition isometric (t : Vector3D Exact.ops -> Vector3D Exact.ops) : Prop :=
  forall u v : Vector3D Exact.ops, dotProduct (t u) (t v) = dotProduct u v.

(** The cosine of the angle between two vectors. *)
Definition cosine (u v : Vector3D Exact.ops) : R :=
  (dotProduct u v / (getNorm u * getNorm v))%R.

(** A vector is one of the transformed axes of a box or the opposite of
    one. *)
Definition isFaceNormal {F : FloatOps} (b : Box.Box F) (n : Vector3D F) : Prop :=
  exists i : nat,
    (i < 3)%nat /\ (n = aget (Box.tAxis b) i \/ n = vopp (aget (Box.tAxis b) i)).

(** The state of the loop of [Box::intersects] is sound for the normal the
    caller passed: without crossing found the normal is still the
    caller's, with a crossing found it is a face normal. *)
Definition soundCrossing {F : FloatOps} (b : Box.Box F) (normal0 : Vector3D F)
           (st : bool * (float * Vector3D F)) : Prop :=
  (fst st = false -> snd (snd st) = normal0)
  /\ (fst st = true -> isFaceNormal b (snd (snd st))).

(** The message [Box::intersects] logs at every call. *)
Definition intersectsNotice : string :=
  "The intersection is not working correctly with the Box Zone at the moment".

(** The zone tests of a modifier on the particles of a group, run in the
    order of the group, each on the state of the process the one before
    left: their answers. *)
Fixpoint checkZones {F : FloatOps}
         (checkZone : Obstacle.Obstacle F -> Obstacle.Particle F -> M bool)
         (o : Obstacle.Obstacle F) (group : list (Obstacle.Particle F))
  : M (list bool) :=
  match group with
  | [] => ret []
  | p :: rest =>
      bind (checkZone o p) (fun triggered =>
      bind (checkZones checkZone o rest) (fun answers =>
      ret (triggered :: answers)))
  end.

(** A particle sent back to its old position with its velocity bounced on
    the normal of a box there, when its test has triggered. *)
Definition bouncedOnBox {F : FloatOps} (o : Obstacle.Obstacle F)
           (b : Box.Box F) (triggered : bool) (p : Obstacle.Particle F)
  : Obstacle.Particle F :=
  if triggered
  then Obstacle.mkParticle
         (Obstacle.oldPosition p) (Obstacle.oldPosition p)
         (Obstacle.bounce o (Obstacle.velocity p)
            (Box.computeNormal b (Obstacle.oldPosition p)))
  else p.

(** A vector of single-precision floats has a NaN among its components. *)
Definition hasNaN (v : Vector3D Binary32.ops) : Prop :=
  x v = S754_nan \/ y v = S754_nan \/ z v = S754_nan.

(* ================================================================== *)
(** ** Proof tools *)
(* ================================================================== *)

(** Reading the operations of [Exact.ops] as the operations of [R]. *)
Ltac exact_ops :=
  cbn [fadd fsub fmul fdiv fopp fabs fsqrt feqb fltb fleb ofZ bias MAX_FLOAT
       seedRatio scaleToRangeInt float Exact.ops] in *.

Ltac vector_ops :=
  unfold dotProduct, crossProduct, getNorm, getSqrNorm, vadd, vsub, vsubf,
         vscale, fscale, revert, vopp, vabs, setMax, fmax, vzero in *;
  cbn [x y z vget aget at0 at1 at2] in *.

(* ================================================================== *)
(** * Properties *)
(* ================================================================== *)

Unset Implicit Arguments.

(** ** The monad *)

Lemma bind_Some {A B} (m : M A) (k : A -> M B) rt b rt' :
  bind m k rt = Some (b, rt') ->
  exists a rt1, m rt = Some (a, rt1) /\ k a rt1 = Some (b, rt').
Proof.
  unfold bind. destruct (m rt) as [[a rt1]|]; [|discriminate].
  intros H. exists a, rt1. split; [reflexivity|exact H].
Qed.

Lemma ret_Some {A} (a b : A) rt rt' :
  ret a rt = Some (b, rt') -> a = b /\ rt = rt'.
Proof. unfold ret. intros H. inversion H. split; reflexivity. Qed.

(** ** Laws of the comparisons *)

Lemma Rltb_true (a b : R) : Exact.Rltb a b = true <-> (a < b)%R.
Proof. unfold Exact.Rltb. destruct (Rlt_dec a b); split; intros; try lra; try discriminate; reflexivity. Qed.

Lemma Rltb_false (a b : R) : Exact.Rltb a b = false <-> (b <= a)%R.
Proof. unfold Exact.Rltb. destruct (Rlt_dec a b); split; intros; try lra; try discriminate; reflexivity. Qed.

Lemma Rleb_true (a b : R) : Exact.Rleb a b = true <-> (a <= b)%R.
Proof. unfold Exact.Rleb. destruct (Rle_dec a b); split; intros; try lra; try discriminate; reflexivity. Qed.

Lemma Rleb_false (a b : R) : Exact.Rleb a b = false <-> (b < a)%R.
Proof. unfold Exact.Rleb. destruct (Rle_dec a b); split; intros; try lra; try discriminate; reflexivity. Qed.

Lemma Reqb_true (a b : R) : Exact.Reqb a b = true <-> a = b.
Proof. unfold Exact.Reqb. destruct (Req_dec_T a b); split; intros; try lra; try discriminate; try reflexivity; contradiction. Qed.

Lemma Reqb_false (a b : R) : Exact.Reqb a b = false <-> a <> b.
Proof. unfold Exact.Reqb. destruct (Req_dec_T a b); split; intros; try discriminate; try reflexivity; try assumption; contradiction. Qed.

#[export] Instance Exact_order : FloatOrder Exact.ops.
Proof.
  constructor. intros a. cbn. rewrite Rleb_true, Rltb_false. tauto.
Qed.

#[export] Instance Binary32_order : FloatOrder Binary32.ops.
Proof.
  constructor. intros a. cbn.
  destruct a as [s|s| |s m e]; try destruct s; cbn; intros H;
    try reflexivity; try discriminate.
Qed.

(* ================================================================== *)
(** ** Point zone *)

(** C10.  The Point zone contains no point and is crossed by no segment,
    whatever the radius, and the position it generates is its transformed
    position whatever [full] and [radius] are; through the Zone interface
    the generation leaves the random generator and the log untouched. *)
Theorem Point_contains_intersects_generatePosition :
  forall (F : FloatOps) (p : Point.Point F) (v v0 v1 : Vector3D F)
         (radius : float) (full : bool) (rt : Runtime),
    Point.contains p v radius = false
    /\ Point.intersects p v0 v1 radius = false
    /\ Point.generatePosition p full radius = Point.tPosition p
    /\ Zone.contains (Zone.OfPoint p) v radius = false
    /\ Zone.generatePosition (Zone.OfPoint p) full radius rt
       = Some (Point.tPosition p, rt).
Proof.
  intros. repeat split.
Qed.

(* ================================================================== *)
(** ** Emitter *)

Section EmitterProps.

Context {F : FloatOps} {O : FloatOrder F}.
Local Open Scope float_scope.

Lemma SPK_ASSERT_Some (cond : bool) msg rt u rt' :
  SPK_ASSERT cond msg rt = Some (u, rt') -> cond = true /\ rt' = rt.
Proof.
  unfold SPK_ASSERT. destruct cond; [|discriminate].
  intros H. inversion H. split; reflexivity.
Qed.

Lemma setTank_Some (e e' : Emitter.Emitter F) tank rt rt' :
  Emitter.setTank e tank rt = Some (e', rt') ->
  ((Emitter.flow e >= ofZ 0) || (tank >=? 0)%Z = true)
  /\ e' = Emitter.withTank e tank /\ rt' = rt.
Proof.
  unfold Emitter.setTank. intros H.
  apply bind_Some in H. destruct H as (u & rt1 & Ha & Hr).
  apply SPK_ASSERT_Some in Ha. destruct Ha as [Hc ->].
  apply ret_Some in Hr. destruct Hr as [<- <-]. auto.
Qed.

Lemma setFlow_Some (e e' : Emitter.Emitter F) flow rt rt' :
  Emitter.setFlow e flow rt = Some (e', rt') ->
  ((flow >= ofZ 0) || (Emitter.tank e >=? 0)%Z = true)
  /\ e' = Emitter.withFlow e flow /\ rt' = rt.
Proof.
  unfold Emitter.setFlow. intros H.
  apply bind_Some in H. destruct H as (u & rt1 & Ha & Hr).
  apply SPK_ASSERT_Some in Ha. destruct Ha as [Hc ->].
  apply ret_Some in Hr. destruct Hr as [<- <-]. auto.
Qed.

Lemma not_both_negative (flow : float) (tank : Z) :
  (flow >= ofZ 0) || (tank >=? 0)%Z = true ->
  ~ ((flow < ofZ 0) = true /\ (tank < 0)%Z).
Proof.
  intros H [Hf Ht]. apply orb_true_iff in H. destruct H as [H|H].
  - apply nonneg_not_neg in H. congruence.
  - apply Z.geb_le in H. lia.
Qed.

Lemma both_negative_fails (flow : float) (tank : Z) :
  (flow < ofZ 0) = true -> (tank < 0)%Z ->
  (flow >= ofZ 0) || (tank >=? 0)%Z = false.
Proof.
  intros Hf Ht.
  destruct ((flow >= ofZ 0) || (tank >=? 0)%Z) eqn:E; [|reflexivity].
  exfalso. exact (not_both_negative _ _ E (conj Hf Ht)).
Qed.

End EmitterProps.

(** C8.  Over any arithmetic in which a value [>= 0] is not [< 0] (the reals,
    IEEE-754 floats): after a call of [setTank] or [setFlow] that passed its
    assertion, [flow] and [tank] are not both negative, the call has written
    exactly the argument and nothing else; and a call that would make both
    negative stops at the assertion (the program aborts) instead of storing
    a repaired value. *)
Theorem setTank_setFlow_never_both_negative :
  forall (F : FloatOps), FloatOrder F ->
  forall (e : Emitter.Emitter F) (rt : Runtime),
    (forall tank e' rt',
        Emitter.setTank e tank rt = Some (e', rt') ->
        ~ (fltb (Emitter.flow e') (ofZ 0) = true /\ (Emitter.tank e' < 0)%Z)
        /\ e' = Emitter.withTank e tank /\ rt' = rt)
    /\ (forall flow e' rt',
        Emitter.setFlow e flow rt = Some (e', rt') ->
        ~ (fltb (Emitter.flow e') (ofZ 0) = true /\ (Emitter.tank e' < 0)%Z)
        /\ e' = Emitter.withFlow e flow /\ rt' = rt)
    /\ (forall tank,
        fltb (Emitter.flow e) (ofZ 0) = true -> (tank < 0)%Z ->
        Emitter.setTank e tank rt = None)
    /\ (forall flow,
        fltb flow (ofZ 0) = true -> (Emitter.tank e < 0)%Z ->
        Emitter.setFlow e flow rt = None).
Proof.
  intros F O e rt. repeat split.
  - apply setTank_Some in H. destruct H as (Hc & -> & _).
    cbn. apply not_both_negative. exact Hc.
  - apply setTank_Some in H. tauto.
  - apply setTank_Some in H. tauto.
  - apply setFlow_Some in H. destruct H as (Hc & -> & _).
    cbn. apply not_both_negative. exact Hc.
  - apply setFlow_Some in H. tauto.
  - apply setFlow_Some in H. tauto.
  - intros tank Hf Ht. unfold Emitter.setTank, bind, SPK_ASSERT.
    rewrite (both_negative_fails _ _ Hf Ht). reflexivity.
  - intros flow Hf Ht. unfold Emitter.setFlow, bind, SPK_ASSERT.
    rewrite (both_negative_fails _ _ Hf Ht). reflexivity.
Qed.

(** [setForce] decides on the stored range: when the stored [forceMin] is
    [<=] the stored [forceMax], the arguments are stored in the order given
    and nothing is logged; otherwise they are stored exchanged, with a
    warning. *)
Lemma setForce_stored_ordered :
  forall (F : FloatOps) (e : Emitter.Emitter F) (min max : float) (rt : Runtime),
    fleb (Emitter.forceMin e) (Emitter.forceMax e) = true ->
    Emitter.setForce e min max rt = Some (Emitter.withForce e min max, rt).
Proof.
  intros F e min max rt H. unfold Emitter.setForce. rewrite H. reflexivity.
Qed.

Lemma setForce_stored_reversed :
  forall (F : FloatOps) (e : Emitter.Emitter F) (min max : float) (rt : Runtime),
    fleb (Emitter.forceMin e) (Emitter.forceMax e) = false ->
    exists rt',
      Emitter.setForce e min max rt = Some (Emitter.withForce e max min, rt')
      /\ randomSeed rt' = randomSeed rt
      /\ exists msg, logged rt' = LogWarning msg :: logged rt.
Proof.
  intros F e min max rt H. unfold Emitter.setForce. rewrite H.
  eexists. split; [reflexivity|]. split; [reflexivity|].
  eexists. reflexivity.
Qed.

(** An emitter built with the force range [(0, 0)] stores that range,
    whatever its storage held before. *)
Lemma newEmitter_zero_force :
  forall (raw : Emitter.Emitter Binary32.ops) zone full tank flow rt e rt',
    Emitter.newEmitter raw zone full tank flow (ofZ 0) (ofZ 0) rt = Some (e, rt') ->
    Emitter.forceMin e = ofZ 0 /\ Emitter.forceMax e = ofZ 0.
Proof.
  intros raw zone full tank flow rt e rt' H. unfold Emitter.newEmitter in H.
  apply bind_Some in H. destruct H as (e1 & rt1 & H1 & H).
  apply bind_Some in H. destruct H as (e2 & rt2 & H2 & H).
  apply setTank_Some in H1. destruct H1 as (_ & -> & _).
  apply setFlow_Some in H2. destruct H2 as (_ & -> & _).
  unfold Emitter.setForce in H.
  match type of H with context [if ?c then _ else _] => destruct c end.
  - apply ret_Some in H. destruct H as [<- _]. split; reflexivity.
  - apply bind_Some in H. destruct H as (u & rt3 & _ & H).
    apply ret_Some in H. destruct H as [<- _]. split; reflexivity.
Qed.

(** C1.  In IEEE-754 single precision: on an emitter whose stored force
    range is [(0, 0)], as after construction with that range,
    [setForce(5, 2)] stores [forceMin = 5] and [forceMax = 2], the arguments
    as given although [5 > 2], and logs nothing: the test of [setForce]
    compares the stored members, not the arguments. *)
Theorem setForce_5_2_stored_unswapped :
  forall (e : Emitter.Emitter Binary32.ops) (rt : Runtime),
    let e0 := Emitter.withForce e (ofZ 0) (ofZ 0) in
    let e' := Emitter.withForce e (ofZ 5) (ofZ 2) in
    Emitter.setForce e0 (ofZ 5) (ofZ 2) rt = Some (e', rt)
    /\ Emitter.forceMin e' = ofZ 5
    /\ Emitter.forceMax e' = ofZ 2
    /\ fltb (Emitter.forceMax e') (Emitter.forceMin e') = true.
Proof.
  intros e rt e0 e'. repeat split.
Qed.

(* ================================================================== *)
(** ** Obstacle *)

Section ObstacleFrame.

Context {F : FloatOps}.
Variable randomUnitVector : M (Vector3D F).
Variable checkZone : Obstacle.Obstacle F -> Obstacle.Particle F -> M bool.

Lemma modifyParticle_untouched (o : Obstacle.Obstacle F) (p : Obstacle.Particle F)
      rt rt1 :
  checkZone o p rt = Some (false, rt1) ->
  Obstacle.modifyParticle randomUnitVector checkZone o p rt = Some (p, rt1).
Proof.
  intros H. unfold Obstacle.modifyParticle, bind. rewrite H. reflexivity.
Qed.

(** A particle on which the test cannot answer true comes out of the body
    of the loop as it went in. *)
Lemma modifyParticle_never_triggered (o : Obstacle.Obstacle F)
      (p p' : Obstacle.Particle F) rt rt' :
  (forall rt0 rt1, checkZone o p rt0 <> Some (true, rt1)) ->
  Obstacle.modifyParticle randomUnitVector checkZone o p rt = Some (p', rt') ->
  p' = p.
Proof.
  intros Hnever H. unfold Obstacle.modifyParticle in H.
  apply bind_Some in H. destruct H as (triggered & rt1 & Hc & H).
  destruct triggered.
  - exfalso. exact (Hnever rt rt1 Hc).
  - apply ret_Some in H. destruct H as [<- _]. reflexivity.
Qed.

Lemma modify_cons (o : Obstacle.Obstacle F) p group deltaTime rt group' rt' :
  Obstacle.modify randomUnitVector checkZone o (p :: group) deltaTime rt
  = Some (group', rt') ->
  exists p' rt1 rest',
    Obstacle.modifyParticle randomUnitVector checkZone o p rt = Some (p', rt1)
    /\ Obstacle.modify randomUnitVector checkZone o group deltaTime rt1
       = Some (rest', rt')
    /\ group' = p' :: rest'.
Proof.
  cbn [Obstacle.modify]. intros H.
  apply bind_Some in H. destruct H as (p' & rt1 & Hp & H).
  apply bind_Some in H. destruct H as (rest' & rt2 & Hr & H).
  apply ret_Some in H. destruct H as [<- <-].
  exists p', rt1, rest'. auto.
Qed.

Lemma modify_frame (o : Obstacle.Obstacle F) deltaTime :
  forall group rt group' rt',
    Obstacle.modify randomUnitVector checkZone o group deltaTime rt
    = Some (group', rt') ->
    List.length group' = List.length group
    /\ forall i p, nth_error group i = Some p ->
                   (forall rt0 rt1, checkZone o p rt0 <> Some (true, rt1)) ->
                   nth_error group' i = Some p.
Proof.
  induction group as [|q group IH]; intros rt group' rt' H.
  - cbn in H. apply ret_Some in H. destruct H as [<- _].
    split; [reflexivity|]. intros i p Hi. destruct i; discriminate.
  - apply modify_cons in H. destruct H as (q' & rt1 & rest' & Hq & Hrest & ->).
    destruct (IH _ _ _ Hrest) as [Hlen Hnth].
    split; [cbn; congruence|].
    intros [|i] p Hi Hc; cbn in *.
    + inversion Hi; subst q.
      rewrite (modifyParticle_never_triggered o p q' rt rt1 Hc Hq). reflexivity.
    + eapply Hnth; eassumption.
Qed.

End ObstacleFrame.

(** C9.  In a run of [Obstacle::modify] over a group, every particle for
    which the zone test of the modifier does not trigger (it answers true
    in no state of the process) is found afterwards at the same place with
    the same position, old position and velocity; the group keeps its size,
    so only particles whose test fires are changed. *)
Theorem modify_leaves_untriggered_particles :
  forall (F : FloatOps) (randomUnitVector : M (Vector3D F))
         (checkZone : Obstacle.Obstacle F -> Obstacle.Particle F -> M bool)
         (o : Obstacle.Obstacle F) (group group' : list (Obstacle.Particle F))
         (deltaTime : float) (rt rt' : Runtime),
    Obstacle.modify randomUnitVector checkZone o group deltaTime rt
    = Some (group', rt') ->
    List.length group' = List.length group
    /\ forall (i : nat) (p : Obstacle.Particle F),
        nth_error group i = Some p ->
        (forall rt0 rt1 : Runtime, checkZone o p rt0 <> Some (true, rt1)) ->
        exists p', nth_error group' i = Some p'
                   /\ Obstacle.position p' = Obstacle.position p
                   /\ Obstacle.oldPosition p' = Obstacle.oldPosition p
                   /\ Obstacle.velocity p' = Obstacle.velocity p.
Proof.
  intros F rnd chk o group group' dt rt rt' H.
  destruct (modify_frame rnd chk o dt group rt group' rt' H) as [Hlen Hnth].
  split; [exact Hlen|].
  intros i p Hi Hc. exists p. rewrite (Hnth i p Hi Hc). repeat split.
Qed.

(* ================================================================== *)
(** ** Exact arithmetic: tools *)


(* ================================================================== *)
(** ** Box: containment *)

Section BoxContains.

Local Open Scope R_scope.


Lemma outsideSlab_false (b : Box.Box Exact.ops) (v : Vector3D Exact.ops)
      (radius : R) (i : nat) :
  Box.outsideSlab b (vsub v (Box.tPosition b)) radius i = false
  <-> slabDistance b v i - radius <= vget (Box.dimension b) i.
Proof.
  unfold Box.outsideSlab, slabDistance. exact_ops. apply Rltb_false.
Qed.

Lemma contains_iff_slabs (b : Box.Box Exact.ops) (v : Vector3D Exact.ops)
      (radius : R) :
  Box.contains b v radius = true
  <-> (slabDistance b v 0 - radius <= vget (Box.dimension b) 0
       /\ slabDistance b v 1 - radius <= vget (Box.dimension b) 1
       /\ slabDistance b v 2 - radius <= vget (Box.dimension b) 2).
Proof.
  rewrite <- !outsideSlab_false. unfold Box.contains.
  destruct (Box.outsideSlab b _ radius 0);
    destruct (Box.outsideSlab b _ radius 1);
    destruct (Box.outsideSlab b _ radius 2);
    intuition congruence.
Qed.

End BoxContains.


(* ================================================================== *)
(** ** Box: sampled points are contained *)

Section BoxSampling.

Local Open Scope R_scope.

Lemma fmax_zero_nonneg (d : R) :
  0 <= d -> @fmax Exact.ops (ofZ 0) (d - 0) = d.
Proof.
  intros Hd. unfold fmax. exact_ops.
  destruct (Exact.Rltb 0 (d - 0)) eqn:E.
  - lra.
  - apply Rltb_false in E. lra.
Qed.

(** The coordinate drawn on one axis lies in the slab of that axis. *)
Lemma draw_within (d r : R) :
  0 <= d -> 0 <= r <= 1 -> Rabs (- d + r * (d - - d)) <= d.
Proof.
  intros Hd Hr. apply Rabs_le. split; nra.
Qed.

(** A point written [position + c0 tAxis[0] + c1 tAxis[1] + c2 tAxis[2]] on
    orthonormal axes has the coordinates [c0], [c1], [c2]. *)
Lemma coordinates_on_orthonormal_axes
      (b : Box.Box Exact.ops) (c0 c1 c2 : R) :
  orthonormal (Box.tAxis b) ->
  let v := vadd (vadd (vadd (Box.tPosition b)
                            (@fscale Exact.ops c0 (aget (Box.tAxis b) 0)))
                      (@fscale Exact.ops c1 (aget (Box.tAxis b) 1)))
                (@fscale Exact.ops c2 (aget (Box.tAxis b) 2)) in
  dotProduct (aget (Box.tAxis b) 0) (vsub v (Box.tPosition b)) = c0
  /\ dotProduct (aget (Box.tAxis b) 1) (vsub v (Box.tPosition b)) = c1
  /\ dotProduct (aget (Box.tAxis b) 2) (vsub v (Box.tPosition b)) = c2.
Proof.
  unfold orthonormal. destruct b as [p tr dim ax [t0 t1 t2]].
  cbn [Box.tAxis Box.tPosition]. vector_ops. exact_ops.
  intros (H00 & H11 & H22 & H01 & H02 & H12). cbn zeta.
  destruct t0 as [a0 a1 a2], t1 as [b0 b1 b2], t2 as [c0' c1' c2'],
           p as [p0 p1 p2].
  cbn [x y z] in *.
  repeat split.
  - transitivity (c0 * (a0 * a0 + a1 * a1 + a2 * a2)
                  + c1 * (a0 * b0 + a1 * b1 + a2 * b2)
                  + c2 * (a0 * c0' + a1 * c1' + a2 * c2')); [ring|].
    rewrite H00, H01, H02. ring.
  - transitivity (c0 * (a0 * b0 + a1 * b1 + a2 * b2)
                  + c1 * (b0 * b0 + b1 * b1 + b2 * b2)
                  + c2 * (b0 * c0' + b1 * c1' + b2 * c2')); [ring|].
    rewrite H11, H01, H12. ring.
  - transitivity (c0 * (a0 * c0' + a1 * c1' + a2 * c2')
                  + c1 * (b0 * c0' + b1 * c1' + b2 * c2')
                  + c2 * (c0' * c0' + c1' * c1' + c2' * c2')); [ring|].
    rewrite H22, H02, H12. ring.
Qed.

(** Coordinates within the dimensions give a contained point. *)
Lemma contains_of_coordinates (b : Box.Box Exact.ops) (c0 c1 c2 : R) :
  orthonormal (Box.tAxis b) ->
  Rabs c0 <= x (Box.dimension b) ->
  Rabs c1 <= y (Box.dimension b) ->
  Rabs c2 <= z (Box.dimension b) ->
  Box.contains b
    (vadd (vadd (vadd (Box.tPosition b) (@fscale Exact.ops c0 (aget (Box.tAxis b) 0)))
                (@fscale Exact.ops c1 (aget (Box.tAxis b) 1)))
          (@fscale Exact.ops c2 (aget (Box.tAxis b) 2))) 0 = true.
Proof.
  intros Ho H0 H1 H2. apply contains_iff_slabs. unfold slabDistance.
  destruct (coordinates_on_orthonormal_axes b c0 c1 c2 Ho) as (E0 & E1 & E2).
  cbn zeta in E0, E1, E2. rewrite E0, E1, E2. cbn [vget]. lra.
Qed.

Lemma seedRatio_unit (seed : Z) :
  (1 <= seed <= 2147483647)%Z ->
  0 <= @seedRatio Exact.ops (seedMinusOne seed) <= 1.
Proof.
  intros Hs. exact_ops. unfold seedMinusOne.
  rewrite Z.mod_small by lia.
  assert (H0 : 0 <= IZR (seed - 1)) by (apply IZR_le; lia).
  assert (H1 : IZR (seed - 1) <= 2147483646) by (apply IZR_le; lia).
  split.
  - apply Rmult_le_pos; [exact H0|]. lra.
  - apply (Rmult_le_reg_r 2147483646); [lra|]. field_simplify. lra.
Qed.

End BoxSampling.

(* ================================================================== *)
(** ** The random generator *)

Section Generator.

Local Open Scope Z_scope.

Lemma land_low_shifted (a b : Z) :
  0 <= a < 2 ^ 16 -> Z.land a (Z.shiftl b 16) = 0.
Proof.
  intros Ha. apply Z.bits_inj'. intros n Hn.
  rewrite Z.land_spec, Z.bits_0.
  destruct (Z.lt_ge_cases n 16) as [Hlt|Hge].
  - rewrite Z.shiftl_spec_low by exact Hlt. apply andb_false_r.
  - replace a with (a mod 2 ^ 16) by (apply Z.mod_small; exact Ha).
    rewrite Z.mod_pow2_bits_high by lia. reflexivity.
Qed.

Lemma lor_low_shifted (a b : Z) :
  0 <= a < 2 ^ 16 -> Z.lor a (Z.shiftl b 16) = a + b * 2 ^ 16.
Proof.
  intros Ha.
  rewrite <- Z.lxor_lor by (apply land_low_shifted; exact Ha).
  rewrite <- Z.add_nocarry_lxor by (apply land_low_shifted; exact Ha).
  rewrite Z.shiftl_mul_pow2 by lia. reflexivity.
Qed.

(** The test of bit 31 on a value below [2^32]. *)
Lemma land_bit31 (t : Z) :
  0 <= t < 2 ^ 32 -> (Z.land t 0x80000000 =? 0) = (t <? 2 ^ 31).
Proof.
  intros Ht. change 0x80000000 with (2 ^ 31).
  assert (Hb : Z.land t (2 ^ 31) = if Z.testbit t 31 then 2 ^ 31 else 0).
  { apply Z.bits_inj'. intros n Hn. rewrite Z.land_spec.
    rewrite Z.pow2_bits_eqb by lia.
    destruct (Z.eqb_spec 31 n) as [<-|Hne].
    - destruct (Z.testbit t 31); [reflexivity|].
      rewrite Z.bits_0. reflexivity.
    - rewrite andb_false_r.
      destruct (Z.testbit t 31); [|rewrite Z.bits_0; reflexivity].
      rewrite Z.pow2_bits_eqb by lia.
      symmetry. apply Z.eqb_neq. exact Hne. }
  rewrite Hb. change (2 ^ 32) with 4294967296 in Ht.
  change (2 ^ 31) with 2147483648 in *.
  destruct (Z.testbit t 31) eqn:E.
  - apply Z.testbit_true in E; [|lia].
    change (2 ^ 31) with 2147483648 in E.
    destruct (Z.ltb_spec t 2147483648) as [Hlt|Hge]; [|reflexivity].
    rewrite Z.div_small in E by lia. discriminate.
  - apply Z.testbit_false in E; [|lia].
    change (2 ^ 31) with 2147483648 in E.
    destruct (Z.ltb_spec t 2147483648) as [Hlt|Hge]; [reflexivity|].
    exfalso. revert E. Z.div_mod_to_equations. lia.
Qed.

Lemma multiple_of_16807_not_zero (seed : Z) :
  1 <= seed <= 2147483646 -> (16807 * seed) mod 2147483647 <> 0.
Proof.
  intros Hs H0. apply Z.mod_divide in H0; [|lia].
  apply Z.gauss in H0; [|reflexivity].
  apply Z.divide_pos_le in H0; lia.
Qed.

Lemma foldedProduct_bounds (seed : Z) :
  0 <= seed < 4294967296 -> 0 <= foldedProduct seed < 4294967296.
Proof.
  intros Hs. unfold foldedProduct. cbv zeta. Z.div_mod_to_equations. lia.
Qed.

Lemma nextSeed_arithmetic (seed : Z) :
  0 <= seed < 4294967296 ->
  nextSeed seed
  = (if foldedProduct seed <? 2147483648
     then foldedProduct seed
     else (foldedProduct seed + 1) mod 2147483648) mod 4294967296.
Proof.
  intros Hs. pose proof (foldedProduct_bounds seed Hs) as Ht.
  unfold nextSeed. cbv zeta.
  change 0xFFFF with (Z.ones 16). change 0x7FFF with (Z.ones 15).
  change 0x7FFFFFFF with (Z.ones 31).
  rewrite !Z.land_ones by lia. rewrite !Z.shiftr_div_pow2 by lia.
  rewrite lor_low_shifted by (apply Z.mod_pos_bound; lia).
  change (2 ^ 16) with 65536. change (2 ^ 15) with 32768.
  change (2 ^ 31) with 2147483648. change (2 ^ 32) with 4294967296.
  fold (foldedProduct seed).
  rewrite land_bit31 by exact Ht.
  change (2 ^ 31) with 2147483648.
  destruct (foldedProduct seed <? 2147483648); reflexivity.
Qed.

(** The generator is the "minimal standard" one: on a seed in
    [[1, 2^31 - 2]] the next seed is [16807 * seed] modulo [2^31 - 1], and it
    lies in the same range. *)
Lemma nextSeed_minimal_standard (seed : Z) :
  1 <= seed <= 2147483646 ->
  nextSeed seed = (16807 * seed) mod 2147483647
  /\ 1 <= nextSeed seed <= 2147483646.
Proof.
  intros Hs. pose proof (multiple_of_16807_not_zero seed Hs) as Hnz.
  rewrite nextSeed_arithmetic by lia.
  assert (Hprod : exists low high,
             16807 * seed = low + 2147483648 * high
             /\ foldedProduct seed = low + high
             /\ 0 <= low < 2147483648 /\ 0 <= high < 16807).
  { unfold foldedProduct. cbv zeta.
    set (tmp0 := 16807 * (seed mod 65536)).
    set (tmp2 := tmp0 / 65536 + 16807 * (seed / 65536)).
    exists (tmp0 mod 65536 + tmp2 mod 32768 * 65536), (tmp2 / 32768).
    subst tmp2 tmp0. Z.div_mod_to_equations. lia. }
  destruct Hprod as (low & high & Hprod & -> & Hlow & Hhigh).
  destruct (Z.ltb_spec (low + high) 2147483648) as [Hlt|Hge].
  - rewrite (Z.mod_small (low + high)) by lia.
    assert (E : low + high = (16807 * seed) mod 2147483647).
    { revert Hnz. Z.div_mod_to_equations. lia. }
    split; [exact E|]. rewrite E in *.
    revert Hnz. Z.div_mod_to_equations. lia.
  - assert (E : (low + high + 1) mod 2147483648
                = (16807 * seed) mod 2147483647).
    { revert Hnz. Z.div_mod_to_equations. lia. }
    rewrite E. rewrite Z.mod_small by (Z.div_mod_to_equations; lia).
    split; [reflexivity|].
    revert Hnz. Z.div_mod_to_equations. lia.
Qed.

End Generator.

(** C6 (as amended).  In exact arithmetic, for a box whose dimensions are
    not negative and whose transformed axes are orthonormal, and for every
    state of the random generator (any seed of its range, any log):
    [generatePosition(full = true, radius = 0)] yields a point, and
    [contains] is true of that point with radius 0.  (In single precision
    the sum of the position and the offsets is rounded, and the point can
    fall outside: see the runs in single precision.) *)
Theorem generatePosition_full_is_contained :
  forall (b : Box.Box Exact.ops) (rt : Runtime),
    validBox b ->
    validSeed (randomSeed rt) ->
    exists (v : Vector3D Exact.ops) (rt' : Runtime),
      Box.generatePosition b true (ofZ 0) rt = Some (v, rt')
      /\ validSeed (randomSeed rt')
      /\ Box.contains b v (ofZ 0) = true.
Proof.
  intros b rt [(Hx & Hy & Hz) Ho] Hseed.
  destruct (nextSeed_minimal_standard (randomSeed rt) Hseed) as [_ Hnext].
  assert (Hr : (0 <= @seedRatio Exact.ops (seedMinusOne (nextSeed (randomSeed rt))) <= 1)%R).
  { apply seedRatio_unit. lia. }
  set (r := @seedRatio Exact.ops (seedMinusOne (nextSeed (randomSeed rt)))) in *.
  unfold Box.generatePosition, Box.generateRandomDim, generateRandomVector,
         bind, ret.
  eexists. eexists. split; [reflexivity|].
  split; [exact Hnext|].
  fold r. cbn [ofZ Exact.ops].
  apply contains_of_coordinates; [exact Ho| | |];
    unfold setMax, vsubf, vzero, vopp, vsub, vadd, fscale;
    cbn [x y z vget];
    rewrite ?fmax_zero_nonneg by assumption;
    exact_ops; apply draw_within; assumption.
Qed.

(* ================================================================== *)
(** ** Normals *)

(** [Box::computeNormal] returns one of the three transformed axes or its
    opposite, in any arithmetic. *)
Lemma Box_computeNormal_is_axis :
  forall (F : FloatOps) (b : Box.Box F) (v : Vector3D F),
    exists i : nat,
      (i < 3)%nat
      /\ (Box.computeNormal b v = aget (Box.tAxis b) i
          \/ Box.computeNormal b v = vopp (aget (Box.tAxis b) i)).
Proof.
  intros F b v. unfold Box.computeNormal. cbv zeta.
  generalize (Box.computeRatio b (vsub v (Box.tPosition b))
                (Box.computeRatio b (vsub v (Box.tPosition b))
                   (Box.computeRatio b (vsub v (Box.tPosition b))
                      (mkVector3D MAX_FLOAT MAX_FLOAT MAX_FLOAT) 0) 1) 2).
  intros ratio.
  destruct (fltb (x (vabs ratio)) (y (vabs ratio)));
    match goal with
    | |- context [if fltb (vget (vabs ratio) ?k) (z (vabs ratio)) then _ else _] =>
        destruct (fltb (vget (vabs ratio) k) (z (vabs ratio)))
    end;
    match goal with
    | |- context [if ?c then vopp _ else _] => destruct c
    end;
    eexists; (split; [|(left; reflexivity) || (right; reflexivity)]); lia.
Qed.

Section ExactNormals.

Local Open Scope R_scope.

Lemma getSqrNorm_nonneg (v : Vector3D Exact.ops) : 0 <= getSqrNorm v.
Proof. destruct v as [a b c]. vector_ops. exact_ops. nra. Qed.

Lemma getNorm_vopp (v : Vector3D Exact.ops) : getNorm (vopp v) = getNorm v.
Proof.
  destruct v as [a b c]. vector_ops. exact_ops. f_equal. ring.
Qed.

(** A vector whose norm is not zero is normalized to a unit vector. *)
Lemma normalize_unit (v : Vector3D Exact.ops) :
  getNorm v <> 0 ->
  normalize v = (true, snd (normalize v)) /\ getNorm (snd (normalize v)) = 1.
Proof.
  intros Hn. unfold normalize. cbv zeta. exact_ops.
  rewrite (proj2 (Reqb_false _ _) Hn). cbn [negb snd]. split; [reflexivity|].
  pose proof (getSqrNorm_nonneg v) as Hs.
  assert (Hsq : getNorm v * getNorm v = getSqrNorm v).
  { unfold getNorm. exact_ops. apply sqrt_sqrt. exact Hs. }
  set (n := getNorm v) in *.
  destruct v as [a b c]. unfold getNorm at 1. unfold getSqrNorm in *.
  cbn [x y z] in *. exact_ops.
  replace (a / n * (a / n) + b / n * (b / n) + c / n * (c / n))
    with ((a * a + b * b + c * c) / (n * n)) by (field; exact Hn).
  rewrite <- Hsq. unfold Rdiv. rewrite Rinv_r; [apply sqrt_1|].
  apply Rmult_integral_contrapositive_currified; exact Hn.
Qed.

(** A vector whose norm is zero is left as it is. *)
Lemma normalize_null (v : Vector3D Exact.ops) :
  getNorm v = 0 -> normalize v = (false, v).
Proof.
  intros Hn. unfold normalize. cbv zeta. exact_ops.
  rewrite (proj2 (Reqb_true _ _) Hn). reflexivity.
Qed.

Lemma normalizeOrRandomize_unit
      (randomUnitVector : M (Vector3D Exact.ops)) (v : Vector3D Exact.ops)
      (rt : Runtime) :
  yieldsUnitVector randomUnitVector ->
  exists n rt',
    normalizeOrRandomize randomUnitVector v rt = Some (n, rt')
    /\ getNorm n = 1.
Proof.
  intros Hrand. unfold normalizeOrRandomize.
  destruct (Req_dec_T (getNorm v) 0) as [Hz|Hnz].
  - rewrite (normalize_null v Hz). apply Hrand.
  - destruct (normalize_unit v Hnz) as [E Hu]. rewrite E.
    exists (snd (normalize v)), rt. split; [reflexivity|exact Hu].
Qed.

Lemma Box_computeNormal_unit (b : Box.Box Exact.ops) (v : Vector3D Exact.ops) :
  unitAxes (Box.tAxis b) -> getNorm (Box.computeNormal b v) = 1.
Proof.
  intros (H0 & H1 & H2).
  destruct (Box_computeNormal_is_axis Exact.ops b v) as (i & Hi & [E|E]);
    rewrite E; rewrite ?getNorm_vopp;
    destruct i as [|[|[|i]]]; cbn [aget]; assumption || lia.
Qed.

End ExactNormals.

(** In exact arithmetic, the normal computed by a zone has length 1 for
    every point [v] as long as, for a Box, the three transformed axes have
    length 1: the normal of a Box is one of them or its opposite, returned
    as stored.  For a Point the fallback of [normalizeOrRandomize] is taken
    to yield a unit vector, as the design document says. *)
Lemma computeNormal_unit_on_unit_axes :
  forall (randomUnitVector : M (Vector3D Exact.ops))
         (zone : Zone.Zone Exact.ops) (v : Vector3D Exact.ops) (rt : Runtime),
    yieldsUnitVector randomUnitVector ->
    zoneAxesUnit zone ->
    exists (n : Vector3D Exact.ops) (rt' : Runtime),
      Zone.computeNormal randomUnitVector zone v rt = Some (n, rt')
      /\ getNorm n = 1%R.
Proof.
  intros rnd zone v rt Hrand Hzone. destruct zone as [p|b].
  - cbn [Zone.computeNormal]. unfold Point.computeNormal.
    apply normalizeOrRandomize_unit. exact Hrand.
  - cbn [Zone.computeNormal zoneAxesUnit] in *.
    exists (Box.computeNormal b v), rt. split; [reflexivity|].
    apply Box_computeNormal_unit. exact Hzone.
Qed.

(* ================================================================== *)
(** ** Obstacle: the bounce *)

Section ExactBounce.

Local Open Scope R_scope.

Lemma unit_sqrNorm (n : Vector3D Exact.ops) :
  getNorm n = 1 -> getSqrNorm n = 1.
Proof.
  intros H. pose proof (getSqrNorm_nonneg n) as Hs.
  unfold getNorm in H. exact_ops.
  rewrite <- (sqrt_sqrt (getSqrNorm n) Hs). rewrite H. ring.
Qed.

(** With both coefficients 1 the velocity that already points along the
    normal is given back unchanged. *)
Lemma bounce_elastic_along_normal (o : Obstacle.Obstacle Exact.ops)
      (velocity normal : Vector3D Exact.ops) :
  Obstacle.bouncingRatio o = 1 -> Obstacle.friction o = 1 ->
  0 < dotProduct velocity normal ->
  Obstacle.bounce o velocity normal = velocity.
Proof.
  intros Hb Hf Hd. unfold Obstacle.bounce. cbv zeta. exact_ops.
  rewrite (proj2 (Rltb_true _ _) Hd). rewrite Hb, Hf.
  destruct velocity as [a b c], normal as [n0 n1 n2].
  vector_ops. exact_ops. f_equal; field.
Qed.

(** With both coefficients 1 the velocity that does not point along the
    normal has its component on the normal inverted, increased by twice the
    bias. *)
Lemma bounce_elastic_against_normal (o : Obstacle.Obstacle Exact.ops)
      (velocity normal : Vector3D Exact.ops) :
  Obstacle.bouncingRatio o = 1 -> Obstacle.friction o = 1 ->
  dotProduct velocity normal <= 0 ->
  Obstacle.bounce o velocity normal
  = vsub velocity
         (vscale normal (2 * (dotProduct velocity normal - 1 / 1000))).
Proof.
  intros Hb Hf Hd. unfold Obstacle.bounce. cbv zeta. exact_ops.
  rewrite (proj2 (Rltb_false _ _) Hd). rewrite Hb, Hf.
  destruct velocity as [a b c], normal as [n0 n1 n2].
  vector_ops. exact_ops. f_equal; field.
Qed.

(** The component on a unit normal and the rest of a vector moved along
    that normal. *)
Lemma moved_along_normal (v n : Vector3D Exact.ops) (k : R) :
  getSqrNorm n = 1 ->
  let v' := vsub v (vscale n k) in
  dotProduct v' n = dotProduct v n - k
  /\ vsub v' (vscale n (dotProduct v' n)) = vsub v (vscale n (dotProduct v n)).
Proof.
  intros Hn v'. subst v'. destruct v as [a b c], n as [n0 n1 n2].
  vector_ops. exact_ops.
  assert (E : (a - n0 * k) * n0 + (b - n1 * k) * n1 + (c - n2 * k) * n2
              = a * n0 + b * n1 + c * n2 - k).
  { transitivity (a * n0 + b * n1 + c * n2
                  - k * (n0 * n0 + n1 * n1 + n2 * n2)); [ring|].
    rewrite Hn. ring. }
  split; [exact E|]. rewrite E. f_equal; ring.
Qed.

End ExactBounce.

(** C2 (as amended).  In exact arithmetic, for an obstacle with
    [bouncingRatio = 1] and [friction = 1], a particle for which the zone
    test triggers and the unit normal [n] the zone returns at the old
    position: the position becomes the old position and the part of the
    velocity tangent to [n] is unchanged.  With [d = dot(velocity, n)]:
    when [d > 0] the velocity is unchanged (reverting the scaled normal
    cancels the reflection), so its component on [n] stays [d]; when
    [d <= 0] the component on [n] becomes [- d + 0.002], the reflection of
    [d] moved by twice the bias [0.001]. *)
Theorem modify_elastic_bounce :
  forall (randomUnitVector : M (Vector3D Exact.ops))
         (checkZone : Obstacle.Obstacle Exact.ops ->
                      Obstacle.Particle Exact.ops -> M bool)
         (o : Obstacle.Obstacle Exact.ops) (p : Obstacle.Particle Exact.ops)
         (rt rt0 rt1 : Runtime) (n : Vector3D Exact.ops),
    Obstacle.bouncingRatio o = 1%R ->
    Obstacle.friction o = 1%R ->
    checkZone o p rt = Some (true, rt0) ->
    Zone.computeNormal randomUnitVector (Obstacle.zone o)
                       (Obstacle.oldPosition p) rt0 = Some (n, rt1) ->
    getNorm n = 1%R ->
    exists p' : Obstacle.Particle Exact.ops,
      Obstacle.modifyParticle randomUnitVector checkZone o p rt = Some (p', rt1)
      /\ Obstacle.position p' = Obstacle.oldPosition p
      /\ Obstacle.oldPosition p' = Obstacle.oldPosition p
      /\ vsub (Obstacle.velocity p')
              (vscale n (dotProduct (Obstacle.velocity p') n))
         = vsub (Obstacle.velocity p)
                (vscale n (dotProduct (Obstacle.velocity p) n))
      /\ ((0 < dotProduct (Obstacle.velocity p) n)%R ->
          Obstacle.velocity p' = Obstacle.velocity p)
      /\ ((dotProduct (Obstacle.velocity p) n <= 0)%R ->
          dotProduct (Obstacle.velocity p') n
          = (- dotProduct (Obstacle.velocity p) n + 2 / 1000)%R).
Proof.
  intros rnd chk o p rt rt0 rt1 n Hb Hf Hc Hn Hunit.
  apply unit_sqrNorm in Hunit.
  exists (Obstacle.mkParticle (Obstacle.oldPosition p) (Obstacle.oldPosition p)
            (Obstacle.bounce o (Obstacle.velocity p) n)).
  split.
  { unfold Obstacle.modifyParticle, bind. rewrite Hc. rewrite Hn.
    reflexivity. }
  cbn [Obstacle.position Obstacle.oldPosition Obstacle.velocity].
  split; [reflexivity|]. split; [reflexivity|].
  destruct (Rlt_le_dec 0 (dotProduct (Obstacle.velocity p) n)) as [Hd|Hd].
  - rewrite (bounce_elastic_along_normal o _ _ Hb Hf Hd).
    split; [reflexivity|]. split; [reflexivity|]. intros Hle.
    exfalso. apply (Rlt_irrefl 0). eapply Rlt_le_trans; eassumption.
  - rewrite (bounce_elastic_against_normal o _ _ Hb Hf Hd).
    destruct (moved_along_normal (Obstacle.velocity p) n
                (2 * (dotProduct (Obstacle.velocity p) n - 1 / 1000))%R Hunit)
      as [Edot Etan].
    cbv zeta in Edot, Etan.
    split; [exact Etan|]. split.
    + intros Hlt. exfalso. apply (Rlt_irrefl 0). eapply Rlt_le_trans; eassumption.
    + intros _. rewrite Edot. exact_ops. field.
Qed.

(* ================================================================== *)
(** ** System: constant step *)

Section ConstantStep.

Local Open Scope R_scope.

Lemma subSteps_stop (fuel : nat) (s : System.System Exact.ops) (dt step : R) :
  dt < step ->
  System.subSteps (S fuel) s dt step
  = Some (@System.mkSystem Exact.ops dt (System.advanced s)).
Proof.
  intros H. cbn [System.subSteps]. exact_ops.
  rewrite (proj2 (Rleb_false _ _) H). reflexivity.
Qed.

Lemma subSteps_step (fuel : nat) (s : System.System Exact.ops) (dt step : R) :
  step <= dt ->
  System.subSteps (S fuel) s dt step
  = System.subSteps fuel (System.innerUpdate s step) (dt - step) step.
Proof.
  intros H. cbn [System.subSteps]. exact_ops.
  rewrite (proj2 (Rleb_true _ _) H). reflexivity.
Qed.

(** In CONSTANT mode, when the clamp does not cut the delta, a call runs the
    loop on the delta added to the accumulator. *)
Lemma updateParticles_constant (fuel : nat) (pol : System.Policy Exact.ops)
      (s : System.System Exact.ops) (dt : R) :
  System.stepMode pol = System.STEP_MODE_CONSTANT ->
  System.clampStepEnabled pol = false \/ dt <= System.clampStep pol ->
  System.updateParticles fuel pol s dt
  = System.subSteps fuel s (dt + System.deltaStep s) (System.constantStep pol).
Proof.
  intros Hmode Hclamp. unfold System.updateParticles. cbv zeta. exact_ops.
  replace (System.clampStepEnabled pol
           && Exact.Rltb (System.clampStep pol) dt) with false.
  - rewrite Hmode. reflexivity.
  - destruct Hclamp as [-> | Hle]; [reflexivity|].
    rewrite (proj2 (Rltb_false _ _) Hle). rewrite andb_false_r. reflexivity.
Qed.

End ConstantStep.

(** C5.  In exact arithmetic, in CONSTANT mode with a constant step [c > 0]
    and an empty accumulator, the clamp being off or not below the delta:
    [updateParticles(2.5 c)] advances the simulation by exactly two
    sub-steps of size [c] and leaves [0.5 c] in the accumulator [deltaStep];
    the next call counts it in, so that [updateParticles(0.5 c)] then runs
    exactly one more sub-step and empties the accumulator.  Three iterations
    of the loop suffice. *)
Theorem constant_step_two_and_a_half :
  forall (pol : System.Policy Exact.ops) (s : System.System Exact.ops)
         (c : R) (fuel : nat),
    (0 < c)%R ->
    System.stepMode pol = System.STEP_MODE_CONSTANT ->
    System.constantStep pol = c ->
    System.deltaStep s = 0%R ->
    System.clampStepEnabled pol = false \/ (2.5 * c <= System.clampStep pol)%R ->
    (3 <= fuel)%nat ->
    exists s1 s2 : System.System Exact.ops,
      System.updateParticles fuel pol s (2.5 * c)%R = Some s1
      /\ System.advanced s1 = System.advanced s ++ [c; c]
      /\ System.deltaStep s1 = (0.5 * c)%R
      /\ System.updateParticles fuel pol s1 (0.5 * c)%R = Some s2
      /\ System.advanced s2 = System.advanced s ++ [c; c; c]
      /\ System.deltaStep s2 = 0%R.
Proof.
  intros pol s c fuel Hc Hmode Hstep Hacc Hclamp Hfuel.
  destruct fuel as [|[|[|fuel]]]; try lia.
  exists (@System.mkSystem Exact.ops (0.5 * c)%R (System.advanced s ++ [c; c])).
  exists (@System.mkSystem Exact.ops 0%R (System.advanced s ++ [c; c; c])).
  split.
  { rewrite updateParticles_constant by assumption.
    rewrite Hstep, Hacc.
    rewrite subSteps_step by lra. rewrite subSteps_step by lra.
    rewrite subSteps_stop by lra.
    cbn [System.innerUpdate System.advanced System.deltaStep].
    rewrite <- app_assoc. cbn [app]. f_equal. f_equal. lra. }
  split; [reflexivity|]. split; [reflexivity|]. split.
  { rewrite updateParticles_constant;
      [|assumption|destruct Hclamp as [H|H]; [left; exact H|right; lra]].
    rewrite Hstep. cbn [System.deltaStep].
    rewrite subSteps_step by lra. rewrite subSteps_stop by lra.
    cbn [System.innerUpdate System.advanced System.deltaStep].
    rewrite <- app_assoc. cbn [app]. f_equal. f_equal. lra. }
  split; reflexivity.
Qed.

(* ================================================================== *)
(** ** Runs in single precision *)

(** The literal [0.001f] is the float nearest to 1/1000. *)
Example bias_is_one_thousandth :
  @bias Binary32.ops = SFdiv Binary32.prec Binary32.emax
                             (Binary32.of_Z 1) (Binary32.of_Z 1000).
Proof. reflexivity. Qed.

(** C4.  [setAxis] on the parallel vectors [front = (1,0,0)] and
    [up = (2,0,0)], here at the construction of a box: no warning is logged
    and no canonical axes are stored.  The guard only catches [front == up]
    and null vectors, the cross product of the two normalized vectors is the
    zero vector, and the box is left with [axis[0]] and [axis[1]] (and
    [tAxis[0]], [tAxis[1]]) null: not unit vectors. *)
Theorem setAxis_parallel_vectors_degenerate :
  Box.newBox (Single.vec 0 0 0) (Single.vec 1 1 1)
             (Single.vec 1 0 0) (Single.vec 2 0 0) Single.start
  = Some (Single.degenerate, Single.start)
  /\ logged Single.start = []
  /\ Box.axis Single.degenerate
     = mkArray3 (Single.vec 0 0 0) (Single.vec 0 0 0) (Single.vec 1 0 0)
  /\ getNorm (aget (Box.axis Single.degenerate) 0) = Binary32.of_Z 0
  /\ getNorm (aget (Box.axis Single.degenerate) 1) = Binary32.of_Z 0.
Proof.
  repeat split; reflexivity.
Qed.

(** The same guard does catch equal vectors: the canonical axes are stored
    (the first one pointing to negative x) and a warning is logged. *)
Example setAxis_equal_vectors_canonical :
  Box.newBox (Single.vec 0 0 0) (Single.vec 1 1 1)
             (Single.vec 0 0 1) (Single.vec 0 0 1) Single.start
  = Some (Single.canonical, mkRuntime 1 [LogWarning EmptyString]).
Proof. reflexivity. Qed.

(** C3.  [Box::computeNormal] returns a transformed axis as [Box::setAxis]
    left it, and [setAxis] leaves transformed axes that are not unit
    vectors.  On the box built with [front = (1,0,0)] and [up = (2,0,0)]
    (parallel vectors, which the guard of [setAxis] misses) the normal
    computed at the centre is the null vector, of length 0.  On the box
    built with [front = (0,0,1)] and [up = (0,3,4)] (not parallel, not
    orthogonal) [tAxis[0]] is taken from the cross product before it is
    normalized, and the normal computed at [(1,0,0)] is
    [tAxis[0] = (-0.6, 0, 0)], of length [0.6]. *)
Theorem computeNormal_not_unit :
  (Box.newBox (Single.vec 0 0 0) (Single.vec 1 1 1)
              (Single.vec 1 0 0) (Single.vec 2 0 0) Single.start
   = Some (Single.degenerate, Single.start)
   /\ Zone.computeNormal Single.fallback (Zone.OfBox Single.degenerate)
                         (Single.vec 0 0 0) Single.start
      = Some (Single.vec 0 0 0, Single.start)
   /\ getNorm (Single.vec 0 0 0) = Binary32.of_Z 0
   /\ feqb (getNorm (Single.vec 0 0 0)) (Binary32.of_Z 1) = false)
  /\ (Box.newBox (Single.vec 0 0 0) (Single.vec 1 1 1)
                 (Single.vec 0 0 1) (Single.vec 0 3 4) Single.start
      = Some (Single.slanted, Single.start)
      /\ Zone.computeNormal Single.fallback (Zone.OfBox Single.slanted)
                            (Single.vec 1 0 0) Single.start
         = Some (aget (Box.tAxis Single.slanted) 0, Single.start)
      /\ getNorm (aget (Box.tAxis Single.slanted) 0) = Single.sixTenths
      /\ feqb (getNorm (aget (Box.tAxis Single.slanted) 0)) (Binary32.of_Z 1)
         = false).
Proof.
  repeat split; reflexivity.
Qed.

(** C6, counterexample.  In single precision, the box of half-sizes [0.75]
    built at [(12582912, 0, 0)] on the canonical axes, which are unit
    vectors orthogonal two by two, and the generator at seed 110000:
    [generatePosition(full = true, 0)] draws the offset [-0.54] along
    [tAxis[0] = (-1,0,0)].  Around [12582912 = 1.5 x 2^23] the floats are
    the integers, the sum is rounded to [12582911], one unit away from the
    centre, and [contains] of that point with radius 0 is false, [1] being
    above [0.75]. *)
Lemma generatePosition_full_not_contained :
  Box.newBox (Single.vec 12582912 0 0)
             (@mkVector3D Binary32.ops Single.threeQuarters
                          Single.threeQuarters Single.threeQuarters)
             (Single.vec 0 0 1) (Single.vec 0 1 0) Single.start
  = Some (Single.far, Single.start)
  /\ @fltb Binary32.ops (Binary32.of_Z 0) Single.threeQuarters = true
  /\ (dotProduct (at0 (Box.tAxis Single.far)) (at0 (Box.tAxis Single.far))
      = Binary32.of_Z 1
      /\ dotProduct (at1 (Box.tAxis Single.far)) (at1 (Box.tAxis Single.far))
         = Binary32.of_Z 1
      /\ dotProduct (at2 (Box.tAxis Single.far)) (at2 (Box.tAxis Single.far))
         = Binary32.of_Z 1
      /\ feqb (dotProduct (at0 (Box.tAxis Single.far))
                          (at1 (Box.tAxis Single.far))) (Binary32.of_Z 0) = true
      /\ feqb (dotProduct (at0 (Box.tAxis Single.far))
                          (at2 (Box.tAxis Single.far))) (Binary32.of_Z 0) = true
      /\ feqb (dotProduct (at1 (Box.tAxis Single.far))
                          (at2 (Box.tAxis Single.far))) (Binary32.of_Z 0) = true)
  /\ Box.generatePosition Single.far true (Binary32.of_Z 0)
                          (mkRuntime 110000 [])
     = Some (Single.sampled, mkRuntime 1848770000 [])
  /\ Box.contains Single.far Single.sampled (Binary32.of_Z 0) = false
  /\ fabs (dotProduct (at0 (Box.tAxis Single.far))
                      (vsub Single.sampled (Box.tPosition Single.far)))
     = Binary32.of_Z 1.
Proof.
  repeat split; reflexivity.
Qed.

(** C2, counterexample.  The obstacle with [bouncingRatio = 1] and
    [friction = 1] on a Point zone at the origin, the zone test triggering,
    two particles at the old position [(0,0,1)] where the normal is
    [(0,0,1)].  The particle with velocity [(3,0,2)] has [d = 2 > 0] on the
    normal and keeps the component [2], not [-2]; the particle with velocity
    [(3,0,-2)] has [d = -2] and leaves with more than [2] on the normal, not
    [2].  In exact arithmetic the first stays at [2] as well. *)
Lemma elastic_bounce_not_exact_reflection :
  (Zone.computeNormal Single.fallback (Obstacle.zone Single.elastic)
                      (Single.vec 0 0 1) Single.start
   = Some (Single.vec 0 0 1, Single.start)
   /\ Obstacle.modify Single.fallback Single.always Single.elastic
                      [Single.leaving; Single.arriving] (Binary32.of_Z 1)
                      Single.start
      = Some ([Single.left; Single.arrived], Single.start)
   /\ dotProduct (Obstacle.velocity Single.leaving) (Single.vec 0 0 1)
      = Binary32.of_Z 2
   /\ dotProduct (Obstacle.velocity Single.left) (Single.vec 0 0 1)
      = Binary32.of_Z 2
   /\ dotProduct (Obstacle.velocity Single.arriving) (Single.vec 0 0 1)
      = Binary32.of_Z (-2)
   /\ @fltb Binary32.ops (Binary32.of_Z 2)
           (dotProduct (Obstacle.velocity Single.arrived) (Single.vec 0 0 1))
      = true)
  /\ (dotProduct (Real.vec 3 0 2) (Real.vec 0 0 1) = 2%R
      /\ dotProduct (Obstacle.bounce Real.elastic (Real.vec 3 0 2)
                                     (Real.vec 0 0 1))
                    (Real.vec 0 0 1) = 2%R
      /\ 2%R <> (- 2)%R).
Proof.
  split; [repeat split; reflexivity|].
  assert (Hd : dotProduct (Real.vec 3 0 2) (Real.vec 0 0 1) = 2%R).
  { unfold Real.vec. vector_ops. exact_ops. ring. }
  split; [exact Hd|]. split; [|lra].
  rewrite bounce_elastic_along_normal; [exact Hd|reflexivity|reflexivity|].
  rewrite Hd. lra.
Qed.

(* ================================================================== *)
(** ** The properties at concrete inputs *)

Lemma Real_vec_norm_x : getNorm (Real.vec 1 0 0) = 1%R.
Proof.
  unfold Real.vec. vector_ops. exact_ops.
  replace (1 * 1 + 0 * 0 + 0 * 0)%R with 1%R by ring. apply sqrt_1.
Qed.

Lemma Real_vec_norm_y : getNorm (Real.vec 0 1 0) = 1%R.
Proof.
  unfold Real.vec. vector_ops. exact_ops.
  replace (0 * 0 + 1 * 1 + 0 * 0)%R with 1%R by ring. apply sqrt_1.
Qed.

Lemma Real_vec_norm_z : getNorm (Real.vec 0 0 1) = 1%R.
Proof.
  unfold Real.vec. vector_ops. exact_ops.
  replace (0 * 0 + 0 * 0 + 1 * 1)%R with 1%R by ring. apply sqrt_1.
Qed.

Lemma Real_box_unitAxes : unitAxes (Box.tAxis Real.box).
Proof.
  unfold unitAxes, Real.box. cbn [Box.tAxis at0 at1 at2].
  split; [apply Real_vec_norm_x|]. split; [apply Real_vec_norm_y|].
  apply Real_vec_norm_z.
Qed.

Lemma Real_box_valid : validBox Real.box.
Proof.
  unfold validBox, orthonormal, Real.box, Real.vec.
  cbn [Box.tAxis Box.dimension at0 at1 at2]. vector_ops. exact_ops.
  split; [lra|]. repeat split; ring.
Qed.

Lemma Real_fallback_unit : yieldsUnitVector Real.fallback.
Proof.
  intros rt. exists (Real.vec 1 0 0), rt. split; [reflexivity|].
  apply Real_vec_norm_x.
Qed.

Lemma modify_elastic_bounce_witness :
  exists p' : Obstacle.Particle Exact.ops,
    Obstacle.modifyParticle Real.fallback Real.always Real.elastic
                            Real.falling Real.start
    = Some (p', Real.start)
    /\ Obstacle.position p' = Real.vec 0 0 4
    /\ Obstacle.oldPosition p' = Real.vec 0 0 4.
Proof.
  destruct (modify_elastic_bounce Real.fallback Real.always Real.elastic
              Real.falling Real.start Real.start Real.start
              (Box.computeNormal Real.box (Real.vec 0 0 4)))
    as (p' & Hrun & Hpos & Hold & _).
  - reflexivity.
  - reflexivity.
  - reflexivity.
  - reflexivity.
  - apply Box_computeNormal_unit. exact Real_box_unitAxes.
  - exists p'. split; [exact Hrun|]. split; [exact Hpos|exact Hold].
Defined.

Lemma constant_step_two_and_a_half_witness :
  exists s1 s2 : System.System Exact.ops,
    System.updateParticles 3 Real.constantOne System.newSystem (2.5 * 1)%R
    = Some s1
    /\ System.advanced s1 = [] ++ [1%R; 1%R]
    /\ System.deltaStep s1 = (0.5 * 1)%R
    /\ System.updateParticles 3 Real.constantOne s1 (0.5 * 1)%R = Some s2
    /\ System.advanced s2 = [] ++ [1%R; 1%R; 1%R]
    /\ System.deltaStep s2 = 0%R.
Proof.
  apply (constant_step_two_and_a_half Real.constantOne System.newSystem 1%R 3).
  - lra.
  - reflexivity.
  - reflexivity.
  - reflexivity.
  - left. reflexivity.
  - lia.
Defined.

Lemma generatePosition_full_is_contained_witness :
  exists (v : Vector3D Exact.ops) (rt' : Runtime),
    Box.generatePosition Real.box true (ofZ 0) Real.start = Some (v, rt')
    /\ validSeed (randomSeed rt')
    /\ Box.contains Real.box v (ofZ 0) = true.
Proof.
  apply (generatePosition_full_is_contained Real.box Real.start).
  - exact Real_box_valid.
  - unfold validSeed, Real.start. cbn [randomSeed]. lia.
Defined.


Lemma setTank_setFlow_never_both_negative_witness :
  ~ (fltb (Emitter.flow (Emitter.withTank (Single.emitter 1 (-1)) 5))
          (Binary32.of_Z 0) = true
     /\ (Emitter.tank (Emitter.withTank (Single.emitter 1 (-1)) 5) < 0)%Z)
  /\ Emitter.setTank (Single.emitter (-1) 10) (-1) Single.start = None
  /\ Emitter.setFlow (Single.emitter 1 (-1)) (Binary32.of_Z (-1)) Single.start
     = None.
Proof.
  split; [|split].
  - apply (proj1 (setTank_setFlow_never_both_negative Binary32.ops
                    Binary32_order (Single.emitter 1 (-1)) Single.start)
             5%Z (Emitter.withTank (Single.emitter 1 (-1)) 5) Single.start).
    reflexivity.
  - apply (proj1 (proj2 (proj2 (setTank_setFlow_never_both_negative
                    Binary32.ops Binary32_order (Single.emitter (-1) 10)
                    Single.start)))).
    + reflexivity.
    + lia.
  - apply (proj2 (proj2 (proj2 (setTank_setFlow_never_both_negative
                    Binary32.ops Binary32_order (Single.emitter 1 (-1))
                    Single.start)))).
    + reflexivity.
    + cbn. lia.
Defined.

Lemma modify_leaves_untriggered_particles_witness :
  exists p' : Obstacle.Particle Binary32.ops,
    nth_error [Single.arrived; Single.still] 1 = Some p'
    /\ Obstacle.position p' = Obstacle.position Single.still
    /\ Obstacle.oldPosition p' = Obstacle.oldPosition Single.still
    /\ Obstacle.velocity p' = Obstacle.velocity Single.still.
Proof.
  apply (proj2 (modify_leaves_untriggered_particles Binary32.ops
                  Single.fallback Single.moved Single.elastic
                  [Single.shifted; Single.still]
                  [Single.arrived; Single.still]
                  (Binary32.of_Z 1) Single.start Single.start eq_refl)
           1%nat Single.still).
  - reflexivity.
  - intros rt0 rt1 H.
    change (Some (false, rt0) = Some (true, rt1)) in H. discriminate H.
Defined.

(* ================================================================== *)
(** * Further properties of the code *)
(* ================================================================== *)

#[export] Instance Exact_laws : FloatLaws Exact.ops.
Proof.
  constructor.
  - intros a. exact_ops. apply Rltb_false. apply Rabs_pos.
  - exact_ops. apply Rleb_true. lra.
Qed.

#[export] Instance Binary32_laws : FloatLaws Binary32.ops.
Proof.
  constructor.
  - intros a. destruct a as [s|s| |s m e]; reflexivity.
  - reflexivity.
Qed.

(* ------------------------------------------------------------------ *)
(** ** SPKMain::generateRandom *)

Lemma nextSeed_iterated (seed : Z) (n : nat) :
  validSeed seed ->
  validSeed (Nat.iter n nextSeed seed)
  /\ Nat.iter n nextSeed seed
     = ((16807 ^ Z.of_nat n * seed) mod 2147483647)%Z.
Proof.
  intros Hs. induction n as [|n [IHv IHe]].
  - change (Nat.iter 0 nextSeed seed) with seed. split; [exact Hs|].
    unfold validSeed in Hs. change (Z.of_nat 0) with 0%Z.
    rewrite Z.pow_0_r, Z.mul_1_l.
    symmetry. apply Z.mod_small. lia.
  - change (Nat.iter (S n) nextSeed seed)
      with (nextSeed (Nat.iter n nextSeed seed)).
    destruct (nextSeed_minimal_standard _ IHv) as [He Hv].
    split; [exact Hv|]. rewrite He, IHe.
    rewrite Z.mul_mod_idemp_r by lia.
    f_equal. rewrite Nat2Z.inj_succ, Z.pow_succ_r by lia. ring.
Qed.

(** X1.  On a seed of [1 .. 2^31 - 2] the generator computes the "minimal
    standard" successor, [16807 * seed] modulo [2^31 - 1], and the new seed
    is again in [1 .. 2^31 - 2]: the bit manipulations never produce 0 nor
    [2^31 - 1].  Hence after any number [n] of draws the seed is
    [16807^n * seed] modulo [2^31 - 1] and still in that range. *)
Theorem generateRandom_seed_minimal_standard :
  forall (seed : Z) (n : nat),
    validSeed seed ->
    nextSeed seed = ((16807 * seed) mod 2147483647)%Z
    /\ validSeed (nextSeed seed)
    /\ validSeed (Nat.iter n nextSeed seed)
    /\ Nat.iter n nextSeed seed
       = ((16807 ^ Z.of_nat n * seed) mod 2147483647)%Z.
Proof.
  intros seed n Hs.
  destruct (nextSeed_minimal_standard seed Hs) as [He Hv].
  destruct (nextSeed_iterated seed n Hs) as [Hiv Hie].
  split; [exact He|]. split; [exact Hv|]. split; [exact Hiv|exact Hie].
Qed.

Lemma generateRandom_seed_minimal_standard_witness :
  nextSeed 1 = ((16807 * 1) mod 2147483647)%Z
  /\ validSeed (nextSeed 1)
  /\ validSeed (Nat.iter 3 nextSeed 1%Z)
  /\ Nat.iter 3 nextSeed 1%Z = ((16807 ^ Z.of_nat 3 * 1) mod 2147483647)%Z.
Proof.
  apply (generateRandom_seed_minimal_standard 1%Z 3%nat).
  unfold validSeed. lia.
Defined.

Section ExactRandom.

Local Open Scope R_scope.

Lemma validSeed_ratio (seed : Z) :
  validSeed seed ->
  0 <= @seedRatio Exact.ops (seedMinusOne (nextSeed seed)) < 1.
Proof.
  intros Hs.
  destruct (nextSeed_minimal_standard seed Hs) as [_ Hn].
  exact_ops. unfold seedMinusOne. rewrite Z.mod_small by lia.
  assert (H0 : 0 <= IZR (nextSeed seed - 1)) by (apply IZR_le; lia).
  assert (H1 : IZR (nextSeed seed - 1) <= 2147483645) by (apply IZR_le; lia).
  split.
  - apply Rmult_le_pos; [exact H0|]. lra.
  - apply (Rmult_lt_reg_r 2147483646); [lra|]. field_simplify. lra.
Qed.

End ExactRandom.

Lemma generateRandomVector_bounds :
  forall (min max : Vector3D Exact.ops) (rt : Runtime),
    validSeed (randomSeed rt) ->
    (x min <= x max)%R -> (y min <= y max)%R -> (z min <= z max)%R ->
    exists (v : Vector3D Exact.ops) (rt' : Runtime),
      generateRandomVector min max rt = Some (v, rt')
      /\ validSeed (randomSeed rt')
      /\ logged rt' = logged rt
      /\ (x min <= x v <= x max)%R
      /\ (y min <= y v <= y max)%R
      /\ (z min <= z v <= z max)%R.
Proof.
  intros min max rt Hs Hx Hy Hz.
  pose proof (validSeed_ratio (randomSeed rt) Hs) as Hr.
  destruct (nextSeed_minimal_standard (randomSeed rt) Hs) as [_ Hn].
  unfold generateRandomVector.
  set (r := @seedRatio Exact.ops (seedMinusOne (nextSeed (randomSeed rt)))) in *.
  eexists. eexists. split; [reflexivity|].
  cbn [randomSeed logged]. split; [exact Hn|]. split; [reflexivity|].
  destruct min as [a0 a1 a2], max as [b0 b1 b2].
  vector_ops. exact_ops. repeat split; nra.
Qed.

(** X2.  In exact arithmetic and on a valid seed, [SPK_RANDOM(min,max)] on
    vectors succeeds, advances the seed by one step to a valid seed, logs
    nothing, and yields [min + r (max - min)] for one ratio [r] of [[0, 1)]:
    every component lies between the components of [min] and [max], for
    [min <= max] component-wise, and below that of [max] where the two
    differ. *)
Theorem generateRandomVector_within_bounds :
  forall (min max : Vector3D Exact.ops) (rt : Runtime),
    validSeed (randomSeed rt) ->
    (x min <= x max)%R -> (y min <= y max)%R -> (z min <= z max)%R ->
    exists (v : Vector3D Exact.ops) (rt' : Runtime) (r : R),
      generateRandomVector min max rt = Some (v, rt')
      /\ randomSeed rt' = nextSeed (randomSeed rt)
      /\ validSeed (randomSeed rt')
      /\ logged rt' = logged rt
      /\ (0 <= r < 1)%R
      /\ v = vadd min (@fscale Exact.ops r (vsub max min))
      /\ (x min <= x v <= x max)%R
      /\ (y min <= y v <= y max)%R
      /\ (z min <= z v <= z max)%R
      /\ ((x min < x max)%R -> (x v < x max)%R)
      /\ ((y min < y max)%R -> (y v < y max)%R)
      /\ ((z min < z max)%R -> (z v < z max)%R).
Proof.
  intros min max rt Hs Hx Hy Hz.
  pose proof (validSeed_ratio (randomSeed rt) Hs) as Hr.
  destruct (nextSeed_minimal_standard (randomSeed rt) Hs) as [_ Hn].
  unfold generateRandomVector.
  set (r := @seedRatio Exact.ops (seedMinusOne (nextSeed (randomSeed rt)))) in *.
  eexists. eexists. exists r. split; [reflexivity|].
  cbn [randomSeed logged]. split; [reflexivity|]. split; [exact Hn|].
  split; [reflexivity|]. split; [exact Hr|]. split; [reflexivity|].
  destruct min as [a0 a1 a2], max as [b0 b1 b2].
  vector_ops. exact_ops.
  split; [split; nra|]. split; [split; nra|]. split; [split; nra|].
  split; [intros H; nra|]. split; intros H; nra.
Qed.

Lemma generateRandomVector_within_bounds_witness :
  exists (v : Vector3D Exact.ops) (rt' : Runtime),
    generateRandomVector (Real.vec (-1) (-2) (-3)) (Real.vec 1 2 3) Real.start
    = Some (v, rt')
    /\ (x (Real.vec (-1) (-2) (-3)) <= x v <= x (Real.vec 1 2 3))%R.
Proof.
  destruct (generateRandomVector_within_bounds
              (Real.vec (-1) (-2) (-3)) (Real.vec 1 2 3) Real.start)
    as (v & rt' & r & Hrun & _ & _ & _ & _ & _ & Hx & _).
  - unfold validSeed, Real.start. cbn [randomSeed]. lia.
  - unfold Real.vec. cbn [x]. lra.
  - unfold Real.vec. cbn [y]. lra.
  - unfold Real.vec. cbn [z]. lra.
  - exists v, rt'. split; [exact Hrun|exact Hx].
Defined.

Section ExactTruncation.

Local Open Scope R_scope.

(** The integer part of a quotient of integers is their Euclidean
    quotient. *)
Lemma Int_part_ratio (a d : Z) :
  (0 < d)%Z -> Int_part (IZR a / IZR d) = (a / d)%Z.
Proof.
  intros Hd. symmetry. apply Int_part_spec.
  pose proof (Z.div_mod a d ltac:(lia)) as E.
  pose proof (Z.mod_pos_bound a d Hd) as [Hr0 Hr1].
  set (q := (a / d)%Z) in *. set (r := (a mod d)%Z) in *.
  assert (Hd' : 0 < IZR d) by (apply IZR_lt; exact Hd).
  assert (Ea : IZR a = IZR d * IZR q + IZR r).
  { rewrite E. rewrite plus_IZR, mult_IZR. reflexivity. }
  assert (Hr0' : 0 <= IZR r) by (apply IZR_le; exact Hr0).
  assert (Hr1' : IZR r < IZR d) by (apply IZR_lt; exact Hr1).
  replace (IZR a / IZR d) with (IZR q + IZR r / IZR d)
    by (rewrite Ea; field; lra).
  assert (Ht : 0 <= IZR r / IZR d < 1).
  { split.
    - apply Rmult_le_pos; [exact Hr0'|].
      apply Rlt_le. apply Rinv_0_lt_compat. exact Hd'.
    - apply (Rmult_lt_reg_r (IZR d)); [exact Hd'|].
      replace (IZR r / IZR d * IZR d) with (IZR r) by (field; lra). lra. }
  lra.
Qed.

(** [static_cast<int>] of a quotient of integers is their quotient rounded
    toward zero. *)
Lemma truncate_ratio (a d : Z) :
  (0 < d)%Z -> Exact.truncate (IZR a / IZR d) = (a ÷ d)%Z.
Proof.
  intros Hd.
  assert (Hd' : 0 < IZR d) by (apply IZR_lt; exact Hd).
  assert (Hi : 0 < / IZR d) by (apply Rinv_0_lt_compat; exact Hd').
  unfold Exact.truncate. destruct (Z_lt_le_dec a 0) as [Ha|Ha].
  - assert (Hneg : IZR a / IZR d < 0).
    { assert (IZR a < 0) by (apply IZR_lt; exact Ha). unfold Rdiv. nra. }
    destruct (Rlt_dec (IZR a / IZR d) 0) as [_|Hn]; [|contradiction].
    replace (- (IZR a / IZR d)) with (IZR (- a) / IZR d)
      by (rewrite opp_IZR; field; lra).
    rewrite Int_part_ratio by exact Hd.
    rewrite <- (Z.opp_involutive a) at 2. rewrite Z.quot_opp_l by lia.
    rewrite Z.quot_div_nonneg by lia. reflexivity.
  - assert (Hpos : 0 <= IZR a / IZR d).
    { assert (0 <= IZR a) by (apply IZR_le; exact Ha). unfold Rdiv. nra. }
    destruct (Rlt_dec (IZR a / IZR d) 0) as [Hn|_]; [lra|].
    rewrite Int_part_ratio by exact Hd.
    rewrite Z.quot_div_nonneg by lia. reflexivity.
Qed.

(** The cast of [SPKMain::generateRandom] on [int], in exact arithmetic:
    the sum [min + r (max - min)] is rounded toward zero as a whole. *)
Lemma scaleToRangeInt_exact (k lo hi : Z) :
  @scaleToRangeInt Exact.ops k lo hi
  = ((lo * 2147483646 + k * (hi - lo)) ÷ 2147483646)%Z.
Proof.
  cbn [scaleToRangeInt Exact.ops].
  replace (IZR lo + IZR k / 2147483646 * IZR (hi - lo))
    with (IZR (lo * 2147483646 + k * (hi - lo)) / IZR 2147483646)
    by (rewrite plus_IZR, !mult_IZR; field).
  apply truncate_ratio. lia.
Qed.

End ExactTruncation.

(** Where the truncated sum lies, [k] being [randomSeed - 1]. *)
Lemma truncated_sum_bounds (k lo hi : Z) :
  (0 <= k <= 2147483645)%Z ->
  (lo < hi)%Z ->
  let n := ((lo * 2147483646 + k * (hi - lo)) ÷ 2147483646)%Z in
  (lo <= n <= hi)%Z
  /\ ((0 < hi)%Z -> (n < hi)%Z)
  /\ ((0 <= lo)%Z -> n = (lo + k * (hi - lo) / 2147483646)%Z)
  /\ ((hi <= 0)%Z ->
      (n = hi <-> ((2147483646 - k) * (hi - lo) < 2147483646)%Z)).
Proof.
  intros Hk Hlt n. subst n.
  replace ((2147483646 - k) * (hi - lo))%Z
    with (2147483646 * (hi - lo) - k * (hi - lo))%Z by ring.
  assert (Hw0 : (0 <= k * (hi - lo))%Z) by nia.
  assert (Hw1 : (k * (hi - lo) <= 2147483645 * (hi - lo))%Z) by nia.
  set (w := (k * (hi - lo))%Z) in *. clearbody w.
  destruct (Z_lt_le_dec (lo * 2147483646 + w) 0) as [Hm|Hm].
  - rewrite <- (Z.opp_involutive (lo * 2147483646 + w)).
    rewrite Z.quot_opp_l by lia. rewrite Z.quot_div_nonneg by lia.
    repeat split; intros; Z.div_mod_to_equations; lia.
  - rewrite Z.quot_div_nonneg by lia.
    repeat split; intros; Z.div_mod_to_equations; lia.
Qed.

Lemma generateRandomInt_bounds :
  forall (min max : Z) (rt : Runtime),
    validSeed (randomSeed rt) ->
    (0 <= min < max)%Z ->
    exists (n : Z) (rt' : Runtime),
      @generateRandomInt Exact.ops min max rt = Some (n, rt')
      /\ validSeed (randomSeed rt')
      /\ logged rt' = logged rt
      /\ (min <= n < max)%Z.
Proof.
  intros min max rt Hs Hlt.
  destruct (nextSeed_minimal_standard (randomSeed rt) Hs) as [_ Hn].
  unfold generateRandomInt. eexists. eexists. split; [reflexivity|].
  cbn [randomSeed logged]. split; [exact Hn|]. split; [reflexivity|].
  rewrite scaleToRangeInt_exact. unfold seedMinusOne. unfold validSeed in Hn.
  rewrite Z.mod_small by lia.
  destruct (truncated_sum_bounds (nextSeed (randomSeed rt) - 1) min max
              ltac:(lia) ltac:(lia)) as (Hb & Hmax & _).
  cbv zeta in Hb, Hmax. lia.
Qed.



(* ------------------------------------------------------------------ *)
(** ** Box::setDimension *)

(** X4.  In any arithmetic where an absolute value is not [< 0]:
    [setDimension] always succeeds and never leaves a component that tests
    negative.  A vector without negative component is stored as given and
    nothing is logged; otherwise the component-wise absolute value is stored
    and one warning is logged.  The position, the transform, the axes and
    the seed of the generator are untouched. *)
Theorem setDimension_never_negative :
  forall (F : FloatOps), FloatLaws F ->
  forall (b : Box.Box F) (dimension : Vector3D F) (rt : Runtime),
    exists (b' : Box.Box F) (rt' : Runtime),
      Box.setDimension b dimension rt = Some (b', rt')
      /\ noNegativeComponent (Box.dimension b')
      /\ (if hasNegativeComponent dimension
          then Box.dimension b' = vabs dimension
               /\ logged rt' = LogWarning EmptyString :: logged rt
          else Box.dimension b' = dimension /\ logged rt' = logged rt)
      /\ randomSeed rt' = randomSeed rt
      /\ Box.tPosition b' = Box.tPosition b
      /\ Box.axis b' = Box.axis b
      /\ Box.tAxis b' = Box.tAxis b.
Proof.
  intros F L b dimension rt. unfold Box.setDimension.
  fold (hasNegativeComponent dimension).
  destruct (hasNegativeComponent dimension) eqn:E.
  - eexists. eexists. split; [reflexivity|].
    cbn [Box.withDimension Box.dimension Box.tPosition Box.axis Box.tAxis
         randomSeed logged].
    split; [|repeat split].
    unfold noNegativeComponent, vabs. cbn [x y z].
    repeat split; apply abs_not_negative.
  - eexists. eexists. split; [reflexivity|].
    cbn [Box.withDimension Box.dimension Box.tPosition Box.axis Box.tAxis].
    split; [|repeat split].
    unfold hasNegativeComponent in E.
    apply orb_false_iff in E. destruct E as [E Ez].
    apply orb_false_iff in E. destruct E as [Ex Ey].
    repeat split; assumption.
Qed.

Lemma setDimension_never_negative_witness :
  exists (b' : Box.Box Binary32.ops) (rt' : Runtime),
    Box.setDimension Single.canonical (Single.vec 1 (-2) 3) Single.start
    = Some (b', rt')
    /\ noNegativeComponent (Box.dimension b')
    /\ Box.dimension b' = Single.vec 1 2 3
    /\ logged rt' = [LogWarning EmptyString].
Proof.
  destruct (setDimension_never_negative Binary32.ops Binary32_laws
              Single.canonical (Single.vec 1 (-2) 3) Single.start)
    as (b' & rt' & Hrun & Hpos & Hcase & _).
  exists b', rt'. split; [exact Hrun|]. split; [exact Hpos|].
  change (hasNegativeComponent (Single.vec 1 (-2) 3)) with true in Hcase.
  destruct Hcase as [Hd Hl]. split; [|exact Hl].
  rewrite Hd. reflexivity.
Defined.

(* ------------------------------------------------------------------ *)
(** ** Box::contains *)

(** X5.  In exact arithmetic: the radius enlarges the box.  A point
    contained with a radius is contained with every larger radius, and the
    centre of a box whose dimensions are not negative is contained with
    every radius that is not negative. *)
Theorem contains_monotone_in_radius :
  forall (b : Box.Box Exact.ops) (v : Vector3D Exact.ops) (r r' : R),
    ((r <= r')%R ->
     Box.contains b v r = true -> Box.contains b v r' = true)
    /\ ((0 <= r)%R ->
        (0 <= x (Box.dimension b))%R -> (0 <= y (Box.dimension b))%R ->
        (0 <= z (Box.dimension b))%R ->
        Box.contains b (Box.tPosition b) r = true).
Proof.
  intros b v r r'. split.
  - intros Hr H. apply contains_iff_slabs in H. apply contains_iff_slabs.
    destruct H as (H0 & H1 & H2). repeat split; lra.
  - intros Hr Hx Hy Hz. apply contains_iff_slabs. unfold slabDistance.
    destruct b as [[p0 p1 p2] tr dim ax [[a0 a1 a2] [b0 b1 b2] [c0 c1 c2]]].
    cbn [Box.tAxis Box.tPosition Box.dimension] in *.
    vector_ops. exact_ops.
    replace (a0 * (p0 - p0) + a1 * (p1 - p1) + a2 * (p2 - p2))%R with 0%R by ring.
    replace (b0 * (p0 - p0) + b1 * (p1 - p1) + b2 * (p2 - p2))%R with 0%R by ring.
    replace (c0 * (p0 - p0) + c1 * (p1 - p1) + c2 * (p2 - p2))%R with 0%R by ring.
    rewrite Rabs_R0. repeat split; lra.
Qed.

Lemma Real_box_contains_origin :
  Box.contains Real.box (Real.vec 0 0 0) 0%R = true.
Proof.
  apply contains_iff_slabs. unfold slabDistance, Real.box, Real.vec.
  cbn [Box.tAxis Box.tPosition Box.dimension]. vector_ops. exact_ops.
  replace (1 * (0 - 0) + 0 * (0 - 0) + 0 * (0 - 0))%R with 0%R by ring.
  replace (0 * (0 - 0) + 1 * (0 - 0) + 0 * (0 - 0))%R with 0%R by ring.
  replace (0 * (0 - 0) + 0 * (0 - 0) + 1 * (0 - 0))%R with 0%R by ring.
  rewrite Rabs_R0. repeat split; lra.
Qed.

Lemma contains_monotone_in_radius_witness :
  Box.contains Real.box (Real.vec 0 0 0) 1%R = true
  /\ Box.contains Real.box (Box.tPosition Real.box) 0%R = true.
Proof.
  split.
  - apply (proj1 (contains_monotone_in_radius Real.box (Real.vec 0 0 0)
                    0%R 1%R)).
    + lra.
    + exact Real_box_contains_origin.
  - apply (proj2 (contains_monotone_in_radius Real.box (Real.vec 0 0 0)
                    0%R 1%R)).
    + lra.
    + unfold Real.box, Real.vec. cbn [Box.dimension x]. lra.
    + unfold Real.box, Real.vec. cbn [Box.dimension y]. lra.
    + unfold Real.box, Real.vec. cbn [Box.dimension z]. lra.
Defined.

(* ------------------------------------------------------------------ *)
(** ** Box::computeNormal *)

Section ExactBoxNormal.

Local Open Scope R_scope.

Lemma dotProduct_vopp (t d : Vector3D Exact.ops) :
  dotProduct (vopp t) d = - dotProduct t d.
Proof.
  destruct t as [t0 t1 t2], d as [d0 d1 d2]. vector_ops. exact_ops. ring.
Qed.

(** With positive dimensions the three ratios are the coordinates divided by
    the dimensions. *)
Lemma computeRatio_positive (b : Box.Box Exact.ops) (d ratio : Vector3D Exact.ops)
      (i : nat) :
  0 < vget (Box.dimension b) i ->
  Box.computeRatio b d ratio i
  = vset ratio i (dotProduct (aget (Box.tAxis b) i) d / vget (Box.dimension b) i).
Proof.
  intros H. unfold Box.computeRatio. exact_ops.
  rewrite (proj2 (Rltb_true _ _) H). reflexivity.
Qed.

Lemma ratio_sign (c dim : R) : 0 < dim -> (0 < c / dim <-> 0 < c).
Proof.
  intros Hd. split; intros H.
  - apply (Rmult_lt_reg_r (/ dim)); [apply Rinv_0_lt_compat; exact Hd|].
    rewrite Rmult_0_l. exact H.
  - apply Rdiv_lt_0_compat; assumption.
Qed.

(** The normal as a function of the three ratios. *)
Lemma computeNormal_selected (b : Box.Box Exact.ops) (v : Vector3D Exact.ops) :
  0 < x (Box.dimension b) -> 0 < y (Box.dimension b) ->
  0 < z (Box.dimension b) ->
  let k := selectedAxis (axisRatio b v 0) (axisRatio b v 1) (axisRatio b v 2) in
  Box.computeNormal b v
  = if Exact.Rltb 0 (axisRatio b v k)
    then vopp (aget (Box.tAxis b) k)
    else aget (Box.tAxis b) k.
Proof.
  intros Hx Hy Hz. unfold Box.computeNormal. cbv zeta.
  rewrite (computeRatio_positive b _ _ 0) by exact Hx.
  rewrite (computeRatio_positive b _ _ 1) by exact Hy.
  rewrite (computeRatio_positive b _ _ 2) by exact Hz.
  unfold selectedAxis, axisRatio, coordinate. cbv zeta.
  cbn [vset vget x y z]. unfold vabs. cbn [vget x y z]. exact_ops.
  set (q0 := dotProduct (aget (Box.tAxis b) 0) (vsub v (Box.tPosition b))
             / x (Box.dimension b)).
  set (q1 := dotProduct (aget (Box.tAxis b) 1) (vsub v (Box.tPosition b))
             / y (Box.dimension b)).
  set (q2 := dotProduct (aget (Box.tAxis b) 2) (vsub v (Box.tPosition b))
             / z (Box.dimension b)).
  destruct (Exact.Rltb (Rabs q0) (Rabs q1)); cbn [vget x y z].
  - destruct (Exact.Rltb (Rabs q1) (Rabs q2)); reflexivity.
  - destruct (Exact.Rltb (Rabs q0) (Rabs q2)); reflexivity.
Qed.

Lemma selectedAxis_largest (q0 q1 q2 : R) :
  let k := selectedAxis q0 q1 q2 in
  let q := fun i : nat => match i with O => q0 | S O => q1 | _ => q2 end in
  (k < 3)%nat /\ forall i : nat, Rabs (q i) <= Rabs (q k).
Proof.
  unfold selectedAxis. cbv zeta.
  destruct (Exact.Rltb (Rabs q0) (Rabs q1)) eqn:E01;
    [apply Rltb_true in E01|apply Rltb_false in E01];
    match goal with
    | |- context [Exact.Rltb ?a ?b] =>
        destruct (Exact.Rltb a b) eqn:E2;
        [apply Rltb_true in E2|apply Rltb_false in E2]
    end;
    (split; [lia|]); intros [|[|i]]; lra.
Qed.

End ExactBoxNormal.

(** X6.  In exact arithmetic, for a box with positive dimensions:
    [computeNormal(v)] takes the axis [k] on which the coordinate of [v]
    divided by the dimension is largest in absolute value, and returns
    [-tAxis[k]] when that coordinate is positive and [tAxis[k]] otherwise.
    The normal thus never points to the side of the centre on which [v]
    lies: its dot product with [v - position] is not positive. *)
Theorem Box_computeNormal_faces_centre :
  forall (b : Box.Box Exact.ops) (v : Vector3D Exact.ops),
    (0 < x (Box.dimension b))%R ->
    (0 < y (Box.dimension b))%R ->
    (0 < z (Box.dimension b))%R ->
    exists k : nat,
      (k < 3)%nat
      /\ (forall i : nat, (i < 3)%nat ->
            (Rabs (coordinate b v i / vget (Box.dimension b) i)
             <= Rabs (coordinate b v k / vget (Box.dimension b) k))%R)
      /\ ((0 < coordinate b v k)%R ->
          Box.computeNormal b v = vopp (aget (Box.tAxis b) k))
      /\ ((coordinate b v k <= 0)%R ->
          Box.computeNormal b v = aget (Box.tAxis b) k)
      /\ (dotProduct (Box.computeNormal b v) (vsub v (Box.tPosition b)) <= 0)%R.
Proof.
  intros b v Hx Hy Hz.
  pose proof (computeNormal_selected b v Hx Hy Hz) as Hn. cbv zeta in Hn.
  destruct (selectedAxis_largest (axisRatio b v 0) (axisRatio b v 1)
              (axisRatio b v 2)) as [Hk Hmax].
  set (k := selectedAxis (axisRatio b v 0) (axisRatio b v 1) (axisRatio b v 2))
    in *.
  assert (Hdim : (0 < vget (Box.dimension b) k)%R).
  { destruct k as [|[|k]]; cbn [vget]; assumption. }
  assert (Hsign : (0 < axisRatio b v k <-> 0 < coordinate b v k)%R).
  { unfold axisRatio. apply ratio_sign. exact Hdim. }
  exists k. split; [exact Hk|]. split.
  { intros i Hi. specialize (Hmax i).
    destruct i as [|[|[|i]]]; [| | |lia];
      destruct k as [|[|[|k]]]; try lia; exact Hmax. }
  destruct (Exact.Rltb 0 (axisRatio b v k)) eqn:E;
    [apply Rltb_true in E|apply Rltb_false in E]; rewrite Hn.
  - apply Hsign in E. split; [reflexivity|]. split; [intros H; lra|].
    rewrite dotProduct_vopp. fold (coordinate b v k). lra.
  - assert (Hc : (coordinate b v k <= 0)%R).
    { destruct (Rle_or_lt (coordinate b v k) 0) as [H|H]; [exact H|].
      apply Hsign in H. lra. }
    split; [intros H; lra|]. split; [reflexivity|].
    fold (coordinate b v k). exact Hc.
Qed.

Lemma Box_computeNormal_faces_centre_witness :
  (dotProduct (Box.computeNormal Real.box (Real.vec 0 0 4))
              (vsub (Real.vec 0 0 4) (Box.tPosition Real.box)) <= 0)%R.
Proof.
  destruct (Box_computeNormal_faces_centre Real.box (Real.vec 0 0 4))
    as (k & _ & _ & _ & _ & H).
  - unfold Real.box, Real.vec. cbn [Box.dimension x]. lra.
  - unfold Real.box, Real.vec. cbn [Box.dimension y]. lra.
  - unfold Real.box, Real.vec. cbn [Box.dimension z]. lra.
  - exact H.
Defined.

(* ------------------------------------------------------------------ *)
(** ** Box::setAxis *)

Section ExactAxes.

Local Open Scope R_scope.

Lemma getNorm_zero_iff (v : Vector3D Exact.ops) :
  getNorm v = 0 <-> v = Real.vec 0 0 0.
Proof.
  split.
  - intros H. pose proof (getSqrNorm_nonneg v) as Hs.
    assert (E : getSqrNorm v = 0).
    { unfold getNorm in H. exact_ops.
      rewrite <- (sqrt_sqrt (getSqrNorm v) Hs). rewrite H. ring. }
    destruct v as [a b c]. unfold getSqrNorm in E. cbn [x y z] in E.
    exact_ops. unfold Real.vec.
    assert (a = 0) by nra. assert (b = 0) by nra. assert (c = 0) by nra.
    subst. reflexivity.
  - intros ->. unfold Real.vec. vector_ops. exact_ops.
    replace (0 * 0 + 0 * 0 + 0 * 0) with 0 by ring. apply sqrt_0.
Qed.

Lemma getNorm_nonneg (v : Vector3D Exact.ops) : 0 <= getNorm v.
Proof. unfold getNorm. exact_ops. apply sqrt_pos. Qed.

Lemma getNorm_square (v : Vector3D Exact.ops) :
  getNorm v * getNorm v = getSqrNorm v.
Proof.
  unfold getNorm. exact_ops. apply sqrt_sqrt. apply getSqrNorm_nonneg.
Qed.

(** The value of a normalized vector. *)
Lemma normalize_value (v : Vector3D Exact.ops) :
  getNorm v <> 0 ->
  snd (normalize v) = vscale v (/ getNorm v).
Proof.
  intros Hn. unfold normalize. cbv zeta. exact_ops.
  rewrite (proj2 (Reqb_false _ _) Hn). cbn [negb snd].
  destruct v as [a b c]. unfold vscale. cbn [x y z]. exact_ops.
  reflexivity.
Qed.

(** A unit vector is left as it is, and so is the null vector: normalizing
    twice is normalizing once. *)
Lemma normalize_of_unit (v : Vector3D Exact.ops) :
  getNorm v = 1 -> snd (normalize v) = v.
Proof.
  intros H. rewrite normalize_value by lra. rewrite H.
  destruct v as [a b c]. unfold vscale. cbn [x y z]. exact_ops.
  f_equal; field.
Qed.

Lemma normalize_idempotent (v : Vector3D Exact.ops) :
  snd (normalize (snd (normalize v))) = snd (normalize v).
Proof.
  destruct (Req_dec_T (getNorm v) 0) as [Hz|Hnz].
  - rewrite (normalize_null v Hz). cbn [snd]. rewrite (normalize_null v Hz).
    reflexivity.
  - apply normalize_of_unit. apply normalize_unit. exact Hnz.
Qed.

Lemma dotProduct_vscale (u v : Vector3D Exact.ops) (a b : R) :
  dotProduct (vscale u a) (vscale v b) = a * b * dotProduct u v.
Proof.
  destruct u as [u0 u1 u2], v as [v0 v1 v2]. vector_ops. exact_ops. ring.
Qed.

Lemma crossProduct_vscale (u v : Vector3D Exact.ops) (a b : R) :
  crossProduct (vscale u a) (vscale v b) = vscale (crossProduct u v) (a * b).
Proof.
  destruct u as [u0 u1 u2], v as [v0 v1 v2]. vector_ops. exact_ops.
  f_equal; ring.
Qed.

Lemma getSqrNorm_vscale (v : Vector3D Exact.ops) (a : R) :
  getSqrNorm (vscale v a) = a * a * getSqrNorm v.
Proof.
  destruct v as [v0 v1 v2]. vector_ops. exact_ops. ring.
Qed.

(** The cross product is orthogonal to its two factors, and its length
    follows Lagrange's identity. *)
Lemma crossProduct_orthogonal_left (u v : Vector3D Exact.ops) :
  dotProduct (crossProduct u v) u = 0.
Proof.
  destruct u as [u0 u1 u2], v as [v0 v1 v2]. vector_ops. exact_ops. ring.
Qed.

Lemma crossProduct_orthogonal_right (u v : Vector3D Exact.ops) :
  dotProduct (crossProduct u v) v = 0.
Proof.
  destruct u as [u0 u1 u2], v as [v0 v1 v2]. vector_ops. exact_ops. ring.
Qed.

Lemma dotProduct_comm (u v : Vector3D Exact.ops) :
  dotProduct u v = dotProduct v u.
Proof.
  destruct u as [u0 u1 u2], v as [v0 v1 v2]. vector_ops. exact_ops. ring.
Qed.

Lemma crossProduct_sqrNorm (u v : Vector3D Exact.ops) :
  getSqrNorm (crossProduct u v)
  = getSqrNorm u * getSqrNorm v - dotProduct u v * dotProduct u v.
Proof.
  destruct u as [u0 u1 u2], v as [v0 v1 v2]. vector_ops. exact_ops. ring.
Qed.

Lemma sqrNorm_not_zero (v : Vector3D Exact.ops) :
  getSqrNorm v <> 0 <-> getNorm v <> 0.
Proof.
  pose proof (getNorm_square v) as Hsq. split; intros H E.
  - apply H. rewrite <- Hsq, E. exact_ops. ring.
  - rewrite <- Hsq in E. apply Rmult_integral in E. tauto.
Qed.

(** Normalizing keeps right angles. *)
Lemma normalize_orthogonal (u v : Vector3D Exact.ops) :
  getNorm u <> 0 -> getNorm v <> 0 -> dotProduct u v = 0 ->
  dotProduct (snd (normalize u)) (snd (normalize v)) = 0.
Proof.
  intros Hu Hv H. rewrite !normalize_value by assumption.
  rewrite dotProduct_vscale, H. exact_ops. ring.
Qed.

Lemma normalize_sqrNorm (v : Vector3D Exact.ops) :
  getNorm v <> 0 -> dotProduct (snd (normalize v)) (snd (normalize v)) = 1.
Proof.
  intros H. apply (unit_sqrNorm (snd (normalize v))).
  apply normalize_unit. exact H.
Qed.

End ExactAxes.

Section ExactSetAxis.

Local Open Scope R_scope.

Lemma veqb_refl (v : Vector3D Exact.ops) : veqb v v = true.
Proof.
  unfold veqb. exact_ops.
  rewrite !(proj2 (Reqb_true _ _) eq_refl). reflexivity.
Qed.

Lemma isNull_true (v : Vector3D Exact.ops) :
  isNull v = true <-> v = Real.vec 0 0 0.
Proof.
  unfold isNull, Real.vec. exact_ops. destruct v as [a b c]. cbn [x y z].
  rewrite !andb_true_iff, !Reqb_true. split.
  - intros [[-> ->] ->]. reflexivity.
  - intros E. inversion E. auto.
Qed.

Lemma veqb_true (u v : Vector3D Exact.ops) : veqb u v = true <-> u = v.
Proof.
  unfold veqb. exact_ops. destruct u as [a b c], v as [a' b' c'].
  cbn [x y z]. rewrite !andb_true_iff, !Reqb_true. split.
  - intros [[-> ->] ->]. reflexivity.
  - intros E. inversion E. auto.
Qed.

(** The two cross products on the canonical pair. *)
Lemma canonical_cross_x :
  crossProduct (Real.vec 0 0 1) (Real.vec 0 1 0) = Real.vec (-1) 0 0.
Proof. unfold Real.vec. vector_ops. exact_ops. f_equal; ring. Qed.

Lemma canonical_cross_y :
  crossProduct (Real.vec (-1) 0 0) (Real.vec 0 0 1) = Real.vec 0 1 0.
Proof. unfold Real.vec. vector_ops. exact_ops. f_equal; ring. Qed.

Lemma Real_vec_norm_minus_x : getNorm (Real.vec (-1) 0 0) = 1.
Proof.
  unfold Real.vec. vector_ops. exact_ops.
  replace (-1 * -1 + 0 * 0 + 0 * 0) with 1 by ring. apply sqrt_1.
Qed.

(** [setAxis] once the guard has been decided. *)
Lemma setAxis_guarded (b : Box.Box Exact.ops) (front up : Vector3D Exact.ops)
      (rt : Runtime) :
  veqb front up || isNull front || isNull up = true ->
  Box.setAxis b front up rt
  = Some (Box.withAxes b
            (mkArray3 (Real.vec (-1) 0 0) (Real.vec 0 1 0) (Real.vec 0 0 1))
            (mkArray3 (Box.transformDir b (Real.vec (-1) 0 0))
                      (Box.transformDir b (Real.vec 0 1 0))
                      (Box.transformDir b (Real.vec 0 0 1))),
          mkRuntime (randomSeed rt) (LogWarning EmptyString :: logged rt)).
Proof.
  intros Hg. unfold Box.setAxis. rewrite Hg.
  unfold bind, SPK_LOG_WARNING, ret. cbn [fst snd].
  change (@mkVector3D Exact.ops (ofZ 0) (ofZ 0) (ofZ 1)) with (Real.vec 0 0 1).
  change (@mkVector3D Exact.ops (ofZ 0) (ofZ 1) (ofZ 0)) with (Real.vec 0 1 0).
  rewrite canonical_cross_x, canonical_cross_y.
  rewrite (normalize_of_unit _ Real_vec_norm_minus_x).
  rewrite (normalize_of_unit _ Real_vec_norm_y).
  rewrite (normalize_of_unit _ Real_vec_norm_z).
  reflexivity.
Qed.

Lemma canonical_orthonormal :
  orthonormal (mkArray3 (Real.vec (-1) 0 0) (Real.vec 0 1 0) (Real.vec 0 0 1)).
Proof.
  unfold orthonormal, Real.vec. cbn [at0 at1 at2]. vector_ops. exact_ops.
  repeat split; ring.
Qed.

End ExactSetAxis.

(** X7.  In exact arithmetic, [setAxis] with [front] equal to [up], or with
    a null [front] or [up], stores the axes [(-1,0,0)], [(0,1,0)],
    [(0,0,1)] (an orthonormal set, the x axis reversed by the order of the
    cross product), sets the transformed axes to their images by the
    transform of the zone, and logs one warning; dimension, position and
    seed are kept. *)
Theorem setAxis_equal_or_null_canonical :
  forall (b : Box.Box Exact.ops) (front up : Vector3D Exact.ops) (rt : Runtime),
    front = up \/ front = Real.vec 0 0 0 \/ up = Real.vec 0 0 0 ->
    exists (b' : Box.Box Exact.ops) (rt' : Runtime),
      Box.setAxis b front up rt = Some (b', rt')
      /\ Box.axis b'
         = mkArray3 (Real.vec (-1) 0 0) (Real.vec 0 1 0) (Real.vec 0 0 1)
      /\ orthonormal (Box.axis b')
      /\ Box.tAxis b'
         = mkArray3 (Box.transformDir b (Real.vec (-1) 0 0))
                    (Box.transformDir b (Real.vec 0 1 0))
                    (Box.transformDir b (Real.vec 0 0 1))
      /\ logged rt' = LogWarning EmptyString :: logged rt
      /\ randomSeed rt' = randomSeed rt
      /\ Box.dimension b' = Box.dimension b
      /\ Box.tPosition b' = Box.tPosition b.
Proof.
  intros b front up rt H.
  assert (Hg : veqb front up || isNull front || isNull up = true).
  { destruct H as [->|[->| ->]].
    - rewrite veqb_refl. reflexivity.
    - rewrite (proj2 (isNull_true _) eq_refl). rewrite orb_true_r. reflexivity.
    - rewrite (proj2 (isNull_true _) eq_refl). rewrite orb_true_r. reflexivity. }
  eexists. eexists. split; [apply setAxis_guarded; exact Hg|].
  cbn [Box.withAxes Box.axis Box.tAxis Box.dimension Box.tPosition
       logged randomSeed].
  split; [reflexivity|]. split; [exact canonical_orthonormal|].
  repeat split.
Qed.

Lemma setAxis_equal_or_null_canonical_witness :
  exists (b' : Box.Box Exact.ops) (rt' : Runtime),
    Box.setAxis Real.box (Real.vec 0 0 0) (Real.vec 0 5 0) Real.start
    = Some (b', rt')
    /\ Box.axis b'
       = mkArray3 (Real.vec (-1) 0 0) (Real.vec 0 1 0) (Real.vec 0 0 1)
    /\ logged rt' = [LogWarning EmptyString].
Proof.
  destruct (setAxis_equal_or_null_canonical Real.box (Real.vec 0 0 0)
              (Real.vec 0 5 0) Real.start)
    as (b' & rt' & Hrun & Hax & _ & _ & Hlog & _).
  - right. left. reflexivity.
  - exists b', rt'. split; [exact Hrun|]. split; [exact Hax|exact Hlog].
Defined.

Section ExactSetAxisGeneral.

Local Open Scope R_scope.

Lemma crossProduct_null_left (v : Vector3D Exact.ops) :
  crossProduct (Real.vec 0 0 0) v = Real.vec 0 0 0.
Proof.
  destruct v as [a b c]. unfold Real.vec. vector_ops. exact_ops.
  f_equal; ring.
Qed.

Lemma crossProduct_null_right (v : Vector3D Exact.ops) :
  crossProduct v (Real.vec 0 0 0) = Real.vec 0 0 0.
Proof.
  destruct v as [a b c]. unfold Real.vec. vector_ops. exact_ops.
  f_equal; ring.
Qed.

Lemma crossProduct_self (v : Vector3D Exact.ops) :
  crossProduct v v = Real.vec 0 0 0.
Proof.
  destruct v as [a b c]. unfold Real.vec. vector_ops. exact_ops.
  f_equal; ring.
Qed.

Lemma crossProduct_parallel (v : Vector3D Exact.ops) (k : R) :
  crossProduct v (vscale v k) = Real.vec 0 0 0.
Proof.
  destruct v as [a b c]. unfold Real.vec. vector_ops. exact_ops.
  f_equal; ring.
Qed.

Lemma vscale_null (a : R) : vscale (Real.vec 0 0 0) a = Real.vec 0 0 0.
Proof. unfold Real.vec. vector_ops. exact_ops. f_equal; ring. Qed.

Lemma vscale_not_null (v : Vector3D Exact.ops) (a : R) :
  v <> Real.vec 0 0 0 -> a <> 0 -> vscale v a <> Real.vec 0 0 0.
Proof.
  intros Hv Ha E. apply Hv. destruct v as [v0 v1 v2].
  unfold Real.vec, vscale in *. cbn [x y z] in E. exact_ops.
  pose proof (f_equal x E) as E0. pose proof (f_equal y E) as E1.
  pose proof (f_equal z E) as E2. cbn [x y z] in E0, E1, E2.
  apply Rmult_integral in E0. apply Rmult_integral in E1.
  apply Rmult_integral in E2.
  f_equal; tauto.
Qed.

(** [setAxis] when the guard does not fire: nothing is logged and the axes
    are built from the normalized [front] and [up]. *)
Lemma setAxis_unguarded (b : Box.Box Exact.ops) (front up : Vector3D Exact.ops)
      (rt : Runtime) :
  veqb front up || isNull front || isNull up = false ->
  let axis2 := snd (normalize front) in
  let axis0 := crossProduct axis2 (snd (normalize up)) in
  let axis1 := crossProduct axis0 axis2 in
  Box.setAxis b front up rt
  = Some (Box.withAxes b
            (mkArray3 (snd (normalize axis0)) (snd (normalize axis1))
                      (snd (normalize axis2)))
            (mkArray3 (Box.transformDir b axis0) (Box.transformDir b axis1)
                      (Box.transformDir b axis2)),
          rt).
Proof.
  intros Hg. cbv zeta. unfold Box.setAxis. rewrite Hg. reflexivity.
Qed.

Lemma guard_false (front up : Vector3D Exact.ops) :
  front <> up -> front <> Real.vec 0 0 0 -> up <> Real.vec 0 0 0 ->
  veqb front up || isNull front || isNull up = false.
Proof.
  intros Hne Hf Hu.
  destruct (veqb front up) eqn:E1; [apply veqb_true in E1; contradiction|].
  destruct (isNull front) eqn:E2; [apply isNull_true in E2; contradiction|].
  destruct (isNull up) eqn:E3; [apply isNull_true in E3; contradiction|].
  reflexivity.
Qed.

End ExactSetAxisGeneral.

Section ExactSetAxisResults.

Local Open Scope R_scope.

Lemma setAxis_independent_axes :
  forall (b : Box.Box Exact.ops) (front up : Vector3D Exact.ops) (rt : Runtime),
    crossProduct front up <> Real.vec 0 0 0 ->
    exists b' : Box.Box Exact.ops,
      Box.setAxis b front up rt = Some (b', rt)
      /\ orthonormal (Box.axis b')
      /\ at2 (Box.axis b') = vscale front (/ getNorm front)%R
      /\ Box.dimension b' = Box.dimension b
      /\ Box.tPosition b' = Box.tPosition b.
Proof.
  intros b front up rt Hc.
  assert (Hf : front <> Real.vec 0 0 0).
  { intros E. apply Hc. rewrite E. apply crossProduct_null_left. }
  assert (Hu : up <> Real.vec 0 0 0).
  { intros E. apply Hc. rewrite E. apply crossProduct_null_right. }
  assert (Hne : front <> up).
  { intros E. apply Hc. rewrite E. apply crossProduct_self. }
  assert (Hnf : getNorm front <> 0).
  { intros E. apply Hf. apply getNorm_zero_iff. exact E. }
  assert (Hnu : getNorm up <> 0).
  { intros E. apply Hu. apply getNorm_zero_iff. exact E. }
  pose proof (setAxis_unguarded b front up rt (guard_false front up Hne Hf Hu))
    as Hrun. cbv zeta in Hrun.
  set (axis2 := snd (normalize front)) in *.
  set (axis0 := crossProduct axis2 (snd (normalize up))) in *.
  set (axis1 := crossProduct axis0 axis2) in *.
  assert (H2 : getNorm axis2 = 1).
  { apply normalize_unit. exact Hnf. }
  assert (H0 : getNorm axis0 <> 0).
  { intros E. apply getNorm_zero_iff in E. subst axis0 axis2.
    rewrite !normalize_value in E by assumption.
    rewrite crossProduct_vscale in E.
    revert E. apply vscale_not_null; [exact Hc|].
    apply Rmult_integral_contrapositive_currified;
      apply Rinv_neq_0_compat; assumption. }
  assert (H02 : dotProduct axis0 axis2 = 0).
  { apply crossProduct_orthogonal_left. }
  assert (H1 : getNorm axis1 <> 0).
  { apply sqrNorm_not_zero. unfold axis1.
    rewrite crossProduct_sqrNorm, H02.
    rewrite (unit_sqrNorm axis2 H2).
    apply sqrNorm_not_zero in H0. exact_ops.
    rewrite Rmult_1_r, Rmult_0_r, Rminus_0_r. exact H0. }
  assert (H2' : getNorm axis2 <> 0) by (rewrite H2; lra).
  eexists. split; [exact Hrun|].
  cbn [Box.withAxes Box.axis Box.dimension Box.tPosition at2].
  split.
  { unfold orthonormal. cbn [at0 at1 at2].
    split; [apply normalize_sqrNorm; exact H0|].
    split; [apply normalize_sqrNorm; exact H1|].
    split; [apply normalize_sqrNorm; exact H2'|].
    split; [|split].
    - apply normalize_orthogonal; [exact H0|exact H1|].
      unfold axis1. rewrite dotProduct_comm.
      apply crossProduct_orthogonal_left.
    - apply normalize_orthogonal; [exact H0|exact H2'|exact H02].
    - apply normalize_orthogonal; [exact H1|exact H2'|].
      apply crossProduct_orthogonal_right. }
  split; [|split; reflexivity].
  rewrite (normalize_of_unit axis2 H2). unfold axis2.
  apply normalize_value. exact Hnf.
Qed.

Lemma crossProduct_vscale_left (u v : Vector3D Exact.ops) (a : R) :
  crossProduct (vscale u a) v = vscale (crossProduct u v) a.
Proof.
  destruct u as [u0 u1 u2], v as [v0 v1 v2]. vector_ops. exact_ops.
  f_equal; ring.
Qed.

(** The norm of a scaled vector, and the normalization of a vector scaled
    by a positive factor. *)
Lemma getNorm_vscale (v : Vector3D Exact.ops) (a : R) :
  0 <= a -> getNorm (vscale v a) = a * getNorm v.
Proof.
  intros Ha. unfold getNorm. exact_ops. rewrite getSqrNorm_vscale.
  pose proof (getSqrNorm_nonneg v) as Hs.
  change (@float Exact.ops) with R in *.
  rewrite sqrt_mult by nra. rewrite sqrt_square by exact Ha. reflexivity.
Qed.

Lemma normalize_vscale (v : Vector3D Exact.ops) (a : R) :
  0 < a -> getNorm v <> 0 ->
  snd (normalize (vscale v a)) = snd (normalize v).
Proof.
  intros Ha Hv.
  assert (Hn : getNorm (vscale v a) = a * getNorm v).
  { apply getNorm_vscale. lra. }
  assert (Hne : getNorm (vscale v a) <> 0).
  { rewrite Hn. apply Rmult_integral_contrapositive_currified; [lra|exact Hv]. }
  rewrite (normalize_value _ Hne), (normalize_value _ Hv), Hn.
  set (n := getNorm v) in *. clearbody n.
  destruct v as [v0 v1 v2]. unfold vscale. cbn [x y z]. exact_ops.
  f_equal; field; split; assumption || lra.
Qed.

(** X8.  In exact arithmetic, [setAxis] with [front] and [up] that are not
    parallel (their cross product is not null) logs nothing and stores an
    orthonormal triple of axes: the third is [front] divided by its length,
    the first is the cross product of [front] and [up] divided by its
    length, and the second is the cross product of the first and the third;
    dimension and position are kept. *)
Theorem setAxis_independent_orthonormal :
  forall (b : Box.Box Exact.ops) (front up : Vector3D Exact.ops) (rt : Runtime),
    crossProduct front up <> Real.vec 0 0 0 ->
    exists b' : Box.Box Exact.ops,
      Box.setAxis b front up rt = Some (b', rt)
      /\ orthonormal (Box.axis b')
      /\ at2 (Box.axis b') = vscale front (/ getNorm front)%R
      /\ at0 (Box.axis b')
         = vscale (crossProduct front up) (/ getNorm (crossProduct front up))%R
      /\ at1 (Box.axis b')
         = crossProduct (at0 (Box.axis b')) (at2 (Box.axis b'))
      /\ Box.dimension b' = Box.dimension b
      /\ Box.tPosition b' = Box.tPosition b.
Proof.
  intros b front up rt Hc.
  assert (Hf : front <> Real.vec 0 0 0).
  { intros E. apply Hc. rewrite E. apply crossProduct_null_left. }
  assert (Hu : up <> Real.vec 0 0 0).
  { intros E. apply Hc. rewrite E. apply crossProduct_null_right. }
  assert (Hne : front <> up).
  { intros E. apply Hc. rewrite E. apply crossProduct_self. }
  assert (Hnf : getNorm front <> 0).
  { intros E. apply Hf. apply getNorm_zero_iff. exact E. }
  assert (Hnu : getNorm up <> 0).
  { intros E. apply Hu. apply getNorm_zero_iff. exact E. }
  assert (Hnc : getNorm (crossProduct front up) <> 0).
  { intros E. apply Hc. apply getNorm_zero_iff. exact E. }
  destruct (setAxis_independent_axes b front up rt Hc)
    as (b' & Hrun & Ho & H2 & Hdim & Hpos).
  pose proof (setAxis_unguarded b front up rt (guard_false front up Hne Hf Hu))
    as Hrun'. cbv zeta in Hrun'. rewrite Hrun in Hrun'.
  exists b'. split; [exact Hrun|]. split; [exact Ho|]. split; [exact H2|].
  assert (Hpf : 0 < / getNorm front).
  { apply Rinv_0_lt_compat. pose proof (getNorm_nonneg front). lra. }
  assert (Hpu : 0 < / getNorm up).
  { apply Rinv_0_lt_compat. pose proof (getNorm_nonneg up). lra. }
  assert (E0 : at0 (Box.axis b')
               = vscale (crossProduct front up)
                        (/ getNorm (crossProduct front up))).
  { injection Hrun' as Hb. rewrite Hb. cbn [Box.withAxes Box.axis at0].
    rewrite (normalize_value front Hnf), (normalize_value up Hnu).
    rewrite crossProduct_vscale.
    rewrite normalize_vscale; [|nra|exact Hnc].
    apply normalize_value. exact Hnc. }
  split; [exact E0|]. split; [|split; assumption].
  destruct Ho as (H00 & H11 & H22 & H01 & H02 & H12).
  injection Hrun' as Hb. rewrite Hb. cbn [Box.withAxes Box.axis at0 at1 at2].
  set (f := snd (normalize front)).
  set (a0 := crossProduct f (snd (normalize up))).
  assert (Hfu : getNorm f = 1) by (apply normalize_unit; exact Hnf).
  assert (Ha0 : getNorm a0 <> 0).
  { intros E. apply getNorm_zero_iff in E. subst a0 f.
    rewrite (normalize_value front Hnf), (normalize_value up Hnu) in E.
    rewrite crossProduct_vscale in E. revert E.
    apply vscale_not_null; [exact Hc|]. nra. }
  rewrite (normalize_of_unit f Hfu).
  assert (Hperp : dotProduct a0 f = 0) by apply crossProduct_orthogonal_left.
  assert (Hn1 : getNorm (crossProduct a0 f) = getNorm a0).
  { unfold getNorm. exact_ops. f_equal.
    rewrite crossProduct_sqrNorm, Hperp, (unit_sqrNorm f Hfu).
    change (@float Exact.ops) with R. ring. }
  rewrite (normalize_value (crossProduct a0 f)) by (rewrite Hn1; exact Ha0).
  rewrite (normalize_value a0) by exact Ha0. rewrite Hn1.
  symmetry. apply crossProduct_vscale_left.
Qed.

Lemma Real_independent :
  crossProduct (Real.vec 0 0 2) (Real.vec 0 3 4) <> Real.vec 0 0 0.
Proof.
  unfold Real.vec. vector_ops. exact_ops. intros E.
  pose proof (f_equal x E) as E0. cbn [x] in E0. lra.
Qed.

Lemma setAxis_independent_orthonormal_witness :
  exists b' : Box.Box Exact.ops,
    Box.setAxis Real.box (Real.vec 0 0 2) (Real.vec 0 3 4) Real.start
    = Some (b', Real.start)
    /\ orthonormal (Box.axis b').
Proof.
  destruct (setAxis_independent_orthonormal Real.box (Real.vec 0 0 2)
              (Real.vec 0 3 4) Real.start) as (b' & Hrun & Ho & _).
  - exact Real_independent.
  - exists b'. split; [exact Hrun|exact Ho].
Defined.

End ExactSetAxisResults.

(* ------------------------------------------------------------------ *)
(** ** Box::setAxis and Box::innerUpdateTransform together *)

Section ExactTransform.

Local Open Scope R_scope.

Lemma isometric_orthonormal (t : Vector3D Exact.ops -> Vector3D Exact.ops)
      (a : Array3 Exact.ops) :
  isometric t -> orthonormal a ->
  orthonormal (mkArray3 (t (at0 a)) (t (at1 a)) (t (at2 a))).
Proof.
  intros Ht Ho. unfold orthonormal in *. cbn [at0 at1 at2].
  rewrite !Ht. exact Ho.
Qed.

Lemma orthonormal_units (a : Array3 Exact.ops) :
  orthonormal a ->
  getNorm (at0 a) = 1 /\ getNorm (at1 a) = 1 /\ getNorm (at2 a) = 1.
Proof.
  intros (H0 & H1 & H2 & _).
  unfold getNorm. exact_ops.
  change (getSqrNorm (at0 a)) with (dotProduct (at0 a) (at0 a)).
  change (getSqrNorm (at1 a)) with (dotProduct (at1 a) (at1 a)).
  change (getSqrNorm (at2 a)) with (dotProduct (at2 a) (at2 a)).
  rewrite H0, H1, H2. repeat split; apply sqrt_1.
Qed.

(** On a box whose stored axes are orthonormal, the update of the transform
    keeps the axes and transforms them. *)
Lemma innerUpdateTransform_orthonormal (b : Box.Box Exact.ops)
      (pos : Vector3D Exact.ops)
      (t : Vector3D Exact.ops -> Vector3D Exact.ops) :
  orthonormal (Box.axis b) ->
  Box.innerUpdateTransform b pos t
  = Box.mkBox pos t (Box.dimension b) (Box.axis b)
              (mkArray3 (t (at0 (Box.axis b))) (t (at1 (Box.axis b)))
                        (t (at2 (Box.axis b)))).
Proof.
  intros Ho. destruct (orthonormal_units _ Ho) as (H0 & H1 & H2).
  unfold Box.innerUpdateTransform. cbv zeta.
  rewrite (normalize_of_unit _ H0), (normalize_of_unit _ H1),
          (normalize_of_unit _ H2).
  destruct (Box.axis b) as [a0 a1 a2]. reflexivity.
Qed.

End ExactTransform.

(** X10.  In exact arithmetic: after [setAxis] with [front] and [up] that
    are not parallel, an update of the transform by a transform of
    directions that keeps dot products (a rotation, the identity) leaves a
    box whose transformed axes are orthonormal, the images of the stored
    axes, which are kept; and the update is idempotent: applying it a
    second time changes nothing. *)
Theorem innerUpdateTransform_after_setAxis :
  forall (b b' : Box.Box Exact.ops) (front up pos : Vector3D Exact.ops)
         (t : Vector3D Exact.ops -> Vector3D Exact.ops) (rt rt' : Runtime),
    crossProduct front up <> Real.vec 0 0 0 ->
    isometric t ->
    Box.setAxis b front up rt = Some (b', rt') ->
    let b'' := Box.innerUpdateTransform b' pos t in
    orthonormal (Box.tAxis b'')
    /\ Box.axis b'' = Box.axis b'
    /\ Box.tAxis b''
       = mkArray3 (t (at0 (Box.axis b'))) (t (at1 (Box.axis b')))
                  (t (at2 (Box.axis b')))
    /\ Box.tPosition b'' = pos
    /\ Box.innerUpdateTransform b'' pos t = b''.
Proof.
  intros b b' front up pos t rt rt' Hc Ht Hrun.
  destruct (setAxis_independent_axes b front up rt Hc)
    as (b1 & Hrun1 & Ho & _).
  rewrite Hrun1 in Hrun. inversion Hrun. subst b1 rt'. clear Hrun.
  cbv zeta. rewrite (innerUpdateTransform_orthonormal b' pos t Ho).
  cbn [Box.tAxis Box.axis Box.tPosition].
  split; [apply isometric_orthonormal; assumption|].
  split; [reflexivity|]. split; [reflexivity|]. split; [reflexivity|].
  rewrite innerUpdateTransform_orthonormal by exact Ho.
  reflexivity.
Qed.

Lemma identity_isometric : isometric (fun dir : Vector3D Exact.ops => dir).
Proof. intros u v. reflexivity. Qed.

Lemma innerUpdateTransform_after_setAxis_witness :
  exists b' : Box.Box Exact.ops,
    Box.setAxis Real.box (Real.vec 0 0 2) (Real.vec 0 3 4) Real.start
    = Some (b', Real.start)
    /\ orthonormal
         (Box.tAxis (Box.innerUpdateTransform b' (Real.vec 0 0 0)
                                              (fun dir => dir))).
Proof.
  destruct (setAxis_independent_axes Real.box (Real.vec 0 0 2)
              (Real.vec 0 3 4) Real.start Real_independent)
    as (b' & Hrun & _).
  exists b'. split; [exact Hrun|].
  exact (proj1 (innerUpdateTransform_after_setAxis Real.box b'
                  (Real.vec 0 0 2) (Real.vec 0 3 4) (Real.vec 0 0 0)
                  (fun dir => dir) Real.start Real.start
                  Real_independent identity_isometric Hrun)).
Defined.

Section ExactTransformedAxes.

Local Open Scope R_scope.

Lemma normalized_dot (u v : Vector3D Exact.ops) :
  getNorm u <> 0 -> getNorm v <> 0 ->
  dotProduct (snd (normalize u)) (snd (normalize v)) = cosine u v.
Proof.
  intros Hu Hv. rewrite !normalize_value by assumption.
  rewrite dotProduct_vscale. unfold cosine. exact_ops. field. tauto.
Qed.

(** The transformed axes as [setAxis] leaves them, for [front] and [up]
    that are not parallel: images of the cross products, before their
    normalization. *)
Lemma setAxis_independent_tAxis
      (b : Box.Box Exact.ops) (front up : Vector3D Exact.ops) (rt : Runtime) :
  crossProduct front up <> Real.vec 0 0 0 ->
  exists b' : Box.Box Exact.ops,
    Box.setAxis b front up rt = Some (b', rt)
    /\ Box.tAxis b'
       = (let axis2 := snd (normalize front) in
          let axis0 := crossProduct axis2 (snd (normalize up)) in
          let axis1 := crossProduct axis0 axis2 in
          mkArray3 (Box.transformDir b axis0) (Box.transformDir b axis1)
                   (Box.transformDir b axis2))
    /\ getNorm front <> 0 /\ getNorm up <> 0.
Proof.
  intros Hc.
  assert (Hf : front <> Real.vec 0 0 0).
  { intros E. apply Hc. rewrite E. apply crossProduct_null_left. }
  assert (Hu : up <> Real.vec 0 0 0).
  { intros E. apply Hc. rewrite E. apply crossProduct_null_right. }
  assert (Hne : front <> up).
  { intros E. apply Hc. rewrite E. apply crossProduct_self. }
  eexists. split.
  - apply (setAxis_unguarded b front up rt (guard_false front up Hne Hf Hu)).
  - cbn [Box.withAxes Box.tAxis]. split; [reflexivity|]. split.
    + intros E. apply Hf. apply getNorm_zero_iff. exact E.
    + intros E. apply Hu. apply getNorm_zero_iff. exact E.
Qed.

End ExactTransformedAxes.

Section ExactTransformedAxesResult.

Local Open Scope R_scope.

(** X11.  In exact arithmetic, for [front] and [up] that are not parallel
    and a zone transform that keeps dot products: right after [setAxis]
    (before any update of the transform) the transformed axes are
    orthogonal two by two, [tAxis[2]] has length 1, and [tAxis[0]] and
    [tAxis[1]] have squared length [1 - c^2], [c] being the cosine of the
    angle between [front] and [up]: they are unit vectors exactly when
    [front] and [up] are perpendicular. *)
Theorem setAxis_transformed_axes_lengths :
  forall (b b' : Box.Box Exact.ops) (front up : Vector3D Exact.ops)
         (rt rt' : Runtime),
    crossProduct front up <> Real.vec 0 0 0 ->
    isometric (Box.transformDir b) ->
    Box.setAxis b front up rt = Some (b', rt') ->
    getSqrNorm (at0 (Box.tAxis b')) = 1 - cosine front up * cosine front up
    /\ getSqrNorm (at1 (Box.tAxis b')) = 1 - cosine front up * cosine front up
    /\ getSqrNorm (at2 (Box.tAxis b')) = 1
    /\ dotProduct (at0 (Box.tAxis b')) (at1 (Box.tAxis b')) = 0
    /\ dotProduct (at0 (Box.tAxis b')) (at2 (Box.tAxis b')) = 0
    /\ dotProduct (at1 (Box.tAxis b')) (at2 (Box.tAxis b')) = 0
    /\ (orthonormal (Box.tAxis b') <-> dotProduct front up = 0).
Proof.
  intros b b' front up rt rt' Hc Ht Hrun.
  destruct (setAxis_independent_tAxis b front up rt Hc)
    as (b1 & Hrun1 & HtA & Hnf & Hnu).
  rewrite Hrun1 in Hrun. inversion Hrun. subst b1 rt'. clear Hrun.
  cbv zeta in HtA. rewrite HtA. cbn [at0 at1 at2].
  set (f := snd (normalize front)) in *.
  set (u := snd (normalize up)) in *.
  assert (Hf : getSqrNorm f = 1).
  { apply unit_sqrNorm. apply normalize_unit. exact Hnf. }
  assert (Hu : getSqrNorm u = 1).
  { apply unit_sqrNorm. apply normalize_unit. exact Hnu. }
  assert (Hfu : dotProduct f u = cosine front up).
  { apply normalized_dot; assumption. }
  set (c := cosine front up) in *.
  assert (H0 : getSqrNorm (crossProduct f u) = 1 - c * c).
  { rewrite crossProduct_sqrNorm, Hf, Hu, Hfu. exact_ops. ring. }
  assert (H02 : dotProduct (crossProduct f u) f = 0).
  { apply crossProduct_orthogonal_left. }
  assert (H1 : getSqrNorm (crossProduct (crossProduct f u) f) = 1 - c * c).
  { rewrite crossProduct_sqrNorm, H02, H0, Hf. exact_ops. ring. }
  assert (N0 : getSqrNorm (Box.transformDir b (crossProduct f u)) = 1 - c * c).
  { change (getSqrNorm (Box.transformDir b (crossProduct f u)))
      with (dotProduct (Box.transformDir b (crossProduct f u))
                       (Box.transformDir b (crossProduct f u))).
    rewrite Ht. exact H0. }
  assert (N1 : getSqrNorm (Box.transformDir b
                             (crossProduct (crossProduct f u) f)) = 1 - c * c).
  { change (getSqrNorm (Box.transformDir b (crossProduct (crossProduct f u) f)))
      with (dotProduct (Box.transformDir b (crossProduct (crossProduct f u) f))
                       (Box.transformDir b (crossProduct (crossProduct f u) f))).
    rewrite Ht. exact H1. }
  assert (N2 : getSqrNorm (Box.transformDir b f) = 1).
  { change (getSqrNorm (Box.transformDir b f))
      with (dotProduct (Box.transformDir b f) (Box.transformDir b f)).
    rewrite Ht. exact Hf. }
  assert (D01 : dotProduct (Box.transformDir b (crossProduct f u))
                  (Box.transformDir b (crossProduct (crossProduct f u) f)) = 0).
  { rewrite Ht, dotProduct_comm. apply crossProduct_orthogonal_left. }
  assert (D02 : dotProduct (Box.transformDir b (crossProduct f u))
                           (Box.transformDir b f) = 0).
  { rewrite Ht. exact H02. }
  assert (D12 : dotProduct (Box.transformDir b
                              (crossProduct (crossProduct f u) f))
                           (Box.transformDir b f) = 0).
  { rewrite Ht. apply crossProduct_orthogonal_right. }
  repeat (split; [assumption|]).
  assert (Hcos : c = 0 <-> dotProduct front up = 0).
  { subst c. unfold cosine. exact_ops. split; intros H.
    - apply (Rmult_eq_reg_r (/ (getNorm front * getNorm up))).
      + rewrite Rmult_0_l. exact H.
      + apply Rinv_neq_0_compat.
        apply Rmult_integral_contrapositive_currified; assumption.
    - rewrite H. unfold Rdiv. apply Rmult_0_l. }
  unfold orthonormal. cbn [at0 at1 at2].
  change (dotProduct (Box.transformDir b (crossProduct f u))
                     (Box.transformDir b (crossProduct f u)))
    with (getSqrNorm (Box.transformDir b (crossProduct f u))).
  change (dotProduct (Box.transformDir b (crossProduct (crossProduct f u) f))
                     (Box.transformDir b (crossProduct (crossProduct f u) f)))
    with (getSqrNorm (Box.transformDir b (crossProduct (crossProduct f u) f))).
  change (dotProduct (Box.transformDir b f) (Box.transformDir b f))
    with (getSqrNorm (Box.transformDir b f)).
  rewrite N0, N1, N2, D01, D02, D12. rewrite <- Hcos. split.
  - intros (E & _). nra.
  - intros E. rewrite E. repeat split; exact_ops; ring.
Qed.

Lemma setAxis_transformed_axes_lengths_witness :
  exists b' : Box.Box Exact.ops,
    Box.setAxis Real.box (Real.vec 0 0 2) (Real.vec 0 3 4) Real.start
    = Some (b', Real.start)
    /\ getSqrNorm (at0 (Box.tAxis b'))
       = 1 - cosine (Real.vec 0 0 2) (Real.vec 0 3 4)
             * cosine (Real.vec 0 0 2) (Real.vec 0 3 4).
Proof.
  destruct (setAxis_independent_tAxis Real.box (Real.vec 0 0 2)
              (Real.vec 0 3 4) Real.start Real_independent)
    as (b' & Hrun & _).
  exists b'. split; [exact Hrun|].
  exact (proj1 (setAxis_transformed_axes_lengths Real.box b'
                  (Real.vec 0 0 2) (Real.vec 0 3 4) Real.start Real.start
                  Real_independent identity_isometric Hrun)).
Defined.

End ExactTransformedAxesResult.

(* ------------------------------------------------------------------ *)
(** ** Box::generateRandomDim and Box::generatePosition *)

Section ExactSamplingTools.

Local Open Scope R_scope.

Lemma fmax_is_Rmax (a c : R) : @fmax Exact.ops a c = Rmax a c.
Proof.
  unfold fmax, Rmax. exact_ops. unfold Exact.Rltb.
  destruct (Rlt_dec a c), (Rle_dec a c); try reflexivity; lra.
Qed.

Lemma draw_within_strict (d r : R) :
  0 <= d -> 0 <= r < 1 -> Rabs (- d + r * (d - - d)) <= d.
Proof. intros Hd Hr. apply draw_within; lra. Qed.

(** The face chosen from the number drawn in [0 .. 5]: an axis below 3 and
    a direction -1 or 1. *)
Lemma face_of_number (n : Z) :
  (0 <= n < 6)%Z ->
  (Z.to_nat (Z.shiftr n 1) < 3)%nat
  /\ ((Z.shiftl (Z.land n 1) 1 - 1 = -1)%Z
      \/ (Z.shiftl (Z.land n 1) 1 - 1 = 1)%Z).
Proof.
  intros Hn.
  assert (H : (n = 0 \/ n = 1 \/ n = 2 \/ n = 3 \/ n = 4 \/ n = 5)%Z) by lia.
  destruct H as [->|[->|[->|[->|[->| ->]]]]]; cbn; split; lia || auto.
Qed.

End ExactSamplingTools.

Section ExactSampling.

Local Open Scope R_scope.

(** X12.  In exact arithmetic and on a valid seed,
    [generateRandomDim(full = true, radius)] makes one draw and yields an
    offset whose component on every axis is at most
    [max(0, dimension - radius)] in absolute value: the radius is taken off
    every half-size before the draw, and on an axis whose half-size does
    not exceed the radius the offset is 0.  [generatePosition] adds the
    transformed axes scaled by these offsets to the transformed
    position. *)
Theorem generateRandomDim_full_within_shrunk_box :
  forall (b : Box.Box Exact.ops) (radius : R) (rt : Runtime),
    validSeed (randomSeed rt) ->
    exists (c : Vector3D Exact.ops) (rt' : Runtime),
      Box.generateRandomDim b true radius rt = Some (c, rt')
      /\ randomSeed rt' = nextSeed (randomSeed rt)
      /\ validSeed (randomSeed rt')
      /\ logged rt' = logged rt
      /\ (forall i : nat, (i < 3)%nat ->
            Rabs (vget c i) <= Rmax 0 (vget (Box.dimension b) i - radius))
      /\ (forall i : nat, (i < 3)%nat ->
            vget (Box.dimension b) i <= radius -> vget c i = 0)
      /\ Box.generatePosition b true radius rt
         = Some (vadd (vadd (vadd (Box.tPosition b)
                                  (fscale (vget c 0) (aget (Box.tAxis b) 0)))
                            (fscale (vget c 1) (aget (Box.tAxis b) 1)))
                      (fscale (vget c 2) (aget (Box.tAxis b) 2)), rt').
Proof.
  intros b radius rt Hseed.
  destruct (nextSeed_minimal_standard (randomSeed rt) Hseed) as [_ Hnext].
  pose proof (validSeed_ratio (randomSeed rt) Hseed) as Hr.
  set (r := @seedRatio Exact.ops (seedMinusOne (nextSeed (randomSeed rt)))) in *.
  unfold Box.generatePosition, Box.generateRandomDim, generateRandomVector,
         bind, ret.
  fold r. eexists. eexists. split; [reflexivity|].
  cbn [randomSeed logged].
  split; [reflexivity|]. split; [exact Hnext|]. split; [reflexivity|].
  set (rel := setMax vzero (vsubf (Box.dimension b) radius)).
  set (c := vadd (vopp rel) (fscale r (vsub rel (vopp rel)))).
  assert (Hrel : forall i : nat, (i < 3)%nat ->
            vget rel i = Rmax 0 (vget (Box.dimension b) i - radius)).
  { intros i Hi. subst rel. unfold setMax, vsubf, vzero. cbn [x y z].
    rewrite !fmax_is_Rmax. exact_ops.
    destruct i as [|[|[|i]]]; cbn [vget x y z]; try reflexivity; lia. }
  assert (Hc : forall i : nat, (i < 3)%nat -> Rabs (vget c i) <= vget rel i).
  { intros i Hi.
    assert (Hpos : 0 <= vget rel i).
    { rewrite (Hrel i Hi). apply Rmax_l. }
    subst c. destruct rel as [r0 r1 r2]. unfold vadd, vopp, fscale, vsub.
    cbn [x y z] in *. exact_ops.
    destruct i as [|[|[|i]]]; cbn [vget x y z] in *; try lia;
      apply draw_within_strict; assumption. }
  split; [|split; [|reflexivity]].
  - intros i Hi. rewrite <- (Hrel i Hi). apply Hc. exact Hi.
  - intros i Hi Hle. pose proof (Hc i Hi) as B. rewrite (Hrel i Hi) in B.
    rewrite Rmax_left in B by lra.
    pose proof (Rabs_pos (vget c i)) as P.
    destruct (Req_dec (vget c i) 0) as [E|E]; [exact E|].
    apply Rabs_pos_lt in E. lra.
Qed.

Lemma generateRandomDim_full_within_shrunk_box_witness :
  exists (c : Vector3D Exact.ops) (rt' : Runtime),
    Box.generateRandomDim Real.box true 2%R Real.start = Some (c, rt')
    /\ validSeed (randomSeed rt')
    /\ x c = 0 /\ y c = 0 /\ Rabs (z c) <= 1.
Proof.
  destruct (generateRandomDim_full_within_shrunk_box Real.box 2%R Real.start)
    as (c & rt' & Hrun & _ & Hs & _ & Hin & Hnull & _).
  - unfold validSeed, Real.start. cbn [randomSeed]. lia.
  - exists c, rt'. split; [exact Hrun|]. split; [exact Hs|].
    split; [|split].
    + apply (Hnull 0%nat); [lia|].
      unfold Real.box, Real.vec. cbn [Box.dimension vget x]. lra.
    + apply (Hnull 1%nat); [lia|].
      unfold Real.box, Real.vec. cbn [Box.dimension vget y]. lra.
    + pose proof (Hin 2%nat ltac:(lia)) as B.
      unfold Real.box, Real.vec in B. cbn [Box.dimension vget z] in B.
      replace (3 - 2) with 1 in B by ring.
      rewrite Rmax_right in B by lra. exact B.
Defined.

End ExactSampling.
Section ExactSurface.

Local Open Scope R_scope.

Lemma vget_vset_same (c : Vector3D Exact.ops) (i : nat) (a : R) :
  (i < 3)%nat -> vget (vset c i a) i = a.
Proof.
  intros Hi. destruct i as [|[|[|i]]]; try lia; reflexivity.
Qed.

Lemma vget_vset_other (c : Vector3D Exact.ops) (i j : nat) (a : R) :
  (i < 3)%nat -> (j < 3)%nat -> i <> j -> vget (vset c i a) j = vget c j.
Proof.
  intros Hi Hj Hne.
  destruct i as [|[|[|i]]]; try lia;
    destruct j as [|[|[|j]]]; try lia; reflexivity.
Qed.

(** X13.  In exact arithmetic and on a valid seed,
    [generateRandomDim(full = false, radius)] draws twice from the
    generator and yields an offset on a face of the box: on one axis its
    component is the half-size of that axis or the opposite of it, as
    stored, and, the half-sizes being non-negative, on every axis it is
    within the half-size.  The radius plays no part.  [generatePosition]
    adds the transformed axes scaled by these offsets to the transformed
    position. *)
Theorem generateRandomDim_surface_on_a_face :
  forall (b : Box.Box Exact.ops) (radius : R) (rt : Runtime),
    validSeed (randomSeed rt) ->
    exists (c : Vector3D Exact.ops) (rt' : Runtime),
      Box.generateRandomDim b false radius rt = Some (c, rt')
      /\ randomSeed rt' = nextSeed (nextSeed (randomSeed rt))
      /\ validSeed (randomSeed rt')
      /\ logged rt' = logged rt
      /\ (exists k : nat,
            (k < 3)%nat
            /\ (vget c k = vget (Box.dimension b) k
                \/ vget c k = - vget (Box.dimension b) k))
      /\ (0 <= x (Box.dimension b) -> 0 <= y (Box.dimension b) ->
          0 <= z (Box.dimension b) ->
          forall i : nat, (i < 3)%nat ->
            Rabs (vget c i) <= vget (Box.dimension b) i)
      /\ Box.generateRandomDim b false 0 rt = Some (c, rt')
      /\ Box.generatePosition b false radius rt
         = Some (vadd (vadd (vadd (Box.tPosition b)
                                  (fscale (vget c 0) (aget (Box.tAxis b) 0)))
                            (fscale (vget c 1) (aget (Box.tAxis b) 1)))
                      (fscale (vget c 2) (aget (Box.tAxis b) 2)), rt').
Proof.
  intros b radius rt Hseed.
  pose proof (validSeed_ratio (randomSeed rt) Hseed) as Hr.
  destruct (nextSeed_minimal_standard (randomSeed rt) Hseed) as [_ Hs1].
  set (r := @seedRatio Exact.ops (seedMinusOne (nextSeed (randomSeed rt)))) in *.
  set (c := vadd (vopp (Box.dimension b))
                 (fscale r (vsub (Box.dimension b) (vopp (Box.dimension b))))).
  set (rt1 := mkRuntime (nextSeed (randomSeed rt)) (logged rt)).
  assert (Hdraw : generateRandomVector (vopp (Box.dimension b))
                                       (Box.dimension b) rt = Some (c, rt1)).
  { reflexivity. }
  destruct (generateRandomInt_bounds 0 6 rt1 Hs1 ltac:(lia))
    as (n & rt2 & Hint & Hs2 & Hlog2 & Hn).
  assert (Hseed2 : randomSeed rt2 = nextSeed (nextSeed (randomSeed rt))).
  { unfold generateRandomInt in Hint. inversion Hint. reflexivity. }
  destruct (face_of_number n Hn) as [Hk Hdir].
  set (k := Z.to_nat (Z.shiftr n 1)) in *.
  set (dir := (Z.shiftl (Z.land n 1) 1 - 1)%Z) in *.
  set (c' := vset c k (@fmul Exact.ops (ofZ dir) (vget (Box.dimension b) k))).
  assert (Hdim : forall radius0 : R,
            Box.generateRandomDim b false radius0 rt = Some (c', rt2)).
  { intros radius0. unfold Box.generateRandomDim, bind.
    rewrite Hdraw, Hint. reflexivity. }
  assert (Hface : vget c' k = vget (Box.dimension b) k
                  \/ vget c' k = - vget (Box.dimension b) k).
  { subst c'. rewrite vget_vset_same by exact Hk. exact_ops.
    destruct Hdir as [-> | ->]; [right|left]; ring. }
  exists c', rt2. split; [apply Hdim|].
  split; [exact Hseed2|]. split; [exact Hs2|].
  split; [rewrite Hlog2; reflexivity|].
  split; [exists k; split; [exact Hk|exact Hface]|].
  split; [|split; [apply Hdim|]].
  - intros Hx Hy Hz i Hi.
    assert (Hd : 0 <= vget (Box.dimension b) i).
    { destruct i as [|[|[|i]]]; cbn [vget]; assumption || lia. }
    destruct (Nat.eq_dec k i) as [<-|Hne].
    + destruct Hface as [-> | ->].
      * rewrite Rabs_right by lra. lra.
      * rewrite Rabs_Ropp. rewrite Rabs_right by lra. lra.
    + subst c'. rewrite vget_vset_other by assumption.
      subst c. destruct (Box.dimension b) as [d0 d1 d2].
      unfold vadd, vopp, fscale, vsub. cbn [x y z vget] in *. exact_ops.
      destruct i as [|[|[|i]]]; cbn [vget x y z] in *; try lia;
        apply draw_within_strict; assumption.
  - unfold Box.generatePosition, bind. rewrite (Hdim radius). reflexivity.
Qed.

Lemma generateRandomDim_surface_on_a_face_witness :
  exists (c : Vector3D Exact.ops) (rt' : Runtime),
    Box.generateRandomDim Real.box false 1%R Real.start = Some (c, rt')
    /\ Box.generateRandomDim Real.box false 0%R Real.start = Some (c, rt')
    /\ randomSeed rt' = nextSeed (nextSeed 1).
Proof.
  destruct (generateRandomDim_surface_on_a_face Real.box 1%R Real.start)
    as (c & rt' & Hrun & Hseed & _ & _ & _ & _ & Hzero & _).
  - unfold validSeed, Real.start. cbn [randomSeed]. lia.
  - exists c, rt'. split; [exact Hrun|]. split; [exact Hzero|exact Hseed].
Defined.

End ExactSurface.

(* ------------------------------------------------------------------ *)
(** ** Obstacle::modify *)

Section ExactBounceGeneral.

Local Open Scope R_scope.

(** The velocity after the bounce is the velocity scaled by the friction,
    moved along the normal. *)
Lemma bounce_decomposition (o : Obstacle.Obstacle Exact.ops)
      (v n : Vector3D Exact.ops) :
  let d := dotProduct v n in
  let s := if Exact.Rltb 0 d then 1 else -1 in
  Obstacle.bounce o v n
  = vsub (vscale v (Obstacle.friction o))
         (vscale n ((d - 1 / 1000)
                    * (Obstacle.friction o - s * Obstacle.bouncingRatio o))).
Proof.
  cbv zeta. unfold Obstacle.bounce. cbv zeta. exact_ops.
  destruct (Exact.Rltb 0 (dotProduct v n));
    destruct v as [a b c], n as [n0 n1 n2];
    vector_ops; exact_ops; f_equal; field.
Qed.

Lemma moved_scaled_along_normal (v n : Vector3D Exact.ops) (f k : R) :
  getSqrNorm n = 1 ->
  let v' := vsub (vscale v f) (vscale n k) in
  dotProduct v' n = f * dotProduct v n - k
  /\ vsub v' (vscale n (dotProduct v' n))
     = vscale (vsub v (vscale n (dotProduct v n))) f.
Proof.
  intros Hn v'. subst v'. destruct v as [a b c], n as [n0 n1 n2].
  vector_ops. exact_ops.
  assert (E : (a * f - n0 * k) * n0 + (b * f - n1 * k) * n1
              + (c * f - n2 * k) * n2
              = f * (a * n0 + b * n1 + c * n2) - k).
  { transitivity (f * (a * n0 + b * n1 + c * n2)
                  - k * (n0 * n0 + n1 * n1 + n2 * n2)); [ring|].
    rewrite Hn. ring. }
  split; [exact E|]. rewrite E. f_equal; ring.
Qed.

(** X14.  In exact arithmetic, for any coefficients and a unit normal [n],
    with [d = dot(velocity, n)]: the bounce multiplies the part of the
    velocity tangent to [n] by [friction], and leaves on the normal the
    component [0.001 friction + bouncingRatio (d - 0.001)] when [d > 0] and
    [0.001 friction + bouncingRatio (0.001 - d)] when [d <= 0].  With
    coefficients that are not negative and [d] outside of [(0, 0.001)], the
    velocity after the bounce never points against the normal. *)
Theorem bounce_tangent_and_normal :
  forall (o : Obstacle.Obstacle Exact.ops) (v n : Vector3D Exact.ops),
    getNorm n = 1 ->
    let d := dotProduct v n in
    let v' := Obstacle.bounce o v n in
    vsub v' (vscale n (dotProduct v' n))
    = vscale (vsub v (vscale n d)) (Obstacle.friction o)
    /\ (0 < d ->
        dotProduct v' n
        = 1 / 1000 * Obstacle.friction o
          + Obstacle.bouncingRatio o * (d - 1 / 1000))
    /\ (d <= 0 ->
        dotProduct v' n
        = 1 / 1000 * Obstacle.friction o
          + Obstacle.bouncingRatio o * (1 / 1000 - d))
    /\ (0 <= Obstacle.friction o -> 0 <= Obstacle.bouncingRatio o ->
        d <= 0 \/ 1 / 1000 <= d ->
        0 <= dotProduct v' n).
Proof.
  intros o v n Hunit d v'. apply unit_sqrNorm in Hunit.
  subst v'. rewrite bounce_decomposition. cbv zeta. fold d.
  set (s := if Exact.Rltb 0 d then 1 else -1).
  destruct (moved_scaled_along_normal v n (Obstacle.friction o)
              ((d - 1 / 1000)
               * (Obstacle.friction o - s * Obstacle.bouncingRatio o)) Hunit)
    as [Edot Etan].
  cbv zeta in Edot, Etan. fold d in Edot, Etan.
  split; [exact Etan|]. rewrite Edot.
  assert (Hs : (0 < d -> s = 1) /\ (d <= 0 -> s = -1)).
  { subst s. destruct (Exact.Rltb 0 d) eqn:E.
    - apply Rltb_true in E. split; [reflexivity|]. intros H. lra.
    - apply Rltb_false in E. split; [intros H; lra|reflexivity]. }
  destruct Hs as [Hs1 Hs2].
  split; [|split].
  - intros H. rewrite (Hs1 H). change (@float Exact.ops) with R. field.
  - intros H. rewrite (Hs2 H). change (@float Exact.ops) with R. field.
  - intros Hf Hb [H|H].
    + rewrite (Hs2 H). change (@float Exact.ops) with R in *. nra.
    + rewrite Hs1 by lra. change (@float Exact.ops) with R in *. nra.
Qed.

Lemma bounce_tangent_and_normal_witness :
  (0 <= dotProduct (Obstacle.bounce Real.elastic (Real.vec 3 0 (-2))
                                    (Real.vec 0 0 1))
                   (Real.vec 0 0 1)).
Proof.
  assert (Hd : dotProduct (Real.vec 3 0 (-2)) (Real.vec 0 0 1) = -2).
  { unfold Real.vec. vector_ops. exact_ops. ring. }
  apply (proj2 (proj2 (proj2 (bounce_tangent_and_normal Real.elastic
                                (Real.vec 3 0 (-2)) (Real.vec 0 0 1)
                                Real_vec_norm_z)))).
  - unfold Real.elastic. cbn [Obstacle.friction]. lra.
  - unfold Real.elastic. cbn [Obstacle.bouncingRatio]. lra.
  - left. rewrite Hd. lra.
Defined.

End ExactBounceGeneral.
Section ModifyAll.

Context {F : FloatOps}.
Variable randomUnitVector : M (Vector3D F).
Variable checkZone : Obstacle.Obstacle F -> Obstacle.Particle F -> M bool.

Lemma modifyParticle_result (o : Obstacle.Obstacle F)
      (p p' : Obstacle.Particle F) (rt rt' : Runtime) :
  Obstacle.modifyParticle randomUnitVector checkZone o p rt = Some (p', rt') ->
  Obstacle.oldPosition p' = Obstacle.oldPosition p
  /\ ((exists rt1 : Runtime,
         checkZone o p rt = Some (true, rt1)
         /\ Obstacle.position p' = Obstacle.oldPosition p
         /\ exists normal : Vector3D F,
             Zone.computeNormal randomUnitVector (Obstacle.zone o)
                                (Obstacle.oldPosition p) rt1 = Some (normal, rt')
             /\ Obstacle.velocity p'
                = Obstacle.bounce o (Obstacle.velocity p) normal)
      \/ (checkZone o p rt = Some (false, rt') /\ p' = p)).
Proof.
  unfold Obstacle.modifyParticle. intros H.
  apply bind_Some in H. destruct H as (triggered & rt1 & Hc & H).
  destruct triggered.
  - apply bind_Some in H. destruct H as (n & rt2 & Hn & H).
    apply ret_Some in H. destruct H as [<- <-].
    cbn [Obstacle.oldPosition Obstacle.position Obstacle.velocity].
    split; [reflexivity|]. left. exists rt1. split; [exact Hc|].
    split; [reflexivity|]. exists n. split; [exact Hn|reflexivity].
  - apply ret_Some in H. destruct H as [<- <-].
    split; [reflexivity|]. right. split; [exact Hc|reflexivity].
Qed.

End ModifyAll.

(** X15.  In any arithmetic and for any zone test: a run of
    [Obstacle::modify] that completes gives a group of the same particles in
    the same order, where no old position has changed, every particle whose
    test triggered sits at its old position, and every other particle is
    untouched. *)
Theorem modify_reverts_triggered_particles :
  forall (F : FloatOps) (randomUnitVector : M (Vector3D F))
         (checkZone : Obstacle.Obstacle F -> Obstacle.Particle F -> M bool)
         (o : Obstacle.Obstacle F) (group group' : list (Obstacle.Particle F))
         (deltaTime : float) (rt rt' : Runtime),
    Obstacle.modify randomUnitVector checkZone o group deltaTime rt
    = Some (group', rt') ->
    Forall2 (fun p p' : Obstacle.Particle F =>
               Obstacle.oldPosition p' = Obstacle.oldPosition p
               /\ ((exists rt0 rt1 : Runtime,
                      checkZone o p rt0 = Some (true, rt1))
                   /\ Obstacle.position p' = Obstacle.oldPosition p
                   \/ (exists rt0 rt1 : Runtime,
                         checkZone o p rt0 = Some (false, rt1))
                      /\ p' = p))
            group group'.
Proof.
  intros F rnd chk o group. induction group as [|q group IH];
    intros group' dt rt rt' H.
  - cbn in H. apply ret_Some in H. destruct H as [<- _]. constructor.
  - apply modify_cons in H. destruct H as (q' & rt1 & rest' & Hq & Hrest & ->).
    constructor; [|eapply IH; exact Hrest].
    apply modifyParticle_result in Hq.
    destruct Hq as (Hold & [(rt2 & Hc & Hpos & _) | (Hc & Hsame)]).
    + split; [exact Hold|]. left. split; [|exact Hpos].
      exists rt, rt2. exact Hc.
    + split; [exact Hold|]. right. split; [|exact Hsame].
      exists rt, rt1. exact Hc.
Qed.

Lemma modify_reverts_triggered_particles_witness :
  Forall2 (fun p p' : Obstacle.Particle Binary32.ops =>
             Obstacle.oldPosition p' = Obstacle.oldPosition p
             /\ ((exists rt0 rt1 : Runtime,
                    Single.moved Single.elastic p rt0 = Some (true, rt1))
                 /\ Obstacle.position p' = Obstacle.oldPosition p
                 \/ (exists rt0 rt1 : Runtime,
                       Single.moved Single.elastic p rt0 = Some (false, rt1))
                    /\ p' = p))
          [Single.shifted; Single.still] [Single.arrived; Single.still].
Proof.
  apply (modify_reverts_triggered_particles Binary32.ops Single.fallback
           Single.moved Single.elastic [Single.shifted; Single.still]
           [Single.arrived; Single.still] (Binary32.of_Z 1)
           Single.start Single.start).
  reflexivity.
Defined.

(** X16.  In any arithmetic and for any zone test: on a Box zone
    [Obstacle::modify] is the zone tests of the particles, run in the order
    of the group, followed by a function of their answers.  It aborts only
    where a test aborts and leaves the process in the state the tests leave
    it in (the body of the loop draws no random number and logs nothing of
    its own, [Box::computeNormal] touching nothing); a particle whose test
    has triggered is sent to its old position with its velocity bounced on
    [Box::computeNormal] of the old position, the others are kept. *)
Theorem modify_on_box_is_a_map :
  forall (F : FloatOps) (randomUnitVector : M (Vector3D F))
         (checkZone : Obstacle.Obstacle F -> Obstacle.Particle F -> M bool)
         (o : Obstacle.Obstacle F) (b : Box.Box F)
         (group : list (Obstacle.Particle F)) (deltaTime : float)
         (rt : Runtime),
    Obstacle.zone o = Zone.OfBox b ->
    Obstacle.modify randomUnitVector checkZone o group deltaTime rt
    = match checkZones checkZone o group rt with
      | Some (answers, rt') =>
          Some (List.map (fun tp : bool * Obstacle.Particle F =>
                            bouncedOnBox o b (fst tp) (snd tp))
                         (List.combine answers group), rt')
      | None => None
      end.
Proof.
  intros F rnd chk o b group dt rt Hz. revert rt.
  induction group as [|q group IH]; intros rt.
  - reflexivity.
  - cbn [Obstacle.modify checkZones]. unfold bind at 1 3.
    unfold Obstacle.modifyParticle. unfold bind at 1.
    destruct (chk o q rt) as [[triggered rt1]|]; [|reflexivity].
    destruct triggered.
    + rewrite Hz. cbn [Zone.computeNormal]. unfold bind at 1. unfold ret at 1.
      unfold ret at 1. unfold bind. rewrite IH.
      destruct (checkZones chk o group rt1) as [[answers rt2]|]; reflexivity.
    + unfold ret at 1. unfold bind. rewrite IH.
      destruct (checkZones chk o group rt1) as [[answers rt2]|]; reflexivity.
Qed.

Lemma modify_on_box_is_a_map_witness :
  Obstacle.modify Single.fallback Single.crossing Single.wall
                  [Single.entering; Single.hovering] (Binary32.of_Z 1)
                  Single.start
  = Some ([bouncedOnBox Single.wall Single.canonical true Single.entering;
           Single.hovering],
          mkRuntime 1 [LogInfo intersectsNotice; LogInfo intersectsNotice]).
Proof.
  rewrite (modify_on_box_is_a_map Binary32.ops Single.fallback Single.crossing
             Single.wall Single.canonical
             [Single.entering; Single.hovering] (Binary32.of_Z 1)
             Single.start eq_refl).
  reflexivity.
Defined.

(* ------------------------------------------------------------------ *)
(** ** Emitter::Emitter *)

Section Constructor.

Context {F : FloatOps} {O : FloatOrder F} {L : FloatLaws F}.
Local Open Scope float_scope.

Lemma setTank_flow_one (e : Emitter.Emitter F) (tank : Z) (rt : Runtime) :
  Emitter.flow e = ofZ 1 ->
  Emitter.setTank e tank rt = Some (Emitter.withTank e tank, rt).
Proof.
  intros Hf. unfold Emitter.setTank, bind, SPK_ASSERT. rewrite Hf.
  rewrite zero_le_one. reflexivity.
Qed.

Lemma setFlow_passes (e : Emitter.Emitter F) (flow : float) (rt : Runtime) :
  (flow >= ofZ 0) || (Emitter.tank e >=? 0)%Z = true ->
  Emitter.setFlow e flow rt = Some (Emitter.withFlow e flow, rt).
Proof.
  intros H. unfold Emitter.setFlow, bind, SPK_ASSERT. rewrite H. reflexivity.
Qed.

Lemma setFlow_fails (e : Emitter.Emitter F) (flow : float) (rt : Runtime) :
  (flow >= ofZ 0) || (Emitter.tank e >=? 0)%Z = false ->
  Emitter.setFlow e flow rt = None.
Proof.
  intros H. unfold Emitter.setFlow, bind, SPK_ASSERT. rewrite H. reflexivity.
Qed.

Lemma newEmitter_run (raw : Emitter.Emitter F) (zone : Zone.Zone F)
      (full : bool) (tank : Z) (flow forceMin forceMax : float) (rt : Runtime) :
  Emitter.newEmitter raw zone full tank flow forceMin forceMax rt
  = if (flow >= ofZ 0) || (tank >=? 0)%Z
    then Emitter.setForce
           (Emitter.mkEmitter true zone (Emitter.full raw) tank flow
                              (Emitter.forceMin raw) (Emitter.forceMax raw)
                              (ofZ 0))
           forceMin forceMax rt
    else None.
Proof.
  unfold Emitter.newEmitter. unfold bind at 1.
  rewrite setTank_flow_one by reflexivity.
  unfold bind at 1. cbn [Emitter.withTank Emitter.active Emitter.zone
    Emitter.full Emitter.tank Emitter.flow Emitter.forceMin Emitter.forceMax
    Emitter.fraction].
  destruct ((flow >= ofZ 0) || (tank >=? 0)%Z) eqn:E.
  - rewrite setFlow_passes by exact E. reflexivity.
  - rewrite setFlow_fails by exact E. reflexivity.
Qed.

End Constructor.

(** X17.  In any arithmetic with the laws above: the constructor of an
    emitter aborts exactly when the assertion of [setFlow] fails, that is
    when neither [flow >= 0] nor [tank >= 0] holds (the call of [setTank]
    before it always passes, the flow being 1 at that point).  Otherwise
    the emitter is active, with the zone, tank and flow given and a null
    fraction; its [full] flag is whatever the storage held, the argument
    [full] is not stored; and the force range holds the two forces given, in
    the order given when the storage held an ordered range, exchanged with a
    warning otherwise. *)
Theorem newEmitter_result :
  forall (F : FloatOps), FloatOrder F -> FloatLaws F ->
  forall (raw : Emitter.Emitter F) (zone : Zone.Zone F) (full : bool)
         (tank : Z) (flow forceMin forceMax : float) (rt : Runtime),
    (fleb (ofZ 0) flow || (tank >=? 0)%Z = false ->
     Emitter.newEmitter raw zone full tank flow forceMin forceMax rt = None)
    /\ (fleb (ofZ 0) flow || (tank >=? 0)%Z = true ->
        exists (e : Emitter.Emitter F) (rt' : Runtime),
          Emitter.newEmitter raw zone full tank flow forceMin forceMax rt
          = Some (e, rt')
          /\ Emitter.active e = true
          /\ Emitter.zone e = zone
          /\ Emitter.tank e = tank
          /\ Emitter.flow e = flow
          /\ Emitter.fraction e = ofZ 0
          /\ Emitter.full e = Emitter.full raw
          /\ ~ (fltb (Emitter.flow e) (ofZ 0) = true /\ (Emitter.tank e < 0)%Z)
          /\ (if fleb (Emitter.forceMin raw) (Emitter.forceMax raw)
              then Emitter.forceMin e = forceMin
                   /\ Emitter.forceMax e = forceMax /\ rt' = rt
              else Emitter.forceMin e = forceMax
                   /\ Emitter.forceMax e = forceMin
                   /\ randomSeed rt' = randomSeed rt
                   /\ exists msg, logged rt' = LogWarning msg :: logged rt)).
Proof.
  intros F O L raw zone full tank flow forceMin forceMax rt.
  rewrite newEmitter_run. split.
  - intros H. rewrite H. reflexivity.
  - intros H. rewrite H. unfold Emitter.setForce.
    cbn [Emitter.forceMin Emitter.forceMax].
    destruct (fleb (Emitter.forceMin raw) (Emitter.forceMax raw)).
    + eexists. eexists. split; [reflexivity|].
      cbn [Emitter.withForce Emitter.active Emitter.zone Emitter.full
           Emitter.tank Emitter.flow Emitter.forceMin Emitter.forceMax
           Emitter.fraction].
      repeat (split; [reflexivity|]).
      split; [apply not_both_negative; exact H|].
      repeat split.
    + eexists. eexists. split; [reflexivity|].
      cbn [Emitter.withForce Emitter.active Emitter.zone Emitter.full
           Emitter.tank Emitter.flow Emitter.forceMin Emitter.forceMax
           Emitter.fraction randomSeed logged].
      repeat (split; [reflexivity|]).
      split; [apply not_both_negative; exact H|].
      repeat split. eexists. reflexivity.
Qed.

Lemma newEmitter_result_witness :
  Emitter.newEmitter (Single.emitter 0 0)
                     (Zone.OfPoint (Point.mkPoint (Single.vec 0 0 0))) false
                     (-1) (Binary32.of_Z (-1))
                     (Binary32.of_Z 1) (Binary32.of_Z 2) Single.start
  = None
  /\ exists (e : Emitter.Emitter Binary32.ops) (rt' : Runtime),
      Emitter.newEmitter (Single.emitter 0 0)
                         (Zone.OfPoint (Point.mkPoint (Single.vec 0 0 0)))
                         false (-1) (Binary32.of_Z 3)
                         (Binary32.of_Z 1) (Binary32.of_Z 2) Single.start
      = Some (e, rt')
      /\ Emitter.full e = true
      /\ Emitter.tank e = (-1)%Z.
Proof.
  split.
  - apply (proj1 (newEmitter_result Binary32.ops Binary32_order Binary32_laws
                    (Single.emitter 0 0)
                    (Zone.OfPoint (Point.mkPoint (Single.vec 0 0 0))) false
                    (-1) (Binary32.of_Z (-1))
                    (Binary32.of_Z 1) (Binary32.of_Z 2) Single.start)).
    reflexivity.
  - destruct (proj2 (newEmitter_result Binary32.ops Binary32_order
                       Binary32_laws (Single.emitter 0 0)
                       (Zone.OfPoint (Point.mkPoint (Single.vec 0 0 0))) false
                       (-1) (Binary32.of_Z 3)
                       (Binary32.of_Z 1) (Binary32.of_Z 2) Single.start)
                eq_refl)
      as (e & rt' & Hrun & _ & _ & Htank & _ & _ & Hfull & _).
    exists e, rt'. split; [exact Hrun|]. split; [exact Hfull|exact Htank].
Defined.

(* ------------------------------------------------------------------ *)
(** ** Box::intersectSlab and Box::intersects *)

Section Intersects.

Context {F : FloatOps}.
Local Open Scope float_scope.

Lemma intersectSlab_cases (dist0 dist1 slab : float) (axis : Vector3D F)
      (minRatio : float) (normal : Vector3D F) :
  (fst (Box.intersectSlab dist0 dist1 slab axis minRatio normal) = false
   /\ snd (Box.intersectSlab dist0 dist1 slab axis minRatio normal)
      = (minRatio, normal))
  \/ (fst (Box.intersectSlab dist0 dist1 slab axis minRatio normal) = true
      /\ snd (snd (Box.intersectSlab dist0 dist1 slab axis minRatio normal))
         = axis
      /\ xorb (slab - dist0 > ofZ 0) (slab - dist1 > ofZ 0) = true).
Proof.
  unfold Box.intersectSlab. cbv zeta.
  destruct (xorb (slab - dist0 > ofZ 0) (slab - dist1 > ofZ 0)).
  - destruct ((slab - dist0) / (slab - dist0 - (slab - dist1)) < minRatio).
    + right. repeat split.
    + left. split; reflexivity.
  - left. split; reflexivity.
Qed.

(** Equal distances are never separated by a plane. *)
Lemma intersectSlab_same (dist slab : float) (axis : Vector3D F)
      (minRatio : float) (normal : Vector3D F) :
  Box.intersectSlab dist dist slab axis minRatio normal
  = (false, (minRatio, normal)).
Proof.
  unfold Box.intersectSlab. cbv zeta. rewrite xorb_nilpotent. reflexivity.
Qed.

Lemma intersectAxis_sound (b : Box.Box F) (d0 d1 : Vector3D F)
      (radius : float) (i : nat) (normal0 : Vector3D F)
      (st : bool * (float * Vector3D F)) :
  (i < 3)%nat ->
  soundCrossing b normal0 st ->
  soundCrossing b normal0 (Box.intersectAxis b d0 d1 radius i st).
Proof.
  intros Hi [Hfalse Htrue]. destruct st as [hit [minRatio normal]].
  cbn [fst snd] in *. unfold Box.intersectAxis. cbv zeta. cbn [fst snd].
  set (dist0 := dotProduct (aget (Box.tAxis b) i) d0).
  set (dist1 := dotProduct (aget (Box.tAxis b) i) d1).
  set (dists := if dist1 - dist0 > ofZ 0
                then (dist0 + radius, dist1 + radius)
                else (dist0 - radius, dist1 - radius)).
  pose proof (intersectSlab_cases (fst dists) (snd dists)
                (vget (Box.dimension b) i) (vopp (aget (Box.tAxis b) i))
                minRatio normal) as C1.
  destruct (Box.intersectSlab (fst dists) (snd dists)
              (vget (Box.dimension b) i) (vopp (aget (Box.tAxis b) i))
              minRatio normal) as [h1 [m1 n1]].
  cbn [fst snd] in *.
  pose proof (intersectSlab_cases (fst dists) (snd dists)
                (- vget (Box.dimension b) i) (aget (Box.tAxis b) i)
                m1 n1) as C2.
  destruct (Box.intersectSlab (fst dists) (snd dists)
              (- vget (Box.dimension b) i) (aget (Box.tAxis b) i) m1 n1)
    as [h2 [m2 n2]].
  cbn [fst snd] in *.
  assert (Hface1 : isFaceNormal b (vopp (aget (Box.tAxis b) i))).
  { exists i. split; [exact Hi|]. right. reflexivity. }
  assert (Hface2 : isFaceNormal b (aget (Box.tAxis b) i)).
  { exists i. split; [exact Hi|]. left. reflexivity. }
  unfold soundCrossing. cbn [fst snd].
  destruct C1 as [[-> E1]|[-> [E1 _]]]; destruct C2 as [[-> E2]|[-> [E2 _]]];
    rewrite ?orb_false_r, ?orb_true_r.
  - inversion E1; subst m1 n1. inversion E2; subst m2 n2.
    split; [exact Hfalse|exact Htrue].
  - subst n2. split; [discriminate|]. intros _. exact Hface2.
  - inversion E2; subst m2 n2. subst n1.
    split; [discriminate|]. intros _. exact Hface1.
  - subst n2. split; [discriminate|]. intros _. exact Hface2.
Qed.

Lemma intersectAxis_same (b : Box.Box F) (d : Vector3D F) (radius : float)
      (i : nat) (st : bool * (float * Vector3D F)) :
  Box.intersectAxis b d d radius i st = st.
Proof.
  destruct st as [hit [minRatio normal]].
  unfold Box.intersectAxis. cbv zeta. cbn [fst snd].
  destruct (fltb (ofZ 0) _); cbn [fst snd];
    rewrite !intersectSlab_same; cbn [fst snd];
    rewrite !orb_false_r; reflexivity.
Qed.

Lemma intersects_run (b : Box.Box F) (v0 v1 : Vector3D F) (radius : float)
      (normal : Vector3D F) (rt : Runtime) :
  let d0 := vsub v0 (Box.tPosition b) in
  let d1 := vsub v1 (Box.tPosition b) in
  let st := Box.intersectAxis b d0 d1 radius 2
              (Box.intersectAxis b d0 d1 radius 1
                 (Box.intersectAxis b d0 d1 radius 0
                    (false, (MAX_FLOAT, normal)))) in
  Box.intersects b v0 v1 radius normal rt
  = Some ((fst st, snd (snd st)),
          mkRuntime (randomSeed rt) (LogInfo intersectsNotice :: logged rt)).
Proof. reflexivity. Qed.

End Intersects.

(** X18.  In any arithmetic, [Box::intersects] always completes, keeps the
    seed and logs one notice, the same at every call.  When it returns
    false the normal of the caller is left as it was; when it returns true
    the normal is one of the three transformed axes of the box or the
    opposite of one. *)
Theorem intersects_normal_is_a_face_normal :
  forall (F : FloatOps) (b : Box.Box F) (v0 v1 : Vector3D F) (radius : float)
         (normal : Vector3D F) (rt : Runtime),
    exists (hit : bool) (normal' : Vector3D F),
      Box.intersects b v0 v1 radius normal rt
      = Some ((hit, normal'),
              mkRuntime (randomSeed rt) (LogInfo intersectsNotice :: logged rt))
      /\ (hit = false -> normal' = normal)
      /\ (hit = true -> isFaceNormal b normal').
Proof.
  intros F b v0 v1 radius normal rt.
  eexists. eexists. split; [apply intersects_run|]. cbv zeta.
  apply (intersectAxis_sound b _ _ radius 2 normal); [lia|].
  apply (intersectAxis_sound b _ _ radius 1 normal); [lia|].
  apply (intersectAxis_sound b _ _ radius 0 normal); [lia|].
  split; cbn [fst snd]; [reflexivity|discriminate].
Qed.

(** X19.  In any arithmetic, a segment reduced to a point intersects no
    box: [Box::intersects(v, v, radius, normal)] returns false and leaves
    the normal as it was. *)
Theorem intersects_of_a_point_is_false :
  forall (F : FloatOps) (b : Box.Box F) (v : Vector3D F) (radius : float)
         (normal : Vector3D F) (rt : Runtime),
    Box.intersects b v v radius normal rt
    = Some ((false, normal),
            mkRuntime (randomSeed rt) (LogInfo intersectsNotice :: logged rt)).
Proof.
  intros F b v radius normal rt. rewrite intersects_run. cbv zeta.
  rewrite !intersectAxis_same. reflexivity.
Qed.

Section ExactIntersects.

Local Open Scope R_scope.

Lemma intersectSlab_same_side (dist0 dist1 slab : R) (axis : Vector3D Exact.ops)
      (minRatio : R) (normal : Vector3D Exact.ops) :
  (0 < slab - dist0 <-> 0 < slab - dist1) ->
  @Box.intersectSlab Exact.ops dist0 dist1 slab axis minRatio normal
  = (false, (minRatio, normal)).
Proof.
  intros H. unfold Box.intersectSlab. cbv zeta. exact_ops.
  replace (xorb (Exact.Rltb 0 (slab - dist0)) (Exact.Rltb 0 (slab - dist1)))
    with false; [reflexivity|].
  destruct (Exact.Rltb 0 (slab - dist0)) eqn:E0;
    destruct (Exact.Rltb 0 (slab - dist1)) eqn:E1; try reflexivity.
  - apply Rltb_true in E0. apply Rltb_false in E1. apply H in E0. lra.
  - apply Rltb_false in E0. apply Rltb_true in E1. apply H in E1. lra.
Qed.

Lemma intersectAxis_inside (b : Box.Box Exact.ops) (d0 d1 : Vector3D Exact.ops)
      (radius : R) (i : nat) (st : bool * (R * Vector3D Exact.ops)) :
  Rabs (dotProduct (aget (Box.tAxis b) i) d0) + Rabs radius
  < vget (Box.dimension b) i ->
  Rabs (dotProduct (aget (Box.tAxis b) i) d1) + Rabs radius
  < vget (Box.dimension b) i ->
  Box.intersectAxis b d0 d1 radius i st = st.
Proof.
  intros H0 H1. destruct st as [hit [minRatio normal]].
  unfold Box.intersectAxis. cbv zeta. cbn [fst snd]. exact_ops.
  set (dist0 := dotProduct (aget (Box.tAxis b) i) d0) in *.
  set (dist1 := dotProduct (aget (Box.tAxis b) i) d1) in *.
  set (dim := vget (Box.dimension b) i) in *.
  assert (B0 : - dim < dist0 + radius < dim /\ - dim < dist0 - radius < dim).
  { revert H0. unfold Rabs.
    destruct (Rcase_abs dist0), (Rcase_abs radius); intros; lra. }
  assert (B1 : - dim < dist1 + radius < dim /\ - dim < dist1 - radius < dim).
  { revert H1. unfold Rabs.
    destruct (Rcase_abs dist1), (Rcase_abs radius); intros; lra. }
  destruct (Exact.Rltb 0 (dist1 - dist0)); cbn [fst snd];
    rewrite intersectSlab_same_side by (split; intros; lra);
    cbn [fst snd];
    rewrite intersectSlab_same_side by (split; intros; lra);
    cbn [fst snd]; rewrite !orb_false_r; reflexivity.
Qed.

(** X20.  In exact arithmetic, a segment whose two ends lie strictly inside
    the box by more than the radius (on every axis the absolute coordinate
    plus the absolute radius is below the dimension) is not reported as
    intersecting, and the normal of the caller is left as it was. *)
Theorem intersects_false_inside :
  forall (b : Box.Box Exact.ops) (v0 v1 : Vector3D Exact.ops) (radius : R)
         (normal : Vector3D Exact.ops) (rt : Runtime),
    (forall i : nat, (i < 3)%nat ->
       Rabs (coordinate b v0 i) + Rabs radius < vget (Box.dimension b) i) ->
    (forall i : nat, (i < 3)%nat ->
       Rabs (coordinate b v1 i) + Rabs radius < vget (Box.dimension b) i) ->
    Box.intersects b v0 v1 radius normal rt
    = Some ((false, normal),
            mkRuntime (randomSeed rt) (LogInfo intersectsNotice :: logged rt)).
Proof.
  intros b v0 v1 radius normal rt H0 H1.
  rewrite intersects_run. cbv zeta. unfold coordinate in H0, H1.
  rewrite (intersectAxis_inside b _ _ radius 0) by (apply H0 || apply H1; lia).
  rewrite (intersectAxis_inside b _ _ radius 1) by (apply H0 || apply H1; lia).
  rewrite (intersectAxis_inside b _ _ radius 2) by (apply H0 || apply H1; lia).
  reflexivity.
Qed.

Lemma Real_box_inside (a c e : Z) :
  (Z.abs a < 1)%Z -> (Z.abs c < 2)%Z -> (Z.abs e < 3)%Z ->
  forall i : nat, (i < 3)%nat ->
    Rabs (coordinate Real.box (Real.vec a c e) i) + Rabs 0
    < vget (Box.dimension Real.box) i.
Proof.
  intros Ha Hc He i Hi. unfold coordinate, Real.box, Real.vec.
  cbn [Box.tAxis Box.tPosition Box.dimension]. rewrite Rabs_R0.
  destruct i as [|[|[|i]]]; [| | |lia]; vector_ops; exact_ops.
  - replace (1 * (IZR a - 0) + 0 * (IZR c - 0) + 0 * (IZR e - 0))
      with (IZR a) by ring.
    rewrite <- abs_IZR. rewrite Rplus_0_r. apply IZR_lt. exact Ha.
  - replace (0 * (IZR a - 0) + 1 * (IZR c - 0) + 0 * (IZR e - 0))
      with (IZR c) by ring.
    rewrite <- abs_IZR. rewrite Rplus_0_r. apply IZR_lt. exact Hc.
  - replace (0 * (IZR a - 0) + 0 * (IZR c - 0) + 1 * (IZR e - 0))
      with (IZR e) by ring.
    rewrite <- abs_IZR. rewrite Rplus_0_r. apply IZR_lt. exact He.
Qed.

Lemma intersects_false_inside_witness :
  Box.intersects Real.box (Real.vec 0 1 (-2)) (Real.vec 0 (-1) 2) 0%R
                 (Real.vec 7 7 7) Real.start
  = Some ((false, Real.vec 7 7 7),
          mkRuntime 1 [LogInfo intersectsNotice]).
Proof.
  apply (intersects_false_inside Real.box (Real.vec 0 1 (-2))
           (Real.vec 0 (-1) 2) 0%R (Real.vec 7 7 7) Real.start).
  - apply Real_box_inside; cbn; lia.
  - apply Real_box_inside; cbn; lia.
Defined.

End ExactIntersects.

Lemma intersects_normal_is_a_face_normal_witness :
  isFaceNormal Single.canonical (vopp (Single.vec 0 0 1)).
Proof.
  destruct (intersects_normal_is_a_face_normal Binary32.ops Single.canonical
              (Single.vec 0 0 0) (Single.vec 0 0 5) (Binary32.of_Z 0)
              (Single.vec 9 9 9) Single.start)
    as (hit & normal' & Hrun & _ & Htrue).
  assert (Hc : Box.intersects Single.canonical (Single.vec 0 0 0)
                 (Single.vec 0 0 5) (Binary32.of_Z 0) (Single.vec 9 9 9)
                 Single.start
               = Some ((true, vopp (Single.vec 0 0 1)),
                       mkRuntime 1 [LogInfo intersectsNotice]))
    by reflexivity.
  rewrite Hc in Hrun. inversion Hrun. subst hit normal'.
  apply Htrue. reflexivity.
Defined.

(* ------------------------------------------------------------------ *)
(** ** Emitter::setForce *)

(** X21.  In exact arithmetic, [setForce(min, max)] with [min < max] keeps
    the orientation the stored range had: on an ordered stored range it
    stores [(min, max)] and logs nothing; on a reversed stored range
    ([forceMax < forceMin]) it stores [(max, min)] with a warning, so the
    range stays reversed.  Tank, flow, zone and flags are untouched. *)
Theorem setForce_keeps_orientation :
  forall (e : Emitter.Emitter Exact.ops) (min max : R) (rt : Runtime),
    (min < max)%R ->
    exists (e' : Emitter.Emitter Exact.ops) (rt' : Runtime),
      Emitter.setForce e min max rt = Some (e', rt')
      /\ Emitter.tank e' = Emitter.tank e
      /\ Emitter.flow e' = Emitter.flow e
      /\ Emitter.zone e' = Emitter.zone e
      /\ Emitter.active e' = Emitter.active e
      /\ Emitter.full e' = Emitter.full e
      /\ randomSeed rt' = randomSeed rt
      /\ ((Emitter.forceMin e <= Emitter.forceMax e)%R ->
          Emitter.forceMin e' = min /\ Emitter.forceMax e' = max
          /\ (Emitter.forceMin e' < Emitter.forceMax e')%R /\ rt' = rt)
      /\ ((Emitter.forceMax e < Emitter.forceMin e)%R ->
          Emitter.forceMin e' = max /\ Emitter.forceMax e' = min
          /\ (Emitter.forceMax e' < Emitter.forceMin e')%R
          /\ exists msg, logged rt' = LogWarning msg :: logged rt).
Proof.
  intros e min max rt Hlt. unfold Emitter.setForce. exact_ops.
  destruct (Exact.Rleb (Emitter.forceMin e) (Emitter.forceMax e)) eqn:E;
    [apply Rleb_true in E|apply Rleb_false in E].
  - eexists. eexists. split; [reflexivity|].
    cbn [Emitter.withForce Emitter.active Emitter.zone Emitter.full
         Emitter.tank Emitter.flow Emitter.forceMin Emitter.forceMax].
    repeat (split; [reflexivity|]). split.
    + intros _. repeat split. exact Hlt.
    + intros H. exfalso. apply (Rlt_irrefl (Emitter.forceMin e)).
      eapply Rle_lt_trans; eassumption.
  - eexists. eexists. split; [reflexivity|].
    cbn [Emitter.withForce Emitter.active Emitter.zone Emitter.full
         Emitter.tank Emitter.flow Emitter.forceMin Emitter.forceMax
         randomSeed logged].
    repeat (split; [reflexivity|]). split.
    + intros H. exfalso. apply (Rlt_irrefl (Emitter.forceMin e)).
      eapply Rle_lt_trans; eassumption.
    + intros _. repeat split; [exact Hlt|]. eexists. reflexivity.
Qed.

Lemma setForce_keeps_orientation_witness :
  exists (e' : Emitter.Emitter Exact.ops) (rt' : Runtime),
    Emitter.setForce Real.reversed 1%R 3%R Real.start = Some (e', rt')
    /\ Emitter.forceMin e' = 3%R /\ Emitter.forceMax e' = 1%R.
Proof.
  destruct (setForce_keeps_orientation Real.reversed 1%R 3%R Real.start)
    as (e' & rt' & Hrun & _ & _ & _ & _ & _ & _ & _ & Hrev).
  - lra.
  - exists e', rt'. split; [exact Hrun|].
    destruct Hrev as (Hmin & Hmax & _).
    + unfold Real.reversed. cbn [Emitter.forceMin Emitter.forceMax]. lra.
    + split; [exact Hmin|exact Hmax].
Defined.

(* ------------------------------------------------------------------ *)
(** ** Box::contains on NaN, Box::computeNormal on a flat box *)

Section SingleNaN.

(** NaN goes through the operations and fails every comparison. *)
Lemma SFsub_nan_l (a : spec_float) :
  SFsub Binary32.prec Binary32.emax S754_nan a = S754_nan.
Proof. reflexivity. Qed.

Lemma SFsub_nan_r (a : spec_float) :
  SFsub Binary32.prec Binary32.emax a S754_nan = S754_nan.
Proof. destruct a; reflexivity. Qed.

Lemma SFadd_nan_l (a : spec_float) :
  SFadd Binary32.prec Binary32.emax S754_nan a = S754_nan.
Proof. reflexivity. Qed.

Lemma SFadd_nan_r (a : spec_float) :
  SFadd Binary32.prec Binary32.emax a S754_nan = S754_nan.
Proof. destruct a; reflexivity. Qed.

Lemma SFmul_nan_r (a : spec_float) :
  SFmul Binary32.prec Binary32.emax a S754_nan = S754_nan.
Proof. destruct a; reflexivity. Qed.

Lemma SFltb_nan_r (a : spec_float) : SFltb a S754_nan = false.
Proof. destruct a as [s|s| |s m e]; try destruct s; reflexivity. Qed.

Lemma dotProduct_nan (t d : Vector3D Binary32.ops) :
  hasNaN d -> dotProduct t d = S754_nan.
Proof.
  intros H. destruct t as [t0 t1 t2], d as [d0 d1 d2].
  unfold hasNaN in H. cbn [x y z] in H. unfold dotProduct. cbn [x y z].
  cbn [fadd fmul Binary32.ops].
  destruct H as [->|[->| ->]].
  - rewrite SFmul_nan_r, !SFadd_nan_l. reflexivity.
  - rewrite SFmul_nan_r, SFadd_nan_r, SFadd_nan_l. reflexivity.
  - rewrite SFmul_nan_r, SFadd_nan_r. reflexivity.
Qed.

Lemma outsideSlab_nan (b : Box.Box Binary32.ops) (d : Vector3D Binary32.ops)
      (radius : spec_float) (i : nat) :
  hasNaN d \/ radius = S754_nan ->
  Box.outsideSlab b d radius i = false.
Proof.
  intros H. unfold Box.outsideSlab.
  cbn [fltb fsub fabs Binary32.ops].
  replace (SFsub Binary32.prec Binary32.emax
             (SFabs (dotProduct (aget (Box.tAxis b) i) d)) radius)
    with S754_nan; [apply SFltb_nan_r|].
  destruct H as [H| ->].
  - rewrite (dotProduct_nan _ d H). reflexivity.
  - rewrite SFsub_nan_r. reflexivity.
Qed.

End SingleNaN.

(** X22.  In IEEE single precision, [Box::contains] answers true for every
    box as soon as the radius is NaN or the point has a NaN coordinate: the
    loop only returns false on a test [>], which a NaN fails. *)
Theorem contains_true_on_NaN :
  forall (b : Box.Box Binary32.ops) (v : Vector3D Binary32.ops)
         (radius : spec_float),
    hasNaN v \/ radius = S754_nan ->
    Box.contains b v radius = true.
Proof.
  intros b v radius H.
  assert (Hd : hasNaN (vsub v (Box.tPosition b)) \/ radius = S754_nan).
  { destruct H as [H|H]; [left|right; exact H].
    destruct v as [v0 v1 v2]. unfold hasNaN in *. unfold vsub.
    cbn [x y z] in *. cbn [fsub Binary32.ops].
    destruct H as [->|[->| ->]]; rewrite SFsub_nan_l; auto. }
  unfold Box.contains. cbv zeta.
  rewrite !(outsideSlab_nan b _ radius _ Hd). reflexivity.
Qed.

Lemma contains_true_on_NaN_witness :
  Box.contains Single.canonical (Single.vec 100 100 100) S754_nan = true.
Proof.
  apply (contains_true_on_NaN Single.canonical (Single.vec 100 100 100)
           S754_nan).
  right. reflexivity.
Defined.

Section ExactFlatBox.

Local Open Scope R_scope.

Lemma computeRatio_flat (b : Box.Box Exact.ops) (d ratio : Vector3D Exact.ops)
      (i : nat) :
  vget (Box.dimension b) i <= 0 ->
  Box.computeRatio b d ratio i = ratio.
Proof.
  intros H. unfold Box.computeRatio. exact_ops.
  rewrite (proj2 (Rltb_false _ _) H). reflexivity.
Qed.

(** X23.  In exact arithmetic, on a box none of whose dimensions is
    positive (a box reduced to its centre), [computeNormal] computes no
    ratio and returns [-tAxis[0]] for every point. *)
Theorem Box_computeNormal_flat_box :
  forall (b : Box.Box Exact.ops) (v : Vector3D Exact.ops),
    x (Box.dimension b) <= 0 ->
    y (Box.dimension b) <= 0 ->
    z (Box.dimension b) <= 0 ->
    Box.computeNormal b v = vopp (aget (Box.tAxis b) 0).
Proof.
  intros b v Hx Hy Hz. unfold Box.computeNormal. cbv zeta.
  rewrite (computeRatio_flat b _ _ 0) by exact Hx.
  rewrite (computeRatio_flat b _ _ 1) by exact Hy.
  rewrite (computeRatio_flat b _ _ 2) by exact Hz.
  unfold vabs. cbn [x y z vget]. exact_ops.
  set (m := IZR (16777215 * 2 ^ 104)).
  assert (Hm : 0 < m).
  { subst m. apply IZR_lt. reflexivity. }
  rewrite (proj2 (Rltb_false (Rabs m) (Rabs m)) (Rle_refl _)).
  cbn [vget x y z].
  rewrite (proj2 (Rltb_false (Rabs m) (Rabs m)) (Rle_refl _)).
  cbn [vget x y z].
  rewrite (proj2 (Rltb_true 0 m) Hm). reflexivity.
Qed.

Lemma Box_computeNormal_flat_box_witness :
  Box.computeNormal
    (Box.withDimension Real.box (Real.vec 0 0 0)) (Real.vec 5 6 7)
  = vopp (Real.vec 1 0 0).
Proof.
  apply (Box_computeNormal_flat_box
           (Box.withDimension Real.box (Real.vec 0 0 0)) (Real.vec 5 6 7)).
  - cbn. lra.
  - cbn. lra.
  - cbn. lra.
Defined.

End ExactFlatBox.

(* ------------------------------------------------------------------ *)
(** ** Box::setAxis on vectors whose normalized forms are parallel *)

Section ZeroLaws.

#[export] Instance Exact_zero : FloatZero Exact.ops (fun _ => True).
Proof.
  constructor.
  - intros a _. exact I.
  - intros p q _. split; exact I.
  - intros a b _. split; exact I.
  - unfold isZero. exact_ops. intros a b Ha _.
    apply Reqb_true in Ha. apply Reqb_true. rewrite Ha. ring.
  - unfold isZero. exact_ops. intros a b Ha Hb.
    apply Reqb_true in Ha, Hb. apply Reqb_true. rewrite Ha, Hb. ring.
  - unfold isZero. exact_ops. intros a b Ha Hb.
    apply Reqb_true in Ha, Hb. apply Reqb_true. rewrite Ha, Hb. ring.
  - unfold isZero. exact_ops. intros a Ha.
    apply Reqb_true in Ha. apply Reqb_true. rewrite Ha. apply sqrt_0.
Qed.

Lemma SFeqb_zero (a : spec_float) :
  SFeqb a (S754_zero false) = true -> exists s : bool, a = S754_zero s.
Proof.
  destruct a as [s|s| |s m e]; intros H.
  - exists s. reflexivity.
  - destruct s; discriminate H.
  - discriminate H.
  - destruct s; discriminate H.
Qed.

Lemma SFeqb_of_zero (s : bool) : SFeqb (S754_zero s) (S754_zero false) = true.
Proof. reflexivity. Qed.

#[export] Instance Binary32_zero : FloatZero Binary32.ops SFfinite.
Proof.
  constructor; unfold isZero;
    cbn [feqb fsub fmul fadd fsqrt ofZ float Binary32.ops];
    change (Binary32.of_Z 0) with (S754_zero false).
  - intros a H. apply SFeqb_zero in H. destruct H as [s ->]. exact I.
  - intros p q H. apply SFeqb_zero in H. destruct H as [s H].
    destruct p as [sp|sp| |sp mp ep], q as [sq|sq| |sq mq eq];
      try (split; exact I); try discriminate H;
      destruct sp; try destruct sq; discriminate H.
  - intros a b H.
    destruct a as [sa|sa| |sa ma ea], b as [sb|sb| |sb mb eb];
      try (split; exact I); try contradiction H.
  - intros a b Ha Hb. apply SFeqb_zero in Ha. destruct Ha as [s ->].
    destruct b as [sb|sb| |sb mb eb]; try contradiction Hb; reflexivity.
  - intros a b Ha Hb. apply SFeqb_zero in Ha, Hb.
    destruct Ha as [s ->], Hb as [t ->]. destruct s, t; reflexivity.
  - intros a b Ha Hb. apply SFeqb_zero in Ha, Hb.
    destruct Ha as [s ->], Hb as [t ->]. destruct s, t; reflexivity.
  - intros a Ha. apply SFeqb_zero in Ha. destruct Ha as [s ->]. reflexivity.
Qed.

End ZeroLaws.

Section NullCrossProduct.

Context {F : FloatOps} {finite : float -> Prop} {L : FloatZero F finite}.

Lemma isNull_components (v : Vector3D F) :
  isNull v = true <-> isZero (x v) /\ isZero (y v) /\ isZero (z v).
Proof.
  unfold isNull, isZero. rewrite !andb_true_iff. tauto.
Qed.

(** The vector that multiplies into a null cross product has finite
    components. *)
Lemma null_crossProduct_finite (u v : Vector3D F) :
  isNull (crossProduct u v) = true ->
  finite (x u) /\ finite (y u) /\ finite (z u).
Proof.
  intros H. apply isNull_components in H. unfold crossProduct in H.
  cbn [x y z] in H. destruct H as (H0 & H1 & _).
  apply difference_operands_finite in H0, H1.
  destruct H0 as [Hyz Hzy], H1 as [Hzx Hxz].
  apply product_operands_finite in Hyz, Hzy, Hxz.
  destruct Hyz as [Hy _], Hzy as [Hz _], Hxz as [Hx _].
  split; [exact Hx|]. split; [exact Hy|exact Hz].
Qed.

(** The cross product of a null vector and a vector of finite components
    is null. *)
Lemma crossProduct_of_null (n v : Vector3D F) :
  isNull n = true ->
  finite (x v) -> finite (y v) -> finite (z v) ->
  isNull (crossProduct n v) = true.
Proof.
  intros H Hx Hy Hz. apply isNull_components in H.
  destruct H as (N0 & N1 & N2). apply isNull_components.
  unfold crossProduct. cbn [x y z].
  repeat split; apply zero_minus_zero; apply zero_times; assumption.
Qed.

(** [normalize] leaves a null vector as it is. *)
Lemma normalize_of_null (n : Vector3D F) :
  isNull n = true -> normalize n = (false, n).
Proof.
  intros H. apply isNull_components in H. destruct H as (N0 & N1 & N2).
  assert (Hn : isZero (getNorm n)).
  { unfold getNorm, getSqrNorm. apply sqrt_of_zero.
    repeat apply zero_plus_zero; apply zero_times;
      assumption || (apply zero_is_finite; assumption). }
  unfold normalize. cbv zeta. unfold isZero in Hn. rewrite Hn. reflexivity.
Qed.

End NullCrossProduct.

(** X9.  In the reals and in IEEE single precision alike: when [setAxis]
    receives vectors that pass its guard (different, neither null) and
    whose normalized forms have a null cross product, as they do for
    [front = (1,0,0)] and [up = (2,0,0)], it logs nothing and stores a null
    [axis[0]] and a null [axis[1]]: the first cross product is null,
    [normalize] leaves it as it is, and the second cross product is null as
    well; [tAxis[0]] and [tAxis[1]] are the images of these null vectors.
    The third axis is the normalized [front]; dimension and position are
    kept. *)
Theorem setAxis_parallel_null_axes :
  forall (F : FloatOps) (finite : float -> Prop) (L : FloatZero F finite)
         (b : Box.Box F) (front up : Vector3D F) (rt : Runtime),
    veqb front up = false ->
    isNull front = false ->
    isNull up = false ->
    isNull (crossProduct (snd (normalize front)) (snd (normalize up))) = true ->
    exists b' : Box.Box F,
      Box.setAxis b front up rt = Some (b', rt)
      /\ isNull (at0 (Box.axis b')) = true
      /\ isNull (at1 (Box.axis b')) = true
      /\ at0 (Box.tAxis b') = Box.transformDir b (at0 (Box.axis b'))
      /\ at1 (Box.tAxis b') = Box.transformDir b (at1 (Box.axis b'))
      /\ at2 (Box.tAxis b') = Box.transformDir b (snd (normalize front))
      /\ Box.dimension b' = Box.dimension b
      /\ Box.tPosition b' = Box.tPosition b.
Proof.
  intros F finite L b front up rt Hne Hf Hu Hcross.
  set (nf := snd (normalize front)) in *.
  set (nu := snd (normalize up)) in *.
  destruct (null_crossProduct_finite nf nu Hcross) as (Fx & Fy & Fz).
  pose proof (crossProduct_of_null (crossProduct nf nu) nf Hcross Fx Fy Fz)
    as Hsecond.
  unfold Box.setAxis. rewrite Hne, Hf, Hu. cbn [orb].
  unfold bind, ret. cbn [fst snd]. fold nf nu.
  rewrite (normalize_of_null _ Hcross), (normalize_of_null _ Hsecond).
  cbn [snd]. eexists. split; [reflexivity|].
  cbn [Box.withAxes Box.axis Box.tAxis Box.dimension Box.tPosition at0 at1 at2].
  split; [exact Hcross|]. split; [exact Hsecond|].
  repeat split; reflexivity.
Qed.

Lemma setAxis_parallel_null_axes_witness :
  exists b' : Box.Box Binary32.ops,
    Box.setAxis Single.canonical (Single.vec 1 0 0) (Single.vec 2 0 0)
                Single.start = Some (b', Single.start)
    /\ isNull (at0 (Box.axis b')) = true
    /\ isNull (at1 (Box.axis b')) = true.
Proof.
  destruct (setAxis_parallel_null_axes Binary32.ops SFfinite Binary32_zero
              Single.canonical (Single.vec 1 0 0) (Single.vec 2 0 0)
              Single.start)
    as (b' & Hrun & H0 & H1 & _).
  - reflexivity.
  - reflexivity.
  - reflexivity.
  - reflexivity.
  - exists b'. split; [exact Hrun|]. split; [exact H0|exact H1].
Defined.
